(** * ZOON catalogue scraper: a shallow embedding of [src/main.py] and
      [zoon_tomsk_restaurants.py]

    The repository holds two scripts that walk the pages of a restaurant
    catalogue with a browser driven by Selenium.  [src/main.py] is the
    configuration-driven variant (class [ZoonScraper]); the second script keeps
    the same pipeline as module-level functions.  Both are embedded below:

    - Python [str] values are sequences of Unicode code points;
    - Python [int] values are [Z];
    - Python [float] values are binary64 numbers, each given by its value as
      a fraction; conversions to [float] round to the nearest, ties to even;
    - exceptions, the mutable scraper object and the browser are threaded
      through a state-and-exception monad whose state survives a raise, as the
      attributes of a Python object do;
    - the browser is an interface ([Browser]); every call the program makes on
      it is recorded in a trace. *)

From Stdlib Require Import List ZArith NArith QArith Bool Lia String Ascii.
From Stdlib Require Import DecimalString RelationClasses.
From Stdlib Require DecimalZ DecimalPos.
Import ListNotations.

Local Open Scope Z_scope.

(* ===================================================================== *)
(** ** Python strings *)
(* ===================================================================== *)

(** A Python [str] is a sequence of code points. *)
Definition pystr := list N.

(** Literals of the sources are written as they stand there and decoded from
    the UTF-8 bytes of the Rocq literal. *)
Fixpoint utf8_decode (bs : list N) : pystr :=
  match bs with
  | [] => []
  | b0 :: t0 =>
      if (b0 <? 128)%N then b0 :: utf8_decode t0
      else if (b0 <? 224)%N then
        match t0 with
        | b1 :: t1 => ((b0 - 192) * 64 + (b1 - 128))%N :: utf8_decode t1
        | _ => []
        end
      else if (b0 <? 240)%N then
        match t0 with
        | b1 :: b2 :: t2 =>
            ((b0 - 224) * 4096 + (b1 - 128) * 64 + (b2 - 128))%N :: utf8_decode t2
        | _ => []
        end
      else
        match t0 with
        | b1 :: b2 :: b3 :: t3 =>
            ((b0 - 240) * 262144 + (b1 - 128) * 4096 + (b2 - 128) * 64 + (b3 - 128))%N
              :: utf8_decode t3
        | _ => []
        end
  end.

Definition literal (s : string) : pystr :=
  utf8_decode (map N_of_ascii (list_ascii_of_string s)).

(** [u "..."] is the literal, decoded once and for all where it is written. *)
Notation "'u' s" := (ltac:(let v := eval vm_compute in (literal s) in exact v))
  (at level 10, s at level 9, only parsing).

(** [a == b] *)
Fixpoint pystr_eqb (a b : pystr) : bool :=
  match a, b with
  | [], [] => true
  | x :: a', y :: b' => (x =? y)%N && pystr_eqb a' b'
  | _, _ => false
  end.

(** [bool(s)] for a string: true when it is not empty. *)
Definition truthy (s : pystr) : bool :=
  match s with [] => false | _ => true end.

(** [sep.join(parts)]. *)
Fixpoint join (sep : pystr) (parts : list pystr) : pystr :=
  match parts with
  | [] => []
  | [p] => p
  | p :: rest => p ++ sep ++ join sep rest
  end.

(** [str(n)] and [f"{n}"] for an [int]. *)
Definition str_of_int (n : Z) : pystr :=
  map N_of_ascii (list_ascii_of_string (NilZero.string_of_int (Z.to_int n))).

(** [f"{n:02d}"]: the sign counts in the width, so only 0..9 are padded. *)
Definition format_02d (n : Z) : pystr :=
  if (0 <=? n) && (n <? 10) then u "0" ++ str_of_int n else str_of_int n.

(** [s.lstrip(chars)], [s.rstrip(chars)], [s.strip(chars)] with the set of
    characters given as a predicate. *)
Fixpoint lstrip_by (p : N -> bool) (s : pystr) : pystr :=
  match s with
  | c :: s' => if p c then lstrip_by p s' else s
  | [] => []
  end.

Definition rstrip_by (p : N -> bool) (s : pystr) : pystr :=
  rev (lstrip_by p (rev s)).

Definition strip_by (p : N -> bool) (s : pystr) : pystr :=
  rstrip_by p (lstrip_by p s).

Definition in_chars (chars : pystr) (c : N) : bool :=
  existsb (N.eqb c) chars.

(** [str.isspace] on one character: the characters [str.strip()] removes. *)
Definition is_space (c : N) : bool :=
  ((9 <=? c) && (c <=? 13) || (28 <=? c) && (c <=? 32)
   || (c =? 133) || (c =? 160) || (c =? 5760)
   || (8192 <=? c) && (c <=? 8202)
   || (c =? 8232) || (c =? 8233) || (c =? 8239) || (c =? 8287)
   || (c =? 12288))%N.

Definition strip (s : pystr) : pystr := strip_by is_space s.

(** [needle in hay]. *)
Fixpoint starts_with (needle hay : pystr) : bool :=
  match needle, hay with
  | [], _ => true
  | a :: n', b :: h' => (a =? b)%N && starts_with n' h'
  | _ :: _, [] => false
  end.

Fixpoint contains (needle hay : pystr) : bool :=
  starts_with needle hay ||
  match hay with
  | [] => false
  | _ :: h' => contains needle h'
  end.

(** ["\n"] *)
Definition NEWLINE : pystr := [10%N].

(** [s.replace(",", ".")]: one character for another. *)
Definition replace_char (a b : N) (s : pystr) : pystr :=
  map (fun c => if (c =? a)%N then b else c) s.

(** The tables of the Unicode database the scripts rely on through [re] 's
    [\d], [float] and [str.lower]. *)
Class Unicode : Type := {
  (** decimal value of a character of category Nd, [None] for the others *)
  decimal_value : N -> option N;
  (** [str.lower] *)
  lower : pystr -> pystr
}.

(** On ASCII the decimal digits are the characters 0..9. *)
Definition ascii_digits (U : Unicode) : Prop :=
  forall c, (c < 128)%N ->
    decimal_value c = if ((48 <=? c) && (c <=? 57))%N then Some (c - 48)%N else None.

(** A table that knows the ASCII and the Arabic-Indic digits, and lowers the
    Latin capital letters and the Cyrillic ones of the basic block. *)
Definition small_decimal_value (c : N) : option N :=
  if ((48 <=? c) && (c <=? 57))%N then Some (c - 48)%N
  else if ((1632 <=? c) && (c <=? 1641))%N then Some (c - 1632)%N
  else None.

Definition small_lower_char (c : N) : N :=
  if ((65 <=? c) && (c <=? 90))%N then (c + 32)%N
  else if ((1040 <=? c) && (c <=? 1071))%N then (c + 32)%N
  else c.

Definition SmallUnicode : Unicode :=
  {| decimal_value := small_decimal_value; lower := map small_lower_char |}.

(* ===================================================================== *)
(** ** Exceptions and results *)
(* ===================================================================== *)

(** The exception classes that matter to the handlers of the scripts.  All
    but [KeyboardInterrupt] derive from [Exception]; the two Selenium
    classes derive from [WebDriverException]. *)
Inductive exn : Type :=
  | NoSuchElementException
  | TimeoutException
  | WebDriverException
  | ValueError
  | ZeroDivisionError
  | OverflowError
  | OSError
  | KeyboardInterrupt.

(** [isinstance(e, Exception)], the test of [except Exception]. *)
Definition is_Exception (e : exn) : bool :=
  match e with KeyboardInterrupt => false | _ => true end.

Definition is_NoSuchElement (e : exn) : bool :=
  match e with NoSuchElementException => true | _ => false end.

Definition is_Timeout (e : exn) : bool :=
  match e with TimeoutException => true | _ => false end.

(** What evaluating an expression gives: a value or a raised exception. *)
Inductive outcome (A : Type) : Type :=
  | Ret (a : A)
  | Raise (e : exn).
Arguments Ret {A} a.
Arguments Raise {A} e.

Definition obind {A B} (m : outcome A) (k : A -> outcome B) : outcome B :=
  match m with
  | Ret a => k a
  | Raise e => Raise e
  end.

(** [try: m except <class>: h] for code without side effects. *)
Definition otry {A} (m : outcome A) (caught : exn -> bool) (h : outcome A) : outcome A :=
  match m with
  | Ret a => Ret a
  | Raise e => if caught e then h else Raise e
  end.

Declare Scope outcome_scope.
Delimit Scope outcome_scope with out.
Notation "x <- m ;; k" := (obind m (fun x => k))
  (at level 100, m at next level, right associativity) : outcome_scope.

(* ===================================================================== *)
(** ** Floats *)
(* ===================================================================== *)

(** A Python [float] that the scripts can meet: a finite binary64 number, by
    its exact value as a reduced fraction, or the positive infinity. *)
Inductive pyfloat : Type :=
  | Finite (q : Q)
  | Infinity.

(** [num / den] rounded to the nearest integer, a tie going to the even
    one ([num >= 0], [den > 0]). *)
Definition round_half_even (num den : Z) : Z :=
  let q := num / den in
  match 2 * (num mod den) ?= den with
  | Lt => q
  | Gt => q + 1
  | Eq => if Z.even q then q else q + 1
  end.

(** The binary64 number nearest to [n / d], a tie going to the even
    significand ([n >= 0], [d > 0]): 53 bits of significand above the
    exponent -1074 of the subnormal numbers, and the infinity from
    [2^1024] on.  [fl] is the binary exponent of [n / d]. *)
Definition nearest_binary64 (n d : Z) : pyfloat :=
  if n =? 0 then Finite 0
  else
    let l := Z.log2 n - Z.log2 d in
    let fl :=
      if (if 0 <=? l then d * 2 ^ l <=? n else d <=? n * 2 ^ (- l)) then l else l - 1 in
    let e := Z.max (fl - 52) (-1074) in
    let m :=
      if 0 <=? e then round_half_even n (d * 2 ^ e)
      else round_half_even (n * 2 ^ (- e)) d in
    if 0 <=? e then
      if 2 ^ 1024 <=? m * 2 ^ e then Infinity else Finite (inject_Z (m * 2 ^ e))
    else Finite (Qred (m # Z.to_pos (2 ^ (- e)))).

(** The float nearest to a fraction that is not negative. *)
Definition float_of_Q (q : Q) : pyfloat :=
  nearest_binary64 (Qnum q) (Zpos (Qden q)).

(** [a / b] on integers: the float nearest to the quotient, an
    [OverflowError] when that is out of range. *)
Definition true_divide (a b : Z) : outcome Q :=
  if b =? 0 then Raise ZeroDivisionError
  else
    match nearest_binary64 (Z.abs a) (Z.abs b) with
    | Infinity => Raise OverflowError
    | Finite x => Ret (if Z.sgn a * Z.sgn b <? 0 then Qopp x else x)
    end.

(** [int(x)] on a finite float: towards zero. *)
Definition int_of_float (x : Q) : Z := Z.quot (Qnum x) (Zpos (Qden x)).

(** [int(height * (idx + 1) / (steps + 1))], the offset of a scroll step. *)
Definition scroll_offset (height idx steps : Z) : outcome Z :=
  (x <- true_divide (height * (idx + 1)) (steps + 1) ;;
   Ret (int_of_float x))%out.

(* ===================================================================== *)
(** ** Cards and records *)
(* ===================================================================== *)

(** A WebElement found inside a card: only its visible text is read. *)
Record Element : Type := { text : pystr }.

(** A card handle is what it answers to [find_elements(By.CSS_SELECTOR, s)];
    [find_element] is its first answer, or [NoSuchElementException]. *)
Record Card : Type := { find_elements : pystr -> outcome (list Element) }.

Definition find_element (card : Card) (selector : pystr) : outcome Element :=
  match find_elements card selector with
  | Ret (e :: _) => Ret e
  | Ret [] => Raise NoSuchElementException
  | Raise e => Raise e
  end.

Record Place : Type := {
  name : pystr;
  rating : option pyfloat;
  categories : list pystr
}.

(* ===================================================================== *)
(** ** The regular expression of the rating *)
(* ===================================================================== *)

(** The fragment of [re] the scripts use: a character class, a greedy [+] on
    a class, concatenation and ordered alternation, matched with
    backtracking as [re] does. *)
Inductive regex : Type :=
  | Cls (p : N -> bool)
  | PlusCls (p : N -> bool)
  | Seq (a b : regex)
  | Alt (a b : regex).

(** [p+] then the continuation [k]: the longest run first, shorter ones on
    failure of [k]. *)
Fixpoint plus_cls {R} (p : N -> bool) (s : pystr) (k : pystr -> option R) : option R :=
  match s with
  | c :: s' =>
      if p c then
        match plus_cls p s' k with
        | Some r => Some r
        | None => k s'
        end
      else None
  | [] => None
  end.

Fixpoint rmatch {R} (r : regex) (s : pystr) (k : pystr -> option R) : option R :=
  match r with
  | Cls p =>
      match s with
      | c :: s' => if p c then k s' else None
      | [] => None
      end
  | PlusCls p => plus_cls p s k
  | Seq a b => rmatch a s (fun s' => rmatch b s' k)
  | Alt a b =>
      match rmatch a s k with
      | Some x => Some x
      | None => rmatch b s k
      end
  end.

(** [re.match(r, s)]: the text matched at the start of [s]. *)
Definition re_match (r : regex) (s : pystr) : option pystr :=
  match rmatch r s (fun rest => Some rest) with
  | Some rest => Some (firstn (List.length s - List.length rest) s)
  | None => None
  end.

(** [re.search(r, s)]: the match at the leftmost position that has one. *)
Fixpoint re_search (r : regex) (s : pystr) : option pystr :=
  match re_match r s with
  | Some m => Some m
  | None =>
      match s with
      | [] => None
      | _ :: s' => re_search r s'
      end
  end.

Section Extraction.

Context {U : Unicode}.

(** [\d] *)
Definition is_digit (c : N) : bool :=
  match decimal_value c with Some _ => true | None => false end.

(** [[.,]] *)
Definition is_sep (c : N) : bool := in_chars (u ".,") c.

(** [r"(\d+[.,]\d+|\d+)"]; its only group is the whole pattern. *)
Definition RATING_RE : regex :=
  Alt (Seq (PlusCls is_digit) (Seq (Cls is_sep) (PlusCls is_digit)))
      (PlusCls is_digit).

(** The value of a run of decimal digits, and whether it is one. *)
Fixpoint digits_value (acc : N) (s : pystr) : option N :=
  match s with
  | [] => Some acc
  | c :: s' =>
      match decimal_value c with
      | Some d => digits_value (acc * 10 + d)%N s'
      | None => None
      end
  end.

Fixpoint split_at_dot (s : pystr) : pystr * option pystr :=
  match s with
  | [] => ([], None)
  | c :: s' =>
      if (c =? 46)%N then ([], Some s')
      else let '(a, b) := split_at_dot s' in (c :: a, b)
  end.

Definition decimal (mant : N) (places : nat) : Q :=
  Qred (inject_Z (Z.of_N mant) / inject_Z (10 ^ Z.of_nat places)).

(** [float(s)] on the numerals the pattern can produce, [digits] and
    [digits.digits]: the binary64 number nearest to the decimal the numeral
    denotes, the infinity when that is out of range.  Anything else is a
    [ValueError] here. *)
Definition py_float (s : pystr) : outcome pyfloat :=
  match split_at_dot s with
  | (a, None) =>
      match a, digits_value 0 a with
      | _ :: _, Some n => Ret (float_of_Q (decimal n 0))
      | _, _ => Raise ValueError
      end
  | (a, Some b) =>
      match a, b, digits_value 0 (a ++ b) with
      | _ :: _, _ :: _, Some n => Ret (float_of_Q (decimal n (List.length b)))
      | _, _, _ => Raise ValueError
      end
  end.

(** The text part of [_extract_rating]: search, normalise, convert. *)
Definition rating_of_text (t : pystr) : outcome (option pyfloat) :=
  match re_search RATING_RE t with
  | None => Ret None
  | Some m => (x <- py_float (replace_char 44 46 m) ;; Ret (Some x))%out
  end.

(** The characters of [" ·—-\n\t"], the argument of [strip] in the category
    loop: space, middle dot, em dash, hyphen, line feed, tab. *)
Definition CATEGORY_STRIP_CHARS : pystr := [32; 183; 8212; 45; 10; 9]%N.

(** The loop over the category links: [seen] is the set of kept texts,
    [categories] the list built so far. *)
Fixpoint categories_loop (links : list Element) (seen categories : list pystr)
  : list pystr :=
  match links with
  | [] => categories
  | link :: rest =>
      let t := strip_by (in_chars CATEGORY_STRIP_CHARS) (text link) in
      if truthy t && negb (existsb (pystr_eqb t) seen)
      then categories_loop rest (t :: seen) (categories ++ [t])
      else categories_loop rest seen categories
  end.

(** *** [ZoonScraper]: the extraction methods of [src/main.py] *)

Definition TITLE_SELECTORS : list pystr :=
  [u "a.title-link.js-item-url"; u ".minicard-item__title"; u "h2"].
Definition RATING_SELECTOR : pystr := u ".minicard-item__rating, .rating, .stars".
Definition FEATURES_SELECTOR : pystr :=
  u ".minicard-item__features a, .service-items a, .tags a".

Fixpoint extract_name_from (card : Card) (selectors : list pystr) : outcome pystr :=
  match selectors with
  | [] => Ret []
  | selector :: rest =>
      match find_element card selector with
      | Ret e =>
          let t := strip (text e) in
          if truthy t then Ret t else extract_name_from card rest
      | Raise ex =>
          if is_NoSuchElement ex then extract_name_from card rest else Raise ex
      end
  end.

Definition _extract_name (card : Card) : outcome pystr :=
  extract_name_from card TITLE_SELECTORS.

Definition _extract_rating (card : Card) : outcome (option pyfloat) :=
  match find_element card RATING_SELECTOR with
  | Raise ex => if is_NoSuchElement ex then Ret None else Raise ex
  | Ret e => rating_of_text (strip (text e))
  end.

Definition _extract_categories (card : Card) : outcome (list pystr) :=
  match find_elements card FEATURES_SELECTOR with
  | Raise ex => if is_NoSuchElement ex then Ret [] else Raise ex
  | Ret links => Ret (categories_loop links [] [])
  end.

Definition _parse_card (card : Card) : outcome Place :=
  (n <- _extract_name card ;;
   r <- _extract_rating card ;;
   c <- _extract_categories card ;;
   Ret {| name := n; rating := r; categories := c |})%out.

(** *** [parse_card] of [zoon_tomsk_restaurants.py] *)

Definition parse_card_name (card : Card) : outcome pystr :=
  match find_element card (u "a.title-link.js-item-url") with
  | Ret e => Ret (strip (text e))
  | Raise ex =>
      if is_NoSuchElement ex then
        match find_element card (u ".minicard-item__title, h2") with
        | Ret e => Ret (strip (text e))
        | Raise ex' => if is_Exception ex' then Ret [] else Raise ex'
        end
      else Raise ex
  end.

Definition parse_card_rating (card : Card) : outcome (option pyfloat) :=
  otry
    (e <- find_element card (u ".minicard-item__rating, .rating, .stars") ;;
     rating_of_text (strip (text e)))%out
    is_NoSuchElement (Ret None).

Definition parse_card_cats (card : Card) : outcome (list pystr) :=
  otry
    (links <- find_elements card
                (u ".minicard-item__features a, .service-items a, .tags a") ;;
     Ret (categories_loop links [] []))%out
    is_NoSuchElement (Ret []).

Definition parse_card (card : Card) : outcome Place :=
  (n <- parse_card_name card ;;
   r <- parse_card_rating card ;;
   c <- parse_card_cats card ;;
   Ret {| name := n; rating := r; categories := c |})%out.

End Extraction.

(* ===================================================================== *)
(** ** The table that is saved *)
(* ===================================================================== *)

(** A cell of the frame: a string or a float. *)
Inductive cell : Type :=
  | CellStr (s : pystr)
  | CellFloat (x : pyfloat).

(** A dict literal, in insertion order. *)
Definition row := list (pystr * cell).

(** [pd.DataFrame(rows)] for rows that all have the keys of the first one in
    the same order: these keys are the columns; no row, no column. *)
Record DataFrame : Type := {
  columns : list pystr;
  data : list (list cell)
}.

Definition DataFrame_of (rows : list row) : DataFrame :=
  {| columns := match rows with [] => [] | r :: _ => map fst r end;
     data := map (map snd) rows |}.

Definition place_row (p : Place) : row :=
  [ (u "Название", CellStr (name p));
    (u "Рейтинг", match rating p with Some x => CellFloat x | None => CellStr [] end);
    (u "Направления",
      match categories p with
      | [] => CellStr []
      | _ => CellStr (join (u " | ") (categories p))
      end) ].

Definition df_from_places (places : list Place) : DataFrame :=
  DataFrame_of (map place_row places).

(* ===================================================================== *)
(** ** The browser and the files *)
(* ===================================================================== *)

(** The calls the scripts make on what lies outside them.  [CChrome] stands
    for the whole of [_build_driver] / [build_driver]: the options, the
    [webdriver.Chrome] constructor and the CDP commands that follow it. *)
Inductive call : Type :=
  | CChrome (headless : bool)
  | CGet (url : pystr)
  | CPageSource
  | CRefresh
  | CWait (timeout : Z) (selector : pystr)
  | CFindElements (selector : pystr)
  | CExecuteScript (script : pystr)
  | CQuit
  | CSleep (lo hi : Q)
  | CInput
  | CRandint (lo hi : Z).

(** What answers the calls.  Every call may raise and may change the world
    (time passes while the script sleeps or waits).
    - [wait_presence t s] is [WebDriverWait(driver, t).until(
      EC.presence_of_element_located((By.CSS_SELECTOR, s)))], which raises
      [TimeoutException] when the element does not show up;
    - [execute_script] returns the number the script evaluates to, if any;
    - [sleep a b] is [time.sleep(random.uniform(a, b))]. *)
Class Browser (W : Type) : Type := {
  chrome : bool -> W -> outcome unit * W;
  get : pystr -> W -> outcome unit * W;
  page_source : W -> outcome pystr * W;
  refresh : W -> outcome unit * W;
  wait_presence : Z -> pystr -> W -> outcome unit * W;
  driver_find_elements : pystr -> W -> outcome (list Card) * W;
  execute_script : pystr -> W -> outcome (option Z) * W;
  quit : W -> outcome unit * W;
  sleep : Q -> Q -> W -> outcome unit * W;
  input : W -> outcome unit * W;
  randint : Z -> Z -> W -> outcome Z * W
}.

(** What [to_csv] and [write_text] leave in a file; each replaces the file. *)
Inductive FileData : Type :=
  | CsvFile (df : DataFrame)
  | TextFile (content : pystr).

Definition filesystem := list (pystr * FileData).

Fixpoint read_file (fs : filesystem) (path : pystr) : option FileData :=
  match fs with
  | [] => None
  | (p, d) :: rest => if pystr_eqb p path then Some d else read_file rest path
  end.

Definition write_file (fs : filesystem) (path : pystr) (d : FileData) : filesystem :=
  (path, d) :: filter (fun pd => negb (pystr_eqb (fst pd) path)) fs.

(** The outside of the program: the browser and its world, the trace of
    the calls made so far, the files of the output directory by name. *)
Record Env (W : Type) : Type := {
  world : W;
  calls : list call;
  files : filesystem
}.
Arguments world {W} _.
Arguments calls {W} _.
Arguments files {W} _.

(* ===================================================================== *)
(** ** The monad of the scripts *)
(* ===================================================================== *)

(** A computation over a state [St]: the state is kept when it raises. *)
Definition M (St A : Type) : Type := St -> outcome A * St.

Definition ret {St A} (a : A) : M St A := fun s => (Ret a, s).

Definition raise {St A} (e : exn) : M St A := fun s => (Raise e, s).

Definition bind {St A B} (m : M St A) (k : A -> M St B) : M St B :=
  fun s =>
    match m s with
    | (Ret a, s') => k a s'
    | (Raise e, s') => (Raise e, s')
    end.

Declare Scope py_scope.
Delimit Scope py_scope with py.
Notation "x <- m ;; k" := (bind m (fun x => k))
  (at level 100, m at next level, right associativity) : py_scope.
Notation "m ;; k" := (bind m (fun _ => k))
  (at level 100, right associativity) : py_scope.

(** [try: m except <class>: h] *)
Definition try_except {St A} (m : M St A) (caught : exn -> bool) (h : M St A) : M St A :=
  fun s =>
    match m s with
    | (Ret a, s') => (Ret a, s')
    | (Raise e, s') => if caught e then h s' else (Raise e, s')
    end.

(** [try: m finally: fin]: [fin] always runs; what it raises replaces the
    result of [m]. *)
Definition try_finally {St A} (m : M St A) (fin : M St unit) : M St A :=
  fun s =>
    match m s with
    | (r, s') =>
        match fin s' with
        | (Ret _, s'') => (r, s'')
        | (Raise e, s'') => (Raise e, s'')
        end
    end.

(** A result computed without side effects, inside a computation. *)
Definition pure_ {St A} (o : outcome A) : M St A := fun s => (o, s).

(** [for x in xs: body(x)] without [break]. *)
Fixpoint for_each {St A} (xs : list A) (body : A -> M St unit) : M St unit :=
  match xs with
  | [] => ret tt
  | x :: rest => (body x ;; for_each rest body)%py
  end.

(** [range(a, b)] *)
Definition py_range (a b : Z) : list Z :=
  map (fun i => a + Z.of_nat i) (seq 0 (Z.to_nat (b - a))).

Section Calls.

Context {W : Type} {B : Browser W}.

(** One call on the outside, recorded in the trace. *)
Definition do_call {A} (c : call) (f : W -> outcome A * W) : M (Env W) A :=
  fun e =>
    let '(r, w') := f (world e) in
    (r, {| world := w'; calls := calls e ++ [c]; files := files e |}).

Definition write (path : pystr) (d : FileData) : M (Env W) unit :=
  fun e =>
    (Ret tt, {| world := world e; calls := calls e;
                files := write_file (files e) path d |}).

End Calls.

(* ===================================================================== *)
(** ** [src/main.py] *)
(* ===================================================================== *)

Module Main.

(** [ParserConfig], without the fields only [_build_driver] reads (user
    agents, language, window sizes) and with the output directory left out
    of the file names. *)
Record ParserConfig : Type := {
  city_url : pystr;
  total_pages : Z;
  headless : bool;
  csv_filename : pystr;
  log_filename : pystr;
  wait_timeout : Z;
  initial_sleep : Q * Q;
  page_sleep : Q * Q;
  scroll_sleep : Q * Q;
  scroll_reset_sleep : Q * Q;
  scroll_steps_range : Z * Z;
  protect_poll_attempts : Z;
  protect_poll_delay : Q * Q;
  protect_manual_retry_attempts : Z;
  protect_manual_retry_delay : Q * Q
}.

(** [ParserConfig()] *)
Definition default_config : ParserConfig := {|
  city_url := u "https://zoon.ru/tomsk/restaurants/";
  total_pages := 34;
  headless := false;
  csv_filename := u "zoon_tomsk_restaurants.csv";
  log_filename := u "zoon_loader_log.txt";
  wait_timeout := 25;
  initial_sleep := (1.5, 3.0)%Q;
  page_sleep := (2.8, 5.2)%Q;
  scroll_sleep := (0.6, 1.2)%Q;
  scroll_reset_sleep := (0.5, 1.1)%Q;
  scroll_steps_range := (4, 7);
  protect_poll_attempts := 10;
  protect_poll_delay := (2.2, 4.2)%Q;
  protect_manual_retry_attempts := 6;
  protect_manual_retry_delay := (3.5, 5.5)%Q
|}.

Definition page_url (config : ParserConfig) (page : Z) : pystr :=
  if page =? 1 then city_url config
  else rstrip_by (in_chars (u "/")) (city_url config)
         ++ u "/page-" ++ str_of_int page ++ u "/".

Definition PROTECT_TOKENS : list pystr :=
  [ u "мы проверяем, что вы не робот";
    u "checking your browser";
    u "you will be redirected";
    u "cloudflare";
    u "подождите несколько секунд" ].

Definition CARD_SELECTORS : list pystr :=
  [ u "li.minicard-item.js-results-item"; u "div.minicard-item" ].

Definition CONTAINER_SELECTORS : list pystr :=
  [ u "ul.js-results-group"; u "div.catalog-list"; u "div.results-container" ].

(** The attributes of a [ZoonScraper] and the outside it acts on.  The
    driver handle carries nothing the claims need: it is there or not. *)
Record Scraper (W : Type) : Type := {
  config : ParserConfig;
  places : list Place;
  logs : list pystr;
  _driver : option unit;
  env : Env W
}.
Arguments config {W} _.
Arguments places {W} _.
Arguments logs {W} _.
Arguments _driver {W} _.
Arguments env {W} _.

Section Methods.

Context {U : Unicode} {W : Type} {B : Browser W}.

Local Notation "'Py'" := (M (Scraper W)) (only parsing).

(** [ZoonScraper(config)] facing the outside [e]. *)
Definition new (cfg : ParserConfig) (e : Env W) : Scraper W :=
  {| config := cfg; places := []; logs := []; _driver := None; env := e |}.

(** A computation on the outside, run from a method. *)
Definition outside {A} (m : M (Env W) A) : Py A :=
  fun s =>
    let '(r, e') := m (env s) in
    (r, {| config := config s; places := places s; logs := logs s;
           _driver := _driver s; env := e' |}).

Definition self_config : Py ParserConfig := fun s => (Ret (config s), s).
Definition self_places : Py (list Place) := fun s => (Ret (places s), s).
Definition self_logs : Py (list pystr) := fun s => (Ret (logs s), s).
Definition self_driver : Py (option unit) := fun s => (Ret (_driver s), s).

(** [self.logs.append(line)] *)
Definition logs_append (line : pystr) : Py unit :=
  fun s =>
    (Ret tt, {| config := config s; places := places s; logs := logs s ++ [line];
                _driver := _driver s; env := env s |}).

(** [self.places.append(place)] *)
Definition places_append (place : Place) : Py unit :=
  fun s =>
    (Ret tt, {| config := config s; places := places s ++ [place]; logs := logs s;
                _driver := _driver s; env := env s |}).

Definition set_driver (d : option unit) : Py unit :=
  fun s =>
    (Ret tt, {| config := config s; places := places s; logs := logs s;
                _driver := d; env := env s |}).

(** [humanized_sleep(bounds)] *)
Definition humanized_sleep (bounds : Q * Q) : M (Env W) unit :=
  do_call (CSleep (fst bounds) (snd bounds)) (sleep (fst bounds) (snd bounds)).

Definition _is_protect_screen : M (Env W) bool :=
  (html <- do_call CPageSource page_source ;;
   ret (existsb (fun token => contains token (lower html)) PROTECT_TOKENS))%py.

Definition _build_driver (cfg : ParserConfig) : M (Env W) unit :=
  do_call (CChrome (headless cfg)) (chrome (headless cfg)).

Definition _ensure_driver : Py unit :=
  (d <- self_driver ;;
   match d with
   | None =>
       cfg <- self_config ;;
       drv <- outside (_build_driver cfg) ;;
       set_driver (Some drv)
   | Some _ => ret tt
   end)%py.

(** [close]: a scraper without driver is left alone; otherwise [quit], whose
    [Exception]s are passed over, and the driver is forgotten in any case. *)
Definition close : Py unit :=
  (d <- self_driver ;;
   match d with
   | None => ret tt
   | Some _ =>
       try_finally
         (try_except (outside (do_call CQuit quit)) is_Exception (ret tt))
         (set_driver None)
   end)%py.

Fixpoint wait_candidates (timeout : Z) (selectors : list pystr) : M (Env W) bool :=
  match selectors with
  | [] => ret false
  | selector :: rest =>
      try_except
        (do_call (CWait timeout selector) (wait_presence timeout selector) ;; ret true)%py
        is_Timeout
        (wait_candidates timeout rest)
  end.

Definition _wait_cards_container (page : Z) : Py bool :=
  (cfg <- self_config ;;
   found <- outside (wait_candidates (wait_timeout cfg) CONTAINER_SELECTORS) ;;
   if found then ret true
   else
     logs_append (u "Стр. " ++ str_of_int page ++ u ": контейнер не найден — стоп") ;;
     ret false)%py.

(** [f"window.scrollTo({{top:{y}, behavior:'smooth'}});"] *)
Definition scroll_script (y : Z) : pystr :=
  u "window.scrollTo({top:" ++ str_of_int y ++ u ", behavior:'smooth'});".

(** [_gentle_scroll] *)
Definition _gentle_scroll (cfg : ParserConfig) : M (Env W) unit :=
  (h <- do_call (CExecuteScript (u "return document.body.scrollHeight"))
          (execute_script (u "return document.body.scrollHeight")) ;;
   let height := match h with Some 0 | None => 1000 | Some x => x end in
   steps <- do_call (CRandint (fst (scroll_steps_range cfg)) (snd (scroll_steps_range cfg)))
              (randint (fst (scroll_steps_range cfg)) (snd (scroll_steps_range cfg))) ;;
   for_each (py_range 0 steps)
     (fun idx =>
        y <- pure_ (scroll_offset height idx steps) ;;
        do_call (CExecuteScript (scroll_script y)) (execute_script (scroll_script y)) ;;
        humanized_sleep (scroll_sleep cfg)) ;;
   do_call (CExecuteScript (u "window.scrollTo({top:0, behavior:'smooth'});"))
     (execute_script (u "window.scrollTo({top:0, behavior:'smooth'});")) ;;
   humanized_sleep (scroll_reset_sleep cfg))%py.

Fixpoint collect_from (selectors : list pystr) : M (Env W) (list Card) :=
  match selectors with
  | [] => ret []
  | selector :: rest =>
      (items <- do_call (CFindElements selector) (driver_find_elements selector) ;;
       match items with
       | [] => collect_from rest
       | _ => ret items
       end)%py
  end.

Definition _collect_cards : M (Env W) (list Card) := collect_from CARD_SELECTORS.

Definition _append_cards (cards : list Card) : Py Z :=
  (before <- self_places ;;
   for_each cards
     (fun card =>
        place <- pure_ (_parse_card card) ;;
        if truthy (name place) then places_append place else ret tt) ;;
   after <- self_places ;;
   ret (Z.of_nat (List.length after) - Z.of_nat (List.length before)))%py.

Definition partial_csv_name (page : Z) : pystr :=
  u "zoon_tomsk_restaurants_page_" ++ format_02d page ++ u ".csv".

Definition partial_log_name (page : Z) : pystr :=
  u "zoon_loader_log_page_" ++ format_02d page ++ u ".txt".

Definition _save_partial (page : Z) : Py unit :=
  (ps <- self_places ;;
   ls <- self_logs ;;
   outside (write (partial_csv_name page) (CsvFile (df_from_places ps))) ;;
   outside (write (partial_log_name page) (TextFile (join NEWLINE ls))))%py.

(** The automatic polling of [_handle_protect_screen]: [true] as soon as
    the screen is gone. *)
Fixpoint poll_redirect (cfg : ParserConfig) (attempts : nat) : M (Env W) bool :=
  match attempts with
  | O => ret false
  | S n =>
      (humanized_sleep (protect_poll_delay cfg) ;;
       p <- _is_protect_screen ;;
       if negb p then ret true else poll_redirect cfg n)%py
  end.

(** Its loop after the confirmation of the user. *)
Fixpoint poll_manual (cfg : ParserConfig) (attempts : nat) : M (Env W) bool :=
  match attempts with
  | O => ret false
  | S n =>
      (humanized_sleep (protect_manual_retry_delay cfg) ;;
       p <- _is_protect_screen ;;
       if negb p then ret true
       else do_call CRefresh refresh ;; poll_manual cfg n)%py
  end.

Definition _handle_protect_screen (page : Z) : Py bool :=
  (cfg <- self_config ;;
   p <- outside _is_protect_screen ;;
   if negb p then ret true
   else
     logs_append (u "Стр. " ++ str_of_int page ++ u ": экран проверки — ждём редирект") ;;
     cleared <- outside (poll_redirect cfg (Z.to_nat (protect_poll_attempts cfg))) ;;
     if cleared then ret true
     else if headless cfg then
       logs_append (u "Стр. " ++ str_of_int page ++ u ": проверка не пройдена — стоп") ;;
       ret false
     else
       logs_append (u "Стр. " ++ str_of_int page ++ u ": ручное подтверждение пользователя") ;;
       try_except (outside (do_call CInput input)) is_Exception (ret tt) ;;
       cleared' <- outside (poll_manual cfg (Z.to_nat (protect_manual_retry_attempts cfg))) ;;
       if cleared' then ret true
       else
         logs_append (u "Стр. " ++ str_of_int page
                        ++ u ": проверка не пройдена после ручного подтверждения — стоп") ;;
         ret false)%py.

Definition opened_line (page : Z) (url : pystr) : pystr :=
  u "Открыта страница " ++ str_of_int page ++ u ": " ++ url.

Definition no_cards_line (page : Z) : pystr :=
  u "Стр. " ++ str_of_int page ++ u ": карточек нет — стоп".

Definition page_line (page cards added total : Z) : pystr :=
  u "Стр. " ++ str_of_int page ++ u ": карточек " ++ str_of_int cards
    ++ u ", добавлено " ++ str_of_int added ++ u ", всего " ++ str_of_int total.

Definition _process_page (page : Z) : Py bool :=
  (cfg <- self_config ;;
   let url := page_url cfg page in
   logs_append (opened_line page url) ;;
   outside (do_call (CGet url) (get url)) ;;
   outside (humanized_sleep (initial_sleep cfg)) ;;
   ok <- _handle_protect_screen page ;;
   if negb ok then ret false
   else
     found <- _wait_cards_container page ;;
     if negb found then ret false
     else
       outside (_gentle_scroll cfg) ;;
       cards <- outside _collect_cards ;;
       match cards with
       | [] => logs_append (no_cards_line page) ;; ret false
       | _ =>
           added <- _append_cards cards ;;
           ps <- self_places ;;
           logs_append (page_line page (Z.of_nat (List.length cards)) added
                          (Z.of_nat (List.length ps))) ;;
           _save_partial page ;;
           outside (humanized_sleep (page_sleep cfg)) ;;
           ret true
       end)%py.

(** The [for] loop of [run] with its [break]. *)
Fixpoint run_loop (pages : list Z) : Py unit :=
  match pages with
  | [] => ret tt
  | page :: rest =>
      (ok <- _process_page page ;;
       if negb ok then ret tt else run_loop rest)%py
  end.

Definition run : Py (list Place * list pystr) :=
  (_ensure_driver ;;
   cfg <- self_config ;;
   try_finally (run_loop (py_range 1 (total_pages cfg + 1))) close ;;
   ps <- self_places ;;
   ls <- self_logs ;;
   ret (ps, ls))%py.

(** [main], for the configuration [cfg] in place of [ParserConfig()]. *)
Definition main_with (cfg : ParserConfig) : M (Env W) unit :=
  fun e =>
    match run (new cfg e) with
    | (Ret (ps, history), s) =>
        (write (csv_filename cfg) (CsvFile (df_from_places ps)) ;;
         write (log_filename cfg) (TextFile (join NEWLINE history)))%py
          (env s)
    | (Raise ex, s) => (Raise ex, env s)
    end.

Definition main : M (Env W) unit := main_with default_config.

End Methods.

End Main.

(* ===================================================================== *)
(** ** [zoon_tomsk_restaurants.py] *)
(* ===================================================================== *)

Module Script.

(** The module-level settings the functions read. *)
Record Settings : Type := {
  CITY_URL : pystr;
  TOTAL_PAGES : Z;
  HEADLESS : bool
}.

(** Their values in the script. *)
Definition settings : Settings := {|
  CITY_URL := u "https://zoon.ru/tomsk/restaurants/";
  TOTAL_PAGES := 34;
  HEADLESS := false
|}.

Definition CSV_NAME : pystr := u "zoon_tomsk_restaurants.csv".
Definition LOG_NAME : pystr := u "zoon_loader_log.txt".

Definition page_url (g : Settings) (n : Z) : pystr :=
  if n =? 1 then CITY_URL g
  else rstrip_by (in_chars (u "/")) (CITY_URL g)
         ++ u "/page-" ++ str_of_int n ++ u "/".

(** The local variables of [scrape_all_pages] and the outside. *)
Record Locals (W : Type) : Type := {
  l_places : list Place;
  l_logs : list pystr;
  l_env : Env W
}.
Arguments l_places {W} _.
Arguments l_logs {W} _.
Arguments l_env {W} _.

Section Functions.

Context {U : Unicode} {W : Type} {B : Browser W}.

Local Notation "'Py'" := (M (Locals W)) (only parsing).

Definition outside {A} (m : M (Env W) A) : Py A :=
  fun s =>
    let '(r, e') := m (l_env s) in
    (r, {| l_places := l_places s; l_logs := l_logs s; l_env := e' |}).

Definition get_places : Py (list Place) := fun s => (Ret (l_places s), s).
Definition get_logs : Py (list pystr) := fun s => (Ret (l_logs s), s).

Definition logs_append (line : pystr) : Py unit :=
  fun s =>
    (Ret tt, {| l_places := l_places s; l_logs := l_logs s ++ [line];
                l_env := l_env s |}).

Definition places_append (place : Place) : Py unit :=
  fun s =>
    (Ret tt, {| l_places := l_places s ++ [place]; l_logs := l_logs s;
                l_env := l_env s |}).

(** [human_sleep(a, b)]; [time.sleep(t)] is [fixed_sleep t]. *)
Definition human_sleep (a b : Q) : M (Env W) unit :=
  do_call (CSleep a b) (sleep a b).

Definition fixed_sleep (t : Q) : M (Env W) unit :=
  do_call (CSleep t t) (sleep t t).

Definition build_driver (g : Settings) : M (Env W) unit :=
  do_call (CChrome (HEADLESS g)) (chrome (HEADLESS g)).

Definition is_protect_screen : M (Env W) bool :=
  (html <- do_call CPageSource page_source ;;
   let keys :=
     [ u "мы проверяем, что вы не робот";
       u "checking your browser";
       u "you will be redirected";
       u "cloudflare";
       u "подождите несколько секунд" ] in
   ret (existsb (fun k => contains k (lower html)) keys))%py.

(** The loop of [wait_cards_container]: the last [TimeoutException] is kept
    and raised when no candidate shows up. *)
Fixpoint wait_candidates (timeout : Z) (candidates : list pystr) : M (Env W) unit :=
  match candidates with
  | [] => raise TimeoutException
  | sel :: rest =>
      try_except
        (do_call (CWait timeout sel) (wait_presence timeout sel))
        is_Timeout
        (wait_candidates timeout rest)
  end.

Definition wait_cards_container (timeout : Z) : M (Env W) unit :=
  wait_candidates timeout
    [ u "ul.js-results-group"; u "div.catalog-list"; u "div.results-container" ].

Definition scroll_script (y : Z) : pystr :=
  u "window.scrollTo({top:" ++ str_of_int y ++ u ", behavior:'smooth'});".

Definition gentle_scroll : M (Env W) unit :=
  (r <- do_call (CExecuteScript (u "return document.body.scrollHeight"))
          (execute_script (u "return document.body.scrollHeight")) ;;
   let h := match r with Some 0 | None => 1000 | Some x => x end in
   steps <- do_call (CRandint 3 5) (randint 3 5) ;;
   for_each (py_range 0 steps)
     (fun i =>
        y <- pure_ (scroll_offset h i steps) ;;
        do_call (CExecuteScript (scroll_script y)) (execute_script (scroll_script y)) ;;
        human_sleep 0.5 1.0) ;;
   do_call (CExecuteScript (u "window.scrollTo({top:0, behavior:'smooth'});"))
     (execute_script (u "window.scrollTo({top:0, behavior:'smooth'});")) ;;
   human_sleep 0.4 0.8)%py.

Fixpoint collect_from (selectors : list pystr) : M (Env W) (list Card) :=
  match selectors with
  | [] => ret []
  | sel :: rest =>
      (items <- do_call (CFindElements sel) (driver_find_elements sel) ;;
       match items with
       | [] => collect_from rest
       | _ => ret items
       end)%py
  end.

Definition collect_cards : M (Env W) (list Card) :=
  collect_from [ u "li.minicard-item.js-results-item"; u "div.minicard-item" ].

Definition save_partial (places : list Place) (logs : list pystr) (suffix : pystr)
  : M (Env W) unit :=
  (write (u "zoon_tomsk_restaurants_page_" ++ suffix ++ u ".csv")
     (CsvFile (df_from_places places)) ;;
   write (u "zoon_loader_log_page_" ++ suffix ++ u ".txt")
     (TextFile (join NEWLINE logs)))%py.

(** The polling loop of the main loop: [ok] at its end. *)
Fixpoint poll_redirect (attempts : nat) : M (Env W) bool :=
  match attempts with
  | O => ret false
  | S n =>
      (fixed_sleep 2.5 ;;
       p <- is_protect_screen ;;
       if negb p then ret true else poll_redirect n)%py
  end.

(** One turn of the loop of [scrape_all_pages]: [false] is [break]. *)
Definition page_step (g : Settings) (page : Z) : Py bool :=
  (let url := page_url g page in
   logs_append (u "Открыта страница " ++ str_of_int page ++ u ": " ++ url) ;;
   outside (do_call (CGet url) (get url)) ;;
   outside (human_sleep 1.5 3.0) ;;
   p <- outside is_protect_screen ;;
   (if p then
      logs_append (u "Стр. " ++ str_of_int page ++ u ": экран проверки — ждём редирект") ;;
      ok <- outside (poll_redirect 8) ;;
      if negb ok && negb (HEADLESS g) then
        logs_append (u "Стр. " ++ str_of_int page ++ u ": ручное подтверждение пользователя") ;;
        try_except (outside (do_call CInput input)) is_Exception (ret tt)
      else ret tt
    else ret tt) ;;
   found <- try_except (outside (wait_cards_container 25) ;; ret true) is_Timeout
              (logs_append (u "Стр. " ++ str_of_int page ++ u ": контейнер не найден — стоп") ;;
               ret false) ;;
   if negb found then ret false
   else
     outside gentle_scroll ;;
     cards <- outside collect_cards ;;
     match cards with
     | [] =>
         logs_append (u "Стр. " ++ str_of_int page ++ u ": карточек нет — стоп") ;;
         ret false
     | _ =>
         before <- get_places ;;
         for_each cards
           (fun c =>
              p <- pure_ (parse_card c) ;;
              if truthy (name p) then places_append p else ret tt) ;;
         after <- get_places ;;
         let added := Z.of_nat (List.length after) - Z.of_nat (List.length before) in
         logs_append (u "Стр. " ++ str_of_int page ++ u ": карточек "
                        ++ str_of_int (Z.of_nat (List.length cards))
                        ++ u ", добавлено " ++ str_of_int added
                        ++ u ", всего " ++ str_of_int (Z.of_nat (List.length after))) ;;
         ls <- get_logs ;;
         outside (save_partial after ls (format_02d page)) ;;
         outside (human_sleep 2.4 4.8) ;;
         ret true
     end)%py.

Fixpoint pages_loop (g : Settings) (pages : list Z) : Py unit :=
  match pages with
  | [] => ret tt
  | page :: rest =>
      (continue <- page_step g page ;;
       if negb continue then ret tt else pages_loop g rest)%py
  end.

(** [scrape_all_pages()], started on the outside [e]. *)
Definition scrape_all_pages (g : Settings) : M (Env W) (list Place * list pystr) :=
  fun e =>
    match build_driver g e with
    | (Raise ex, e') => (Raise ex, e')
    | (Ret _, e') =>
        let s0 := {| l_places := []; l_logs := []; l_env := e' |} in
        match
          try_finally (pages_loop g (py_range 1 (TOTAL_PAGES g + 1)))
            (try_except (outside (do_call CQuit quit)) is_Exception (ret tt)) s0
        with
        | (Ret _, s) => (Ret (l_places s, l_logs s), l_env s)
        | (Raise ex, s) => (Raise ex, l_env s)
        end
    end.

(** The block under [if __name__ == "__main__"]. *)
Definition script_main (g : Settings) : M (Env W) unit :=
  (r <- scrape_all_pages g ;;
   write CSV_NAME (CsvFile (df_from_places (fst r))) ;;
   write LOG_NAME (TextFile (join NEWLINE (snd r))))%py.

End Functions.

End Script.

(* ===================================================================== *)
(** ** A browser in memory *)
(* ===================================================================== *)

(** A page of a site that does not change: its source, the selectors the
    wait finds, the cards each selector finds. *)
Record SimPage : Type := {
  sp_source : pystr;
  sp_present : pystr -> bool;
  sp_cards : pystr -> list Card
}.

(** The site by URL, the URL the browser is at, and the faults to inject:
    an exception for [get] on some URLs, one for [quit]. *)
Record Sim : Type := {
  site : pystr -> SimPage;
  current : pystr;
  get_fault : pystr -> option exn;
  quit_fault : option exn
}.

Definition sim_goto (w : Sim) (url : pystr) : Sim :=
  {| site := site w; current := url; get_fault := get_fault w;
     quit_fault := quit_fault w |}.

Definition sim_get (url : pystr) (w : Sim) : outcome unit * Sim :=
  match get_fault w url with
  | Some ex => (Raise ex, w)
  | None => (Ret tt, sim_goto w url)
  end.

Definition sim_wait (timeout : Z) (selector : pystr) (w : Sim) : outcome unit * Sim :=
  if sp_present (site w (current w)) selector then (Ret tt, w)
  else (Raise TimeoutException, w).

Definition sim_quit (w : Sim) : outcome unit * Sim :=
  match quit_fault w with
  | Some ex => (Raise ex, w)
  | None => (Ret tt, w)
  end.

#[export] Instance SimBrowser : Browser Sim := {|
  chrome := fun _ w => (Ret tt, w);
  get := sim_get;
  page_source := fun w => (Ret (sp_source (site w (current w))), w);
  refresh := fun w => (Ret tt, w);
  wait_presence := sim_wait;
  driver_find_elements := fun selector w => (Ret (sp_cards (site w (current w)) selector), w);
  execute_script := fun _ w => (Ret (Some 2000), w);
  quit := sim_quit;
  sleep := fun _ _ w => (Ret tt, w);
  input := fun w => (Ret tt, w);
  randint := fun lo _ w => (Ret lo, w)
|}.

(** A card from the texts of its title link, of its block title, of its
    rating element and of its category links. *)
Definition sim_card (title_link title : option pystr) (rating_text : option pystr)
    (links : list pystr) : Card :=
  let one o := match o with Some t => [ {| text := t |} ] | None => [] end in
  {| find_elements := fun selector =>
       if pystr_eqb selector (u "a.title-link.js-item-url") then Ret (one title_link)
       else if pystr_eqb selector (u ".minicard-item__title") then Ret (one title)
       else if pystr_eqb selector (u ".minicard-item__title, h2") then Ret (one title)
       else if pystr_eqb selector (u ".minicard-item__rating, .rating, .stars")
       then Ret (one rating_text)
       else if pystr_eqb selector (u ".minicard-item__features a, .service-items a, .tags a")
       then Ret (map (fun t => {| text := t |}) links)
       else Ret [] |}.

(** A catalogue page with its container and the given cards, and a page
    without anything. *)
Definition sim_listing (source : pystr) (cards : list Card) : SimPage :=
  {| sp_source := source;
     sp_present := fun selector => pystr_eqb selector (u "ul.js-results-group");
     sp_cards := fun selector =>
       if pystr_eqb selector (u "li.minicard-item.js-results-item") then cards else [] |}.

Definition sim_blank : SimPage :=
  {| sp_source := []; sp_present := fun _ => false; sp_cards := fun _ => [] |}.

Definition sim_site (pages : list (pystr * SimPage)) (url : pystr) : SimPage :=
  match find (fun up => pystr_eqb (fst up) url) pages with
  | Some up => snd up
  | None => sim_blank
  end.

Definition sim_env (w : Sim) : Env Sim := {| world := w; calls := []; files := [] |}.

(** The URLs a trace visits, the releases it holds. *)
Definition gets (cs : list call) : list pystr :=
  flat_map (fun c => match c with CGet url => [url] | _ => [] end) cs.

Definition quits (cs : list call) : nat :=
  List.length (filter (fun c => match c with CQuit => true | _ => false end) cs).

(** *** Worlds for the scenarios *)

Definition card_a : Card :=
  sim_card (Some (u " Кафе Сибирь ")) None (Some (u "Rating: 4,5 stars"))
    [u " A "; u "· B"; u "A —"; u "-C"].

Definition card_b : Card :=
  sim_card None (Some (u "Bar")) None [].


Definition card_nameless : Card :=
  sim_card (Some (u "  ")) None (Some (u "no score")) [u "A"].

Definition base_url : pystr := u "https://zoon.ru/tomsk/restaurants/".
Definition url_2 : pystr := u "https://zoon.ru/tomsk/restaurants/page-2/".
Definition url_3 : pystr := u "https://zoon.ru/tomsk/restaurants/page-3/".

(** Page 1 has two cards, page 2 has the container and no card. *)
Definition world_two_then_none : Sim :=
  {| site := sim_site [ (base_url, sim_listing (u "<html>Рестораны</html>") [card_a; card_b]);
                        (url_2, sim_listing (u "<html></html>") []);
                        (url_3, sim_listing (u "<html></html>") [card_b]) ];
     current := [];
     get_fault := fun _ => None;
     quit_fault := None |}.


(** Page 2 cannot be loaded and the release fails as well. *)
Definition world_faulty : Sim :=
  {| site := sim_site [ (base_url, sim_listing [] [card_a]) ];
     current := [];
     get_fault := fun url => if pystr_eqb url url_2 then Some WebDriverException else None;
     quit_fault := Some OSError |}.

(** The only card of page 1 shows no name. *)
Definition world_nameless : Sim :=
  {| site := sim_site [ (base_url, sim_listing (u "<html></html>") [card_nameless]) ];
     current := [];
     get_fault := fun _ => None;
     quit_fault := None |}.

Definition config_pages (n : Z) (hl : bool) : Main.ParserConfig :=
  {| Main.city_url := Main.city_url Main.default_config;
     Main.total_pages := n;
     Main.headless := hl;
     Main.csv_filename := Main.csv_filename Main.default_config;
     Main.log_filename := Main.log_filename Main.default_config;
     Main.wait_timeout := Main.wait_timeout Main.default_config;
     Main.initial_sleep := Main.initial_sleep Main.default_config;
     Main.page_sleep := Main.page_sleep Main.default_config;
     Main.scroll_sleep := Main.scroll_sleep Main.default_config;
     Main.scroll_reset_sleep := Main.scroll_reset_sleep Main.default_config;
     Main.scroll_steps_range := Main.scroll_steps_range Main.default_config;
     Main.protect_poll_attempts := Main.protect_poll_attempts Main.default_config;
     Main.protect_poll_delay := Main.protect_poll_delay Main.default_config;
     Main.protect_manual_retry_attempts :=
       Main.protect_manual_retry_attempts Main.default_config;
     Main.protect_manual_retry_delay :=
       Main.protect_manual_retry_delay Main.default_config |}.


(* ===================================================================== *)
(** ** Notions used to state the properties *)
(* ===================================================================== *)

(** The longest prefix of characters of a class; [lstrip_by] is what is left. *)
Fixpoint take_while (p : N -> bool) (s : pystr) : pystr :=
  match s with
  | c :: s' => if p c then c :: take_while p s' else []
  | [] => []
  end.

Definition ends_with (c : N) (s : pystr) : bool :=
  match rev s with
  | d :: _ => (d =? c)%N
  | [] => false
  end.

(** The first and the last character of a string are outside a class. *)
Definition trimmed (p : N -> bool) (s : pystr) : Prop :=
  match s with
  | [] => True
  | c :: _ => p c = false /\ p (last s c) = false
  end.

(** The text of a category link once trimmed. *)
Definition category_text (link : Element) : pystr :=
  strip_by (in_chars CATEGORY_STRIP_CHARS) (text link).

(** The elements of a list at their first occurrence, in order. *)
Fixpoint first_occurrences (l : list pystr) : list pystr :=
  match l with
  | [] => []
  | x :: rest => x :: filter (fun y => negb (pystr_eqb y x)) (first_occurrences rest)
  end.

Section Numerals.

Context {U : Unicode}.

(** A numeric pattern: a run of digits, or two runs around a separator. *)
Inductive numeral : Type :=
  | Plain (a : pystr)
  | Point (a : pystr) (sep : N) (b : pystr).

(** The numeric pattern a text starts with: the longest run of digits and,
    when a separator and a digit follow it, the separator and the longest
    run after it. *)
Definition numeral_at (s : pystr) : option numeral :=
  match take_while is_digit s with
  | [] => None
  | a =>
      match lstrip_by is_digit s with
      | c :: rest =>
          if is_sep c then
            match take_while is_digit rest with
            | [] => Some (Plain a)
            | b => Some (Point a c b)
            end
          else Some (Plain a)
      | [] => Some (Plain a)
      end
  end.

(** The first numeric pattern of a text. *)
Fixpoint first_numeral (s : pystr) : option numeral :=
  match numeral_at s with
  | Some n => Some n
  | None =>
      match s with
      | [] => None
      | _ :: s' => first_numeral s'
      end
  end.

Definition numeral_text (n : numeral) : pystr :=
  match n with
  | Plain a => a
  | Point a c b => a ++ c :: b
  end.

(** The number a run of digits writes in base ten. *)
Definition digits_number (s : pystr) : N :=
  fold_left (fun acc c => acc * 10 + match decimal_value c with Some d => d | None => 0 end)%N
    s 0%N.

(** The decimal a numeral denotes, whichever the separator. *)
Definition numeral_value (n : numeral) : Q :=
  match n with
  | Plain a => decimal (digits_number a) 0
  | Point a _ b => decimal (digits_number (a ++ b)) (List.length b)
  end.

(** The float a numeral is read as: the binary64 number nearest to the
    decimal it denotes, the infinity beyond the range. *)
Definition numeral_float (n : numeral) : pyfloat :=
  float_of_Q (numeral_value n).

End Numerals.

Section NumeralShape.

Context {U : Unicode}.

(** The shape of the numerals [numeral_at] produces. *)
Definition numeral_wf (n : numeral) : Prop :=
  match n with
  | Plain a => a <> [] /\ forallb is_digit a = true
  | Point a c b =>
      a <> [] /\ forallb is_digit a = true /\ is_sep c = true /\
      b <> [] /\ forallb is_digit b = true
  end.

End NumeralShape.

(** A computation keeps a relation [R] between the state it starts from and
    the state it ends in, whether it returns or raises. *)
Definition keeps {St A} (R : St -> St -> Prop) (m : M St A) : Prop :=
  forall s, R s (snd (m s)).

(** A record that is worth keeping: its name is not empty. *)
Definition named (p : Place) : Prop := name p <> [].

(** The invariant of the accumulator, as a relation between two states of
    the scraper and between two states of the script. *)
Definition names_kept {W} (s s' : Main.Scraper W) : Prop :=
  Forall named (Main.places s) -> Forall named (Main.places s').

Definition names_kept_script {W} (s s' : Script.Locals W) : Prop :=
  Forall named (Script.l_places s) -> Forall named (Script.l_places s').

(** Partial correctness: from a state where [P] holds, if [m] returns [a]
    then [Q a] holds of the state it returns in. *)
Definition hoare {St A} (P : St -> Prop) (m : M St A) (Q : A -> St -> Prop) : Prop :=
  forall s, P s ->
    match m s with
    | (Ret a, s') => Q a s'
    | (Raise _, _) => True
    end.

(** The accumulator and the log only grow. *)
Definition grows {W} (s s' : Main.Scraper W) : Prop :=
  (exists added, Main.places s' = Main.places s ++ added) /\
  (exists lines, Main.logs s' = Main.logs s ++ lines) /\
  Main.config s' = Main.config s.

(** The cells of the row of a record. *)
Definition place_cells (p : Place) : list cell :=
  [ CellStr (name p);
    match rating p with Some x => CellFloat x | None => CellStr [] end;
    CellStr (join (u " | ") (categories p)) ].

(** The calls made inside a page once it is open: anything but opening the
    browser, loading a URL and releasing the browser. *)
Definition page_call (c : call) : Prop :=
  match c with
  | CChrome _ | CGet _ | CQuit => False
  | _ => True
  end.

(** From [e] to [e'] the trace grew by calls that satisfy [P]. *)
Definition emits {W} (P : call -> Prop) (e e' : Env W) : Prop :=
  exists cs, calls e' = calls e ++ cs /\ Forall P cs.

(** The log line that says a page was opened, and the lines about a page. *)
Definition is_opened (line : pystr) : bool :=
  starts_with (u "Открыта страница ") line.

Definition is_note (line : pystr) : bool :=
  starts_with (u "Стр. ") line.

(** What happens inside a page of [src/main.py] once it is open: page
    calls, lines about the page, and the driver and the configuration stay. *)
Definition inside_page {W} (s s' : Main.Scraper W) : Prop :=
  emits page_call (Main.env s) (Main.env s') /\
  (exists notes, Main.logs s' = Main.logs s ++ notes /\ forallb is_note notes = true) /\
  Main.config s' = Main.config s /\
  Main._driver s' = Main._driver s.

(** The same for the loop of [zoon_tomsk_restaurants.py]. *)
Definition inside_step {W} (s s' : Script.Locals W) : Prop :=
  emits page_call (Script.l_env s) (Script.l_env s') /\
  (exists notes, Script.l_logs s' = Script.l_logs s ++ notes /\
                 forallb is_note notes = true).

(** What a turn of the loop of [run] does for [page], seen from outside: the
    line of the opened page then lines about the page; the load of its URL
    then calls inside the page. *)
Definition page_turn {W} (page : Z) (s s' : Main.Scraper W) : Prop :=
  let url := Main.page_url (Main.config s) page in
  (exists notes,
     Main.logs s' = Main.logs s ++ Main.opened_line page url :: notes /\
     forallb is_note notes = true) /\
  (exists cs,
     calls (Main.env s') = calls (Main.env s) ++ CGet url :: cs /\
     Forall page_call cs) /\
  Main.config s' = Main.config s /\
  Main._driver s' = Main._driver s.

(** What the loop does over the pages it visited. *)
Definition pages_turned {W} (visited : list Z) (s s' : Main.Scraper W) : Prop :=
  let url := Main.page_url (Main.config s) in
  (exists lines,
     Main.logs s' = Main.logs s ++ lines /\
     filter is_opened lines = map (fun p => Main.opened_line p (url p)) visited) /\
  (exists cs,
     calls (Main.env s') = calls (Main.env s) ++ cs /\
     gets cs = map url visited /\ quits cs = 0%nat /\
     Forall (fun c => match c with CChrome _ => False | _ => True end) cs) /\
  Main.config s' = Main.config s /\
  Main._driver s' = Main._driver s.

(** The line [scrape_all_pages] logs when it opens a page. *)
Definition script_opened_line (g : Script.Settings) (page : Z) : pystr :=
  u "Открыта страница " ++ str_of_int page ++ u ": " ++ Script.page_url g page.

(** A turn of the loop of [scrape_all_pages], and the turns of a run. *)
Definition step_turn {W} (g : Script.Settings) (page : Z) (s s' : Script.Locals W) : Prop :=
  (exists notes,
     Script.l_logs s' = Script.l_logs s ++ script_opened_line g page :: notes /\
     forallb is_note notes = true) /\
  (exists cs,
     calls (Script.l_env s') = calls (Script.l_env s) ++ CGet (Script.page_url g page) :: cs /\
     Forall page_call cs).

Definition steps_turned {W} (g : Script.Settings) (visited : list Z)
    (s s' : Script.Locals W) : Prop :=
  (exists lines,
     Script.l_logs s' = Script.l_logs s ++ lines /\
     filter is_opened lines = map (script_opened_line g) visited) /\
  (exists cs,
     calls (Script.l_env s') = calls (Script.l_env s) ++ cs /\
     gets cs = map (Script.page_url g) visited /\ quits cs = 0%nat).

(** The [finally] block of [scrape_all_pages]: the release of the browser. *)
Definition script_release {W} {B : Browser W} : M (Script.Locals W) unit :=
  try_except (Script.outside (do_call CQuit quit)) is_Exception (ret tt).

(** *** The scripts on the browser in memory *)

(** The page the browser in memory is at. *)
Definition here (w : Sim) : SimPage := site w (current w).

(** The detector on a source: [any(token in html.lower() ...)]. *)
Definition challenged {U : Unicode} (html : pystr) : bool :=
  existsb (fun token => contains token (lower html)) Main.PROTECT_TOKENS.

(** The cards of a page: those of the first selector that finds some. *)
Fixpoint sim_collect (page : SimPage) (selectors : list pystr) : list Card :=
  match selectors with
  | [] => []
  | selector :: rest =>
      match sp_cards page selector with
      | [] => sim_collect page rest
      | items => items
      end
  end.

(** In the world [w], [m] returns [v] and leaves the world and the files as
    they are; or raises [ex] and leaves them as they are. *)
Definition yields {A} (w : Sim) (m : M (Env Sim) A) (v : A) : Prop :=
  forall e, world e = w ->
    exists e', m e = (Ret v, e') /\ world e' = w /\ files e' = files e.

Definition fails {A} (w : Sim) (m : M (Env Sim) A) (ex : exn) : Prop :=
  forall e, world e = w ->
    exists e', m e = (Raise ex, e') /\ world e' = w /\ files e' = files e.

(** Two states of the scraper that differ by the trace of calls only. *)
Definition same_inside (s s' : Main.Scraper Sim) : Prop :=
  Main.config s' = Main.config s /\ Main.places s' = Main.places s /\
  Main.logs s' = Main.logs s /\ Main._driver s' = Main._driver s /\
  world (Main.env s') = world (Main.env s) /\
  files (Main.env s') = files (Main.env s).

(** The records kept from the cards of a page. *)
Definition kept (parsed : list Place) : list Place :=
  filter (fun p => truthy (name p)) parsed.

(** The records of the two cards of the scenario worlds. *)
Definition place_a : Place :=
  {| name := u "Кафе Сибирь"; rating := Some (Finite (9 # 2));
     categories := [u "A"; u "B"; u "C"] |}.

Definition place_b : Place :=
  {| name := u "Bar"; rating := None; categories := [] |}.

(** The entries of a persisted log: the separators plus one. *)
Definition entries_of (content : pystr) : nat :=
  match content with
  | [] => 0
  | _ => S (List.length (filter (N.eqb 10) content))
  end.


Definition blocked_line (page : Z) : pystr :=
  u "Стр. " ++ str_of_int page ++ u ": проверка не пройдена — стоп".
Definition blocked_manual_line (page : Z) : pystr :=
  u "Стр. " ++ str_of_int page
    ++ u ": проверка не пройдена после ручного подтверждения — стоп".

(** A title selector that gives no name: nothing found, or a text that is
    empty once stripped. *)
Definition skipped (card : Card) (selector : pystr) : Prop :=
  find_element card selector = Raise NoSuchElementException \/
  exists e, find_element card selector = Ret e /\ strip (text e) = [].

(** The files are as they were. *)
Definition same_files {W} (e e' : Env W) : Prop := files e' = files e.

(** The records and the files are as they were. *)
Definition nothing_saved {W} (s s' : Main.Scraper W) : Prop :=
  Main.places s' = Main.places s /\ files (Main.env s') = files (Main.env s).

(** The last line of the log is one of the given reasons. *)
Definition ends_with_reason {W} (reasons : list pystr) (s' : Main.Scraper W) : Prop :=
  exists before reason, Main.logs s' = before ++ [reason] /\ In reason reasons.

(** The line of a missing container. *)
Definition no_container_line (page : Z) : pystr :=
  u "Стр. " ++ str_of_int page ++ u ": контейнер не найден — стоп".

(** [int(text)] on a decimal numeral with its sign: what reads a page number
    back from [f"{page:02d}"]. *)
Definition read_int (s : pystr) : option Z :=
  option_map Z.of_int
    (NilZero.int_of_string (string_of_list_ascii (map ascii_of_N s))).

(** The file [path] is as it was. *)
Definition file_kept {W} (path : pystr) (s s' : Main.Scraper W) : Prop :=
  read_file (files (Main.env s')) path = read_file (files (Main.env s)) path.

(** The calls of [_handle_protect_screen]: the detector, the pauses, the
    reload, the prompt. *)
Definition is_check (c : call) : bool :=
  match c with CPageSource => true | _ => false end.
Definition is_refresh (c : call) : bool :=
  match c with CRefresh => true | _ => false end.
Definition is_prompt (c : call) : bool :=
  match c with CInput => true | _ => false end.
Definition is_pause (c : call) : bool :=
  match c with CSleep _ _ => true | _ => false end.

Definition protect_call (c : call) : bool :=
  is_check c || is_refresh c || is_prompt c || is_pause c.

(** How many of the calls satisfy [f]. *)
Definition tally (f : call -> bool) (cs : list call) : nat :=
  List.length (filter f cs).

(** The records are as they were. *)
Definition same_places {W} (s s' : Main.Scraper W) : Prop :=
  Main.places s' = Main.places s.


(* ===================================================================== *)
(** ** Strings *)
(* ===================================================================== *)

Example u_dash : u " ·—-" = [32; 183; 8212; 45]%N.
Proof. reflexivity. Qed.

Example str_of_int_ex : str_of_int 0 = u "0" /\ str_of_int 34 = u "34" /\ str_of_int (-5) = u "-5".
Proof. repeat split; reflexivity. Qed.

Example format_02d_ex : format_02d 7 = u "07" /\ format_02d 12 = u "12" /\ format_02d 100 = u "100".
Proof. repeat split; reflexivity. Qed.

Lemma pystr_eqb_eq (a b : pystr) : pystr_eqb a b = true <-> a = b.
Proof.
  revert b. induction a as [|x a IH]; intros [|y b]; simpl; try easy.
  rewrite andb_true_iff, N.eqb_eq, IH. split.
  - now intros [-> ->].
  - now intros [= -> ->].
Qed.

Lemma pystr_eqb_refl (a : pystr) : pystr_eqb a a = true.
Proof. now apply pystr_eqb_eq. Qed.

Lemma pystr_eqb_neq (a b : pystr) : pystr_eqb a b = false <-> a <> b.
Proof.
  rewrite <- pystr_eqb_eq. now destruct (pystr_eqb a b).
Qed.

Lemma pystr_eqb_sym (a b : pystr) : pystr_eqb a b = pystr_eqb b a.
Proof.
  destruct (pystr_eqb b a) eqn:E.
  - apply pystr_eqb_eq in E. subst. apply pystr_eqb_refl.
  - apply pystr_eqb_neq in E. apply pystr_eqb_neq. congruence.
Qed.

(** What [lstrip_by] removes is a run of characters of the class, and what
    it leaves does not start with one. *)
Lemma take_while_lstrip (p : N -> bool) (s : pystr) :
  s = take_while p s ++ lstrip_by p s.
Proof.
  induction s as [|c s IH]; simpl; [reflexivity|].
  destruct (p c); simpl; [now f_equal | reflexivity].
Qed.

Lemma take_while_all (p : N -> bool) (s : pystr) :
  forallb p (take_while p s) = true.
Proof.
  induction s as [|c s IH]; simpl; [reflexivity|].
  destruct (p c) eqn:E; simpl; [now rewrite E | reflexivity].
Qed.

Lemma lstrip_head (p : N -> bool) (s : pystr) :
  match lstrip_by p s with
  | c :: _ => p c = false
  | [] => True
  end.
Proof.
  induction s as [|c s IH]; simpl; [exact I|].
  destruct (p c) eqn:E; [exact IH | exact E].
Qed.

Lemma take_while_nil (p : N -> bool) (s : pystr) :
  take_while p s = [] -> lstrip_by p s = s.
Proof.
  destruct s as [|c s]; simpl; [reflexivity|].
  destruct (p c); [discriminate | reflexivity].
Qed.

Lemma forallb_rev {A} (p : A -> bool) (l : list A) :
  forallb p (rev l) = forallb p l.
Proof.
  induction l as [|x l IH]; simpl; [reflexivity|].
  rewrite forallb_app, IH. simpl. rewrite andb_true_r. apply andb_comm.
Qed.

Lemma rstrip_by_split (p : N -> bool) (s : pystr) :
  exists tail,
    s = rstrip_by p s ++ tail /\ forallb p tail = true /\
    match rev (rstrip_by p s) with
    | c :: _ => p c = false
    | [] => True
    end.
Proof.
  unfold rstrip_by. exists (rev (take_while p (rev s))). repeat split.
  - rewrite <- rev_app_distr, <- take_while_lstrip. now rewrite rev_involutive.
  - rewrite forallb_rev. apply take_while_all.
  - rewrite rev_involutive. apply lstrip_head.
Qed.

Lemma forallb_slash (tail : pystr) :
  forallb (in_chars (u "/")) tail = true -> tail = repeat 47%N (List.length tail).
Proof.
  induction tail as [|c t IH]; simpl; [reflexivity|].
  intros H. apply andb_true_iff in H as [Hc Ht].
  unfold in_chars in Hc. simpl in Hc. rewrite orb_false_r in Hc.
  apply N.eqb_eq in Hc. subst c. f_equal. now apply IH.
Qed.

(** C4. For a page number k >= 1, both page-URL functions return the bare
    base URL when k = 1; when k > 1 they return the base URL without its
    trailing slashes, followed by "/page-", the decimal k and "/".  The stem is
    the base URL up to its trailing run of slashes and does not end with a
    slash. *)
Theorem page_url_spec (cfg : Main.ParserConfig) (g : Script.Settings) (k : Z) :
  1 <= k ->
  (k = 1 ->
     Main.page_url cfg k = Main.city_url cfg /\
     Script.page_url g k = Script.CITY_URL g) /\
  (1 < k ->
     exists stem stem' n n',
       Main.city_url cfg = stem ++ repeat 47%N n /\ ends_with 47 stem = false /\
       Script.CITY_URL g = stem' ++ repeat 47%N n' /\ ends_with 47 stem' = false /\
       Main.page_url cfg k = stem ++ u "/page-" ++ str_of_int k ++ u "/" /\
       Script.page_url g k = stem' ++ u "/page-" ++ str_of_int k ++ u "/").
Proof.
  intros Hk. split.
  - intros ->. split; reflexivity.
  - intros Hlt.
    destruct (rstrip_by_split (in_chars (u "/")) (Main.city_url cfg))
      as (t & Es & Ft & Hs).
    destruct (rstrip_by_split (in_chars (u "/")) (Script.CITY_URL g))
      as (t' & Es' & Ft' & Hs').
    exists (rstrip_by (in_chars (u "/")) (Main.city_url cfg)),
           (rstrip_by (in_chars (u "/")) (Script.CITY_URL g)),
           (List.length t), (List.length t').
    assert (Hend : forall s,
               match rev s with c :: _ => in_chars (u "/") c = false | [] => True end ->
               ends_with 47 s = false).
    { intros s H. unfold ends_with. destruct (rev s) as [|c r]; [reflexivity|].
      unfold in_chars in H. simpl in H. now rewrite orb_false_r in H. }
    repeat split.
    + rewrite <- (forallb_slash t Ft). exact Es.
    + now apply Hend.
    + rewrite <- (forallb_slash t' Ft'). exact Es'.
    + now apply Hend.
    + unfold Main.page_url. destruct (Z.eqb_spec k 1); [lia | reflexivity].
    + unfold Script.page_url. destruct (Z.eqb_spec k 1); [lia | reflexivity].
Qed.

Lemma page_url_spec_witness :
  1 <= 2 /\
  Main.page_url Main.default_config 2 = u "https://zoon.ru/tomsk/restaurants/page-2/" /\
  Script.page_url Script.settings 2 = u "https://zoon.ru/tomsk/restaurants/page-2/".
Proof.
  split; [lia|].
  pose proof (page_url_spec Main.default_config Script.settings 2 ltac:(lia)) as [_ H].
  split; reflexivity.
Defined.

(* ===================================================================== *)
(** ** The rating *)
(* ===================================================================== *)

Lemma firstn_prefix {A} (m r s : list A) :
  s = m ++ r -> firstn (List.length s - List.length r)%nat s = m.
Proof.
  intros ->. rewrite length_app.
  replace (List.length m + List.length r - List.length r)%nat with (List.length m) by lia.
  rewrite firstn_app, firstn_all, Nat.sub_diag. simpl. apply app_nil_r.
Qed.

Lemma take_while_cons_inv (p : N -> bool) (s : pystr) (c : N) (a : pystr) :
  take_while p s = c :: a -> exists s', s = c :: s' /\ p c = true.
Proof.
  destruct s as [|d s]; simpl; [discriminate|].
  destruct (p d) eqn:E; [|discriminate].
  intros H. injection H as -> _. now exists s.
Qed.

(** The greedy [+] gives way only when the continuation fails.  When the
    continuation cannot start with a character of the class, only the
    longest run is ever kept. *)
Lemma plus_cls_greedy {R} (p : N -> bool) (k : pystr -> option R) :
  (forall c s', p c = true -> k (c :: s') = None) ->
  forall s,
    plus_cls p s k =
    match take_while p s with
    | [] => None
    | _ => k (lstrip_by p s)
    end.
Proof.
  intros Hk. induction s as [|c s IH]; simpl; [reflexivity|].
  destruct (p c) eqn:Ec; [|reflexivity].
  rewrite IH. destruct (take_while p s) as [|d a] eqn:Et.
  - now rewrite (take_while_nil p s Et).
  - destruct (take_while_cons_inv p s d a Et) as (s' & -> & Hd).
    rewrite (Hk d s' Hd). now destruct (k (lstrip_by p (d :: s'))).
Qed.

(** With a continuation that accepts anything, the longest run is kept. *)
Lemma plus_cls_total (p : N -> bool) (s : pystr) :
  plus_cls p s (fun rest => Some rest) =
  match take_while p s with
  | [] => None
  | _ => Some (lstrip_by p s)
  end.
Proof.
  induction s as [|c s IH]; simpl; [reflexivity|].
  destruct (p c) eqn:Ec; [|reflexivity].
  rewrite IH. destruct (take_while p s) as [|d a] eqn:Et; [|reflexivity].
  now rewrite (take_while_nil p s Et).
Qed.

Lemma re_search_eq (r : regex) (s : pystr) :
  re_search r s =
  match re_match r s with
  | Some m => Some m
  | None => match s with [] => None | _ :: s' => re_search r s' end
  end.
Proof. destruct s; reflexivity. Qed.

Lemma first_numeral_eq {U : Unicode} (s : pystr) :
  first_numeral s =
  match numeral_at s with
  | Some n => Some n
  | None => match s with [] => None | _ :: s' => first_numeral s' end
  end.
Proof. destruct s; reflexivity. Qed.

Section Rating.

Context {U : Unicode} (HU : ascii_digits U).

Lemma is_digit_ascii (c : N) :
  (c < 128)%N -> is_digit c = ((48 <=? c) && (c <=? 57))%N.
Proof.
  intros Hc. unfold is_digit. rewrite (HU c Hc).
  now destruct ((48 <=? c) && (c <=? 57))%N.
Qed.

Lemma is_sep_eq (c : N) : is_sep c = ((c =? 46) || (c =? 44))%N.
Proof.
  unfold is_sep, in_chars. change (u ".,") with [46%N; 44%N]. simpl.
  now rewrite orb_false_r.
Qed.

Lemma digit_not_sep (c : N) : is_digit c = true -> is_sep c = false.
Proof.
  intros Hd. rewrite is_sep_eq.
  destruct (N.eqb_spec c 46) as [->|]; [now rewrite is_digit_ascii in Hd|].
  destruct (N.eqb_spec c 44) as [->|]; [now rewrite is_digit_ascii in Hd|].
  reflexivity.
Qed.

(** The pattern at the start of a text is the numeral it starts with. *)
Lemma re_match_rating (s : pystr) :
  re_match RATING_RE s = option_map numeral_text (numeral_at s).
Proof.
  unfold re_match, RATING_RE, numeral_at. cbn [rmatch].
  rewrite plus_cls_greedy, plus_cls_total.
  2:{ intros c s' Hc. simpl. now rewrite (digit_not_sep c Hc). }
  pose proof (take_while_lstrip is_digit s) as Hs.
  destruct (take_while is_digit s) as [|d a] eqn:Ea; [reflexivity|].
  assert (Hplain : firstn (List.length s - List.length (lstrip_by is_digit s))%nat s
                   = d :: a) by now apply firstn_prefix.
  destruct (lstrip_by is_digit s) as [|c rest] eqn:Er.
  - rewrite Hplain. reflexivity.
  - destruct (is_sep c) eqn:Ec.
    + rewrite plus_cls_total.
      pose proof (take_while_lstrip is_digit rest) as Hrest.
      destruct (take_while is_digit rest) as [|d' b] eqn:Eb.
      * rewrite Hplain. reflexivity.
      * cbn [option_map numeral_text]. f_equal. apply firstn_prefix.
        rewrite Hs. rewrite Hrest at 1. simpl. rewrite <- !app_assoc. reflexivity.
    + rewrite Hplain. reflexivity.
Qed.

Lemma re_search_rating (t : pystr) :
  re_search RATING_RE t = option_map numeral_text (first_numeral t).
Proof.
  induction t as [|c t IH]; rewrite re_search_eq, first_numeral_eq, re_match_rating.
  - now destruct (numeral_at []).
  - destruct (numeral_at (c :: t)); [reflexivity | exact IH].
Qed.

Lemma numeral_at_wf (s : pystr) (n : numeral) :
  numeral_at s = Some n -> numeral_wf n.
Proof.
  unfold numeral_at. pose proof (take_while_all is_digit s) as Ha.
  destruct (take_while is_digit s) as [|d a]; [discriminate|].
  assert (Hne : d :: a <> []) by discriminate.
  destruct (lstrip_by is_digit s) as [|c rest].
  - intros [= <-]. now split.
  - destruct (is_sep c) eqn:Ec.
    + pose proof (take_while_all is_digit rest) as Hb.
      destruct (take_while is_digit rest) as [|d' b].
      * intros [= <-]. now split.
      * intros [= <-]. repeat split; try assumption; discriminate.
    + intros [= <-]. now split.
Qed.

Lemma first_numeral_wf (t : pystr) (n : numeral) :
  first_numeral t = Some n -> numeral_wf n.
Proof.
  induction t as [|c t IH]; rewrite first_numeral_eq.
  - destruct (numeral_at []) eqn:E; [|discriminate].
    intros [= <-]. now apply numeral_at_wf in E.
  - destruct (numeral_at (c :: t)) eqn:E; [|exact IH].
    intros [= <-]. now apply numeral_at_wf in E.
Qed.

Lemma replace_digits (a : pystr) :
  forallb is_digit a = true -> replace_char 44 46 a = a.
Proof.
  induction a as [|c a IH]; simpl; [reflexivity|].
  intros H. apply andb_true_iff in H as [Hc Ha]. rewrite (IH Ha). f_equal.
  destruct (N.eqb_spec c 44) as [->|]; [|reflexivity].
  now rewrite is_digit_ascii in Hc.
Qed.

Lemma split_digits (a : pystr) (rest : option pystr) (tl : pystr) :
  forallb is_digit a = true ->
  split_at_dot tl = ([], rest) ->
  split_at_dot (a ++ tl) = (a, rest).
Proof.
  intros Ha Htl. induction a as [|c a IH]; simpl; [exact Htl|].
  simpl in Ha. apply andb_true_iff in Ha as [Hc Ha].
  destruct (N.eqb_spec c 46) as [->|]; [now rewrite is_digit_ascii in Hc|].
  now rewrite (IH Ha).
Qed.

Lemma digits_value_number (s : pystr) (acc : N) :
  forallb is_digit s = true ->
  digits_value acc s =
  Some (fold_left
          (fun acc c => acc * 10 + match decimal_value c with Some d => d | None => 0 end)%N
          s acc).
Proof.
  revert acc. induction s as [|c s IH]; intros acc; simpl; [reflexivity|].
  intros H. apply andb_true_iff in H as [Hc Hs]. unfold is_digit in Hc.
  destruct (decimal_value c); [now apply IH | discriminate].
Qed.

Lemma py_float_numeral (n : numeral) :
  numeral_wf n ->
  py_float (replace_char 44 46 (numeral_text n)) = Ret (numeral_float n).
Proof.
  destruct n as [a | a c b]; simpl.
  - intros [Hne Ha]. rewrite (replace_digits a Ha). unfold py_float.
    pose proof (split_digits a None [] Ha eq_refl) as Hsplit.
    rewrite app_nil_r in Hsplit. rewrite Hsplit.
    destruct a as [|x a']; [easy|].
    now rewrite (digits_value_number (x :: a') 0 Ha).
  - intros (Hne & Ha & Hc & Hne' & Hb).
    unfold replace_char. rewrite map_app. simpl map.
    fold (replace_char 44 46 a). fold (replace_char 44 46 b).
    rewrite (replace_digits a Ha), (replace_digits b Hb).
    replace (if (c =? 44)%N then 46%N else c) with 46%N.
    2:{ rewrite is_sep_eq in Hc. destruct (N.eqb_spec c 44); [reflexivity|].
        rewrite orb_false_r in Hc. now apply N.eqb_eq in Hc. }
    unfold py_float.
    rewrite (split_digits a (Some b) (46%N :: b)) by easy.
    assert (Hab : forallb is_digit (a ++ b) = true)
      by (rewrite forallb_app; now rewrite Ha, Hb).
    destruct a as [|x a']; [easy|]. destruct b as [|y b']; [easy|].
    now rewrite (digits_value_number ((x :: a') ++ y :: b') 0 Hab).
Qed.

(** Whatever the text, the conversion of the match cannot fail: the rating is
    the float of the first numeral, or absent. *)
Lemma rating_of_text_spec (t : pystr) :
  rating_of_text t = Ret (option_map numeral_float (first_numeral t)).
Proof.
  unfold rating_of_text. rewrite re_search_rating.
  destruct (first_numeral t) as [n|] eqn:E; simpl; [|reflexivity].
  now rewrite (py_float_numeral n (first_numeral_wf t n E)).
Qed.

Lemma first_numeral_skip (c : N) (s : pystr) :
  is_digit c = false -> first_numeral (c :: s) = first_numeral s.
Proof.
  intros Hc. rewrite first_numeral_eq. unfold numeral_at. simpl. now rewrite Hc.
Qed.

Lemma not_digit_ascii (c : N) :
  (c < 128)%N -> ((48 <=? c) && (c <=? 57))%N = false -> is_digit c = false.
Proof. intros Hc H. now rewrite is_digit_ascii. Qed.

Lemma first_numeral_4_5 :
  first_numeral (u "Rating: 4,5 stars") = Some (Point [52%N] 44%N [53%N]).
Proof.
  change (u "Rating: 4,5 stars") with
    [82; 97; 116; 105; 110; 103; 58; 32; 52; 44; 53; 32; 115; 116; 97; 114; 115]%N.
  rewrite !first_numeral_skip by (apply not_digit_ascii; reflexivity).
  rewrite first_numeral_eq. unfold numeral_at.
  repeat (progress (cbn [take_while lstrip_by];
                    rewrite ?is_digit_ascii, ?is_sep_eq by reflexivity; simpl)).
  reflexivity.
Qed.

Lemma first_numeral_9 : first_numeral (u "9") = Some (Plain [57%N]).
Proof.
  change (u "9") with [57%N].
  rewrite first_numeral_eq. unfold numeral_at.
  repeat (progress (cbn [take_while lstrip_by];
                    rewrite ?is_digit_ascii, ?is_sep_eq by reflexivity; simpl)).
  reflexivity.
Qed.

Lemma first_numeral_no_score : first_numeral (u "no score") = None.
Proof.
  change (u "no score") with [110; 111; 32; 115; 99; 111; 114; 101]%N.
  rewrite !first_numeral_skip by (apply not_digit_ascii; reflexivity).
  reflexivity.
Qed.

Lemma value_4_5 : numeral_value (Point [52%N] 44%N [53%N]) = 9 # 2.
Proof.
  unfold numeral_value, digits_number. simpl fold_left.
  rewrite !HU by reflexivity. reflexivity.
Qed.

Lemma value_9 : numeral_value (Plain [57%N]) = 9 # 1.
Proof.
  unfold numeral_value, digits_number. simpl fold_left.
  rewrite !HU by reflexivity. reflexivity.
Qed.

End Rating.

Section RatingCards.

Context {U : Unicode} (HU : ascii_digits U).

Lemma extract_rating_found (card : Card) (e : Element) :
  find_element card RATING_SELECTOR = Ret e ->
  _extract_rating card
    = Ret (option_map numeral_float (first_numeral (strip (text e)))).
Proof.
  intros H. unfold _extract_rating. rewrite H. apply (rating_of_text_spec HU).
Qed.

(** The conversion raises nothing but [ValueError]. *)
Lemma py_float_raises (s : pystr) (ex : exn) :
  py_float s = Raise ex -> ex = ValueError.
Proof.
  unfold py_float. destruct (split_at_dot s) as [a [b|]].
  - destruct a; [now intros [= <-]|].
    destruct b; [now intros [= <-]|].
    destruct (digits_value 0 _); [discriminate | now intros [= <-]].
  - destruct a; [now intros [= <-]|].
    destruct (digits_value 0 _); [discriminate | now intros [= <-]].
Qed.

Lemma rating_of_text_raises (t : pystr) (ex : exn) :
  rating_of_text t = Raise ex -> ex = ValueError.
Proof.
  unfold rating_of_text. destruct (re_search RATING_RE t) as [m|]; [|discriminate].
  destruct (py_float (replace_char 44 46 m)) as [x|ex'] eqn:E; simpl; [discriminate|].
  intros [= <-]. now apply py_float_raises in E.
Qed.

Lemma parse_card_rating_same (card : Card) :
  parse_card_rating card = _extract_rating card.
Proof.
  unfold parse_card_rating, _extract_rating, RATING_SELECTOR.
  destruct (find_element card (u ".minicard-item__rating, .rating, .stars"))
    as [e|ex]; cbn [obind otry].
  - destruct (rating_of_text (strip (text e))) as [r|ex] eqn:E; [reflexivity|].
    apply rating_of_text_raises in E. subst ex. reflexivity.
  - destruct ex; reflexivity.
Qed.

Lemma extract_rating_missing (card : Card) :
  find_element card RATING_SELECTOR = Raise NoSuchElementException ->
  _extract_rating card = Ret None /\ parse_card_rating card = Ret None.
Proof.
  intros H. rewrite parse_card_rating_same. unfold _extract_rating.
  rewrite H. split; reflexivity.
Qed.

Lemma rating_4_5 :
  rating_of_text (u "Rating: 4,5 stars") = Ret (Some (Finite (9 # 2))).
Proof.
  rewrite (rating_of_text_spec HU), (first_numeral_4_5 HU). cbn [option_map].
  unfold numeral_float. now rewrite (value_4_5 HU).
Qed.

Lemma rating_9 : rating_of_text (u "9") = Ret (Some (Finite (9 # 1))).
Proof.
  rewrite (rating_of_text_spec HU), (first_numeral_9 HU). cbn [option_map].
  unfold numeral_float. now rewrite (value_9 HU).
Qed.

Lemma rating_no_score : rating_of_text (u "no score") = Ret None.
Proof.
  rewrite (rating_of_text_spec HU), (first_numeral_no_score HU). reflexivity.
Qed.

End RatingCards.

Lemma small_unicode_ascii : ascii_digits SmallUnicode.
Proof.
  intros c Hc. cbn [decimal_value SmallUnicode]. unfold small_decimal_value.
  destruct ((48 <=? c) && (c <=? 57))%N; [reflexivity|].
  destruct (N.leb_spec 1632 c); [lia | reflexivity].
Qed.

Section Floats.

Lemma round_whole (n : Z) : round_half_even n 1 = n.
Proof.
  unfold round_half_even. rewrite Z.mod_1_r, Z.div_1_r. reflexivity.
Qed.

Lemma Qred_whole (n : Z) : Qred (inject_Z n) = inject_Z n.
Proof.
  unfold Qred, inject_Z. cbn [Qnum Qden].
  pose proof (Z.ggcd_gcd n 1) as Hg.
  pose proof (Z.ggcd_correct_divisors n 1) as Hd.
  destruct (Z.ggcd n 1) as [g [a b]]. cbn [fst snd] in *.
  rewrite Z.gcd_1_r in Hg. subst g. destruct Hd as [Ha Hb].
  rewrite Z.mul_1_l in Ha, Hb. now subst.
Qed.

Lemma Qred_scaled (n k : Z) :
  0 < k -> Qred (n * k # Z.to_pos k) = inject_Z n.
Proof.
  intros Hk.
  assert (E : (n * k # Z.to_pos k == inject_Z n)%Q).
  { unfold Qeq, inject_Z. cbn [Qnum Qden]. rewrite Z2Pos.id by exact Hk. lia. }
  rewrite (Qred_complete _ _ E). apply Qred_whole.
Qed.

(** A whole number below [2^53] is a binary64 number: it is read as it is. *)
Lemma float_of_whole (n : Z) :
  0 <= n < 2 ^ 53 -> float_of_Q (inject_Z n) = Finite (inject_Z n).
Proof.
  intros [H0 H1]. unfold float_of_Q, inject_Z. cbn [Qnum Qden].
  unfold nearest_binary64.
  destruct (Z.eqb_spec n 0) as [->|Hn]; [reflexivity|].
  assert (Hpos : 0 < n) by lia.
  change (Z.log2 1) with 0. rewrite Z.sub_0_r.
  pose proof (Z.log2_nonneg n) as Hl0.
  pose proof (proj1 (Z.log2_lt_pow2 n 53 Hpos) H1) as Hl1.
  pose proof (proj1 (Z.log2_spec n Hpos)) as Hlow.
  destruct (Z.leb_spec 0 (Z.log2 n)) as [_|]; [|lia].
  rewrite Z.mul_1_l.
  destruct (Z.leb_spec (2 ^ Z.log2 n) n) as [_|]; [|lia].
  rewrite Z.max_l by lia.
  destruct (Z.leb_spec 0 (Z.log2 n - 52)) as [He|He].
  - assert (E : Z.log2 n - 52 = 0) by lia. rewrite E.
    change (2 ^ 0) with 1. rewrite Z.mul_1_l, round_whole, Z.mul_1_r.
    destruct (Z.leb_spec (2 ^ 1024) n) as [Hbig|]; [|reflexivity].
    assert (2 ^ 53 < 2 ^ 1024) by (apply Z.pow_lt_mono_r; lia). lia.
  - rewrite round_whole.
    rewrite Qred_scaled; [reflexivity|].
    apply Z.pow_pos_nonneg; lia.
Qed.

Lemma decimal_whole (n : N) : decimal n 0 = inject_Z (Z.of_N n).
Proof.
  unfold decimal. cbn [Z.of_nat Z.pow].
  assert (E : (inject_Z (Z.of_N n) / inject_Z 1 == inject_Z (Z.of_N n))%Q).
  { unfold Qdiv, Qinv, Qmult, Qeq, inject_Z. cbn. lia. }
  rewrite (Qred_complete _ _ E). apply Qred_whole.
Qed.

Lemma round_half_even_le (num den : Z) :
  round_half_even num den <= num / den + 1.
Proof.
  unfold round_half_even.
  destruct (2 * (num mod den) ?= den); [destruct (Z.even _)| |]; lia.
Qed.

(** A quotient below [2^53] is within the range of the floats. *)
Lemma nearest_finite (n d : Z) :
  0 < d -> 0 <= n < d * 2 ^ 53 -> exists q, nearest_binary64 n d = Finite q.
Proof.
  intros Hd [H0 H1]. unfold nearest_binary64.
  destruct (Z.eqb_spec n 0) as [->|Hn]; [now exists 0%Q|].
  assert (Hpos : 0 < n) by lia.
  set (l := Z.log2 n - Z.log2 d).
  assert (Hl : l <= 53).
  { pose proof (proj2 (Z.log2_spec d Hd)) as Hdu.
    assert (Hlt : n < 2 ^ (Z.succ (Z.log2 d) + 53)).
    { rewrite Z.pow_add_r by (pose proof (Z.log2_nonneg d); lia). nia. }
    apply Z.log2_lt_pow2 in Hlt; [|exact Hpos]. unfold l. lia. }
  set (fl := if (if 0 <=? l then d * 2 ^ l <=? n else d <=? n * 2 ^ (- l))
             then l else l - 1).
  assert (Hfl : fl <= 53) by (unfold fl; destruct (if 0 <=? l then _ else _); lia).
  set (e := Z.max (fl - 52) (-1074)).
  assert (He : e <= 1) by (unfold e; lia).
  destruct (Z.leb_spec 0 e) as [He0|He0]; [|eexists; reflexivity].
  set (m := round_half_even n (d * 2 ^ e)).
  destruct (Z.leb_spec (2 ^ 1024) (m * 2 ^ e)) as [Hbig|]; [|eexists; reflexivity].
  exfalso.
  assert (Hp : 1 <= 2 ^ e <= 2).
  { assert (e = 0 \/ e = 1) as [-> | ->] by lia; cbn; lia. }
  assert (Hm : m <= 2 ^ 53).
  { unfold m. pose proof (round_half_even_le n (d * 2 ^ e)) as Hr.
    assert (n / (d * 2 ^ e) < 2 ^ 53); [|lia].
    apply Z.div_lt_upper_bound; nia. }
  assert (m * 2 ^ e <= 2 ^ 54).
  { change (2 ^ 54) with (2 ^ 53 * 2). 
    assert (0 <= m).
    { unfold m, round_half_even.
      assert (0 <= n / (d * 2 ^ e)) by (apply Z.div_pos; nia).
      destruct (2 * (n mod (d * 2 ^ e)) ?= d * 2 ^ e); [destruct (Z.even _)| |]; lia. }
    nia. }
  assert (2 ^ 54 < 2 ^ 1024) by (apply Z.pow_lt_mono_r; lia).
  lia.
Qed.

(** The offset of a step of the scroll is computed without a fault as long
    as the height is below [2^53]. *)
Lemma scroll_offset_returns (height idx steps : Z) :
  0 <= idx < steps -> Z.abs height < 2 ^ 53 ->
  exists y, scroll_offset height idx steps = Ret y.
Proof.
  intros Hi Hh. unfold scroll_offset, true_divide.
  destruct (Z.eqb_spec (steps + 1) 0); [lia|].
  destruct (nearest_finite (Z.abs (height * (idx + 1))) (Z.abs (steps + 1))) as [q Hq].
  - lia.
  - rewrite Z.abs_mul. rewrite (Z.abs_eq (idx + 1)), (Z.abs_eq (steps + 1)) by lia.
    split; [pose proof (Z.abs_nonneg height); nia|].
    assert (0 < 2 ^ 53) by (apply Z.pow_pos_nonneg; lia).
    pose proof (Z.abs_nonneg height). nia.
  - rewrite Hq. cbn [obind]. eexists. reflexivity.
Qed.

End Floats.

Section WholeRatings.

Context {U : Unicode}.

(** A numeral of digits alone that writes a number below [2^53] is read as
    that number. *)
Lemma numeral_float_whole (a : pystr) :
  Z.of_N (digits_number a) < 2 ^ 53 ->
  numeral_float (Plain a) = Finite (inject_Z (Z.of_N (digits_number a))).
Proof.
  intros H. unfold numeral_float, numeral_value. rewrite decimal_whole.
  apply float_of_whole. lia.
Qed.

End WholeRatings.

(** C5, as it holds.  Given the Unicode tables (with the ASCII digits among
    the decimal characters), rating extraction finds the first numeric
    pattern of the text (digits, separator, digits, or digits alone), reads a
    comma as a period and converts it as [float] does: the rating is the
    binary64 number nearest to the decimal the pattern denotes, which is that
    decimal itself for digits alone below [2^53]; without a numeric pattern,
    or without a rating element, the rating is absent and nothing is raised.
    "Rating: 4,5 stars" gives 4.5, "9" gives 9.0, "no score" gives no rating.
    Both scripts extract the same rating. *)
Theorem rating_extraction_spec (U : Unicode) :
  ascii_digits U ->
  (forall t,
     re_search RATING_RE t = option_map numeral_text (first_numeral t) /\
     rating_of_text t = Ret (option_map numeral_float (first_numeral t))) /\
  (forall a,
     Z.of_N (digits_number a) < 2 ^ 53 ->
     numeral_float (Plain a) = Finite (inject_Z (Z.of_N (digits_number a)))) /\
  (forall card e,
     find_element card RATING_SELECTOR = Ret e ->
     _extract_rating card
       = Ret (option_map numeral_float (first_numeral (strip (text e)))) /\
     parse_card_rating card = _extract_rating card) /\
  (forall card,
     find_element card RATING_SELECTOR = Raise NoSuchElementException ->
     _extract_rating card = Ret None /\ parse_card_rating card = Ret None) /\
  rating_of_text (u "Rating: 4,5 stars") = Ret (Some (Finite (9 # 2))) /\
  (9 # 2 == 4.5)%Q /\
  rating_of_text (u "9") = Ret (Some (Finite (9 # 1))) /\
  (9 # 1 == 9.0)%Q /\
  rating_of_text (u "no score") = Ret None.
Proof.
  intros HU.
  split; [intros t; split; [apply (re_search_rating HU) | apply (rating_of_text_spec HU)]|].
  split; [intros a; apply numeral_float_whole|].
  split; [intros card e H; split; [apply (extract_rating_found HU card e H)
                                  | apply (parse_card_rating_same card)]|].
  split; [intros card H; apply (extract_rating_missing card H)|].
  split; [apply (rating_4_5 HU)|].
  split; [reflexivity|].
  split; [apply (rating_9 HU)|].
  split; [reflexivity|].
  apply (rating_no_score HU).
Qed.

Lemma rating_extraction_spec_witness :
  ascii_digits SmallUnicode /\
  @rating_of_text SmallUnicode (u "Rating: 4,5 stars") = Ret (Some (Finite (9 # 2))).
Proof.
  split; [exact small_unicode_ascii|].
  apply (rating_extraction_spec SmallUnicode small_unicode_ascii).
Defined.

(** C5 does not hold of every text: the rating is a float, not the decimal
    that is written.  "4,7" gives the binary64 number next to 4.7, which is
    not 4.7; four hundred nines give the infinity. *)
Lemma rating_not_decimal_counterexample :
  @rating_of_text SmallUnicode (u "4,7")
  = Ret (Some (Finite (5291729562160333 # 1125899906842624))) /\
  ~ (5291729562160333 # 1125899906842624 == 4.7)%Q /\
  @first_numeral SmallUnicode (u "4,7") = Some (Point [52%N] 44%N [55%N]) /\
  (@numeral_value SmallUnicode (Point [52%N] 44%N [55%N]) == 4.7)%Q /\
  @rating_of_text SmallUnicode (repeat 57%N 400) = Ret (Some Infinity).
Proof.
  split; [vm_compute; reflexivity|].
  split; [intros E; vm_compute in E; discriminate E|].
  split; [vm_compute; reflexivity|].
  split; [vm_compute; reflexivity|].
  vm_compute. reflexivity.
Qed.

(* ===================================================================== *)
(** ** The categories *)
(* ===================================================================== *)

Lemma lstrip_by_split (p : N -> bool) (s : pystr) :
  forallb p (take_while p s) = true /\
  match lstrip_by p s with c :: _ => p c = false | [] => True end.
Proof. split; [apply take_while_all | apply lstrip_head]. Qed.

Lemma last_rev_head {A} (l : list A) (d x : A) (r : list A) :
  rev l = x :: r -> last l d = x.
Proof.
  intros H. apply (f_equal (@rev A)) in H. rewrite rev_involutive in H.
  subst l. simpl. now rewrite last_last.
Qed.

Lemma lstrip_suffix (p : N -> bool) (s : pystr) :
  exists pre, s = pre ++ lstrip_by p s.
Proof. exists (take_while p s). apply take_while_lstrip. Qed.

Lemma rstrip_keeps_head (p : N -> bool) (s : pystr) (c : N) (rest : pystr) :
  p c = false -> exists rest', rstrip_by p (c :: rest) = c :: rest'.
Proof.
  intros Hc. unfold rstrip_by. simpl rev.
  destruct (lstrip_suffix p (rev rest ++ [c])) as (pre & Hpre).
  pose proof (take_while_all p (rev rest ++ [c])) as Hall.
  pose proof (take_while_lstrip p (rev rest ++ [c])) as Hsplit.
  remember (lstrip_by p (rev rest ++ [c])) as kept eqn:Ek.
  destruct (rev kept) as [|x r] eqn:Er.
  - apply (f_equal (@rev N)) in Er. rewrite rev_involutive in Er. simpl in Er.
    subst kept. rewrite Er, app_nil_r in Hsplit. rewrite <- Hsplit in Hall.
    rewrite forallb_app in Hall. simpl in Hall. rewrite Hc in Hall.
    now rewrite andb_false_r in Hall.
  - exists r. f_equal.
    apply (f_equal (@rev N)) in Hsplit.
    rewrite !rev_app_distr, rev_involutive in Hsplit. simpl in Hsplit.
    rewrite Er in Hsplit. simpl in Hsplit. now injection Hsplit as ->.
Qed.

(** [strip] leaves a string whose ends are outside the class, between a run
    of the class on each side. *)
Lemma strip_by_spec (p : N -> bool) (s : pystr) :
  exists pre post,
    s = pre ++ strip_by p s ++ post /\
    forallb p pre = true /\ forallb p post = true /\
    trimmed p (strip_by p s).
Proof.
  unfold strip_by.
  destruct (rstrip_by_split p (lstrip_by p s)) as (post & Hpost & Hall & Hlast).
  exists (take_while p s), post. repeat split.
  - rewrite <- Hpost. apply take_while_lstrip.
  - apply take_while_all.
  - exact Hall.
  - unfold trimmed.
    destruct (rstrip_by p (lstrip_by p s)) as [|c t] eqn:Ekept; [exact I|].
    pose proof (lstrip_head p s) as Hhead.
    destruct (lstrip_by p s) as [|c' rest] eqn:El.
    + unfold rstrip_by in Ekept. simpl in Ekept. discriminate.
    + destruct (rstrip_keeps_head p (c' :: rest) c' rest Hhead) as (rest' & Hk).
      rewrite Hk in Ekept. injection Ekept as -> ->. split; [exact Hhead|].
      destruct (rev (c :: t)) as [|x r] eqn:Er.
      * apply (f_equal (@rev N)) in Er. rewrite rev_involutive in Er. discriminate.
      * now rewrite (last_rev_head (c :: t) c x r Er).
Qed.

Lemma filter_filter {A} (p q : A -> bool) (l : list A) :
  filter p (filter q l) = filter (fun x => q x && p x) l.
Proof.
  induction l as [|a l IH]; simpl; [reflexivity|].
  destruct (q a); simpl; [destruct (p a); now rewrite IH | exact IH].
Qed.

Lemma filter_first_occurrences (x : pystr) (l : list pystr) :
  filter (fun y => negb (pystr_eqb y x)) (first_occurrences l)
  = first_occurrences (filter (fun y => negb (pystr_eqb y x)) l).
Proof.
  induction l as [|a l IH]; [reflexivity|].
  cbn [first_occurrences filter].
  destruct (pystr_eqb a x) eqn:E; cbn [negb].
  - apply pystr_eqb_eq in E. subst a. rewrite <- IH, filter_filter.
    apply filter_ext. intros y. now destruct (pystr_eqb y x).
  - cbn [first_occurrences]. f_equal. rewrite <- IH, !filter_filter.
    apply filter_ext. intros y. apply andb_comm.
Qed.

Lemma first_occurrences_NoDup (l : list pystr) : NoDup (first_occurrences l).
Proof.
  induction l as [|x l IH]; simpl; constructor.
  - intros Hin. apply filter_In in Hin as [_ H]. now rewrite pystr_eqb_refl in H.
  - now apply NoDup_filter.
Qed.

Lemma first_occurrences_In (l : list pystr) (x : pystr) :
  In x (first_occurrences l) <-> In x l.
Proof.
  induction l as [|a l IH]; simpl; [tauto|].
  rewrite filter_In, IH. split.
  - intros [H | [H _]]; auto.
  - intros [H | H]; auto.
    destruct (pystr_eqb x a) eqn:E.
    + apply pystr_eqb_eq in E. auto.
    + right. now split.
Qed.

(** The loop, whatever it starts from: the texts not seen before are added at
    their first occurrence. *)
Lemma categories_loop_spec (links : list Element) (seen cats : list pystr) :
  categories_loop links seen cats =
  cats ++ first_occurrences
            (filter (fun t => truthy t && negb (existsb (pystr_eqb t) seen))
                    (map category_text links)).
Proof.
  revert seen cats. induction links as [|link rest IH]; intros seen cats.
  - simpl. now rewrite app_nil_r.
  - cbn [categories_loop map filter]. fold (category_text link).
    destruct (truthy (category_text link)
              && negb (existsb (pystr_eqb (category_text link)) seen)) eqn:E.
    + rewrite IH, <- app_assoc. cbn [app first_occurrences]. do 2 f_equal.
      rewrite filter_first_occurrences, filter_filter. f_equal.
      apply filter_ext. intros t. cbn [existsb]. rewrite negb_orb.
      destruct (truthy t); simpl; [|reflexivity]. apply andb_comm.
    + apply IH.
Qed.

(** C6. Category extraction trims the separator characters (space, middle
    dot, em dash, hyphen, line feed, tab) from both ends of each link text and
    keeps the non-empty results at their first occurrence, in the order met:
    the list has no duplicate and holds exactly the non-empty trimmed texts.
    Texts that trim to "A", "B", "A", "C" give ["A"; "B"; "C"].  Both scripts
    extract the same list. *)
Theorem categories_spec :
  (forall links,
     categories_loop links [] []
       = first_occurrences (filter truthy (map category_text links)) /\
     NoDup (categories_loop links [] []) /\
     (forall x, In x (categories_loop links [] []) <->
                x <> [] /\ exists link, In link links /\ category_text link = x)) /\
  (forall link,
     exists pre post,
       text link = pre ++ category_text link ++ post /\
       forallb (in_chars CATEGORY_STRIP_CHARS) pre = true /\
       forallb (in_chars CATEGORY_STRIP_CHARS) post = true /\
       trimmed (in_chars CATEGORY_STRIP_CHARS) (category_text link)) /\
  (forall card links,
     find_elements card FEATURES_SELECTOR = Ret links ->
     _extract_categories card = Ret (categories_loop links [] []) /\
     parse_card_cats card = Ret (categories_loop links [] [])) /\
  categories_loop
    [ {| text := u " A " |}; {| text := u "· B —" |};
      {| text := [10; 65; 9]%N |}; {| text := u " - " |}; {| text := u "-C" |} ] [] []
  = [u "A"; u "B"; u "C"].
Proof.
  assert (Hloop : forall links,
             categories_loop links [] []
             = first_occurrences (filter truthy (map category_text links))).
  { intros links. rewrite categories_loop_spec. cbn [app]. f_equal.
    apply filter_ext. intros t. cbn [existsb negb]. apply andb_true_r. }
  split; [|split; [|split]].
  - intros links. rewrite Hloop. split; [reflexivity|]. split.
    + apply first_occurrences_NoDup.
    + intros x. rewrite first_occurrences_In, filter_In, in_map_iff. split.
      * intros [(link & Hl & Hin) Ht]. split; [now destruct x | now exists link].
      * intros [Hx (link & Hin & Hl)]. split; [now exists link | now destruct x].
  - intros link. apply strip_by_spec.
  - intros card links H. unfold _extract_categories, parse_card_cats.
    unfold FEATURES_SELECTOR in *. rewrite H. split; reflexivity.
  - vm_compute. reflexivity.
Qed.

(* ===================================================================== *)
(** ** Reasoning on computations *)
(* ===================================================================== *)

Section Keeps.

Context {St : Type} (R : St -> St -> Prop) `{!PreOrder R}.

Lemma keeps_ret {A} (a : A) : keeps R (ret a).
Proof. intros s. simpl. reflexivity. Qed.

Lemma keeps_raise {A} (e : exn) : keeps R (@raise St A e).
Proof. intros s. simpl. reflexivity. Qed.

Lemma keeps_pure {A} (o : outcome A) : keeps R (pure_ o).
Proof. intros s. simpl. reflexivity. Qed.

Lemma keeps_bind {A B} (m : M St A) (k : A -> M St B) :
  keeps R m -> (forall a, keeps R (k a)) -> keeps R (bind m k).
Proof.
  intros Hm Hk s. unfold bind. specialize (Hm s).
  destruct (m s) as [[a|e] s']; simpl in *; [|exact Hm].
  etransitivity; [exact Hm | apply Hk].
Qed.

Lemma keeps_try_except {A} (m h : M St A) (caught : exn -> bool) :
  keeps R m -> keeps R h -> keeps R (try_except m caught h).
Proof.
  intros Hm Hh s. unfold try_except. specialize (Hm s).
  destruct (m s) as [[a|e] s']; simpl in *; [exact Hm|].
  destruct (caught e); simpl; [|exact Hm].
  etransitivity; [exact Hm | apply Hh].
Qed.

Lemma keeps_try_finally {A} (m : M St A) (fin : M St unit) :
  keeps R m -> keeps R fin -> keeps R (try_finally m fin).
Proof.
  intros Hm Hf s. unfold try_finally. specialize (Hm s).
  destruct (m s) as [r s']. specialize (Hf s'). simpl in Hm.
  destruct (fin s') as [[[]|e] s'']; simpl in *; etransitivity; eassumption.
Qed.

Lemma keeps_for_each {A} (xs : list A) (body : A -> M St unit) :
  (forall x, keeps R (body x)) -> keeps R (for_each xs body).
Proof.
  intros Hb. induction xs as [|x xs IH]; simpl.
  - apply keeps_ret.
  - apply keeps_bind; [apply Hb | intros _; exact IH].
Qed.

End Keeps.

(** The structure of a computation, peeled down to its primitive steps;
    [prim] closes those. *)
Ltac keeps_structure prim :=
  repeat first
    [ match goal with
      | |- PreOrder _ => exact _
      | |- forall _, _ => intros ?
      | |- keeps _ (ret _) => apply keeps_ret
      | |- keeps _ (raise _) => apply keeps_raise
      | |- keeps _ (pure_ _) => apply keeps_pure
      | |- keeps _ (bind _ _) => apply keeps_bind
      | |- keeps _ (try_except _ _ _) => apply keeps_try_except
      | |- keeps _ (try_finally _ _) => apply keeps_try_finally
      | |- keeps _ (for_each _ _) => apply keeps_for_each
      | |- keeps _ (if ?b then _ else _) => destruct b eqn:?
      | |- keeps _ (match ?x with _ => _ end) => destruct x eqn:?
      end
    | prim ].

(** One step of the same, by hand. *)
Tactic Notation "keeps_step" uconstr(lem) := apply lem; [exact _ | ..].

Lemma in_py_range (a b x : Z) : In x (py_range a b) -> a <= x < b.
Proof.
  unfold py_range. intros H. apply in_map_iff in H as (i & <- & Hi).
  apply in_seq in Hi. lia.
Qed.

(** Inversion of a [bind] that returned. *)
Lemma bind_ret_inv {St A B} (m : M St A) (k : A -> M St B) (s s' : St) (b : B) :
  bind m k s = (Ret b, s') ->
  exists a s1, m s = (Ret a, s1) /\ k a s1 = (Ret b, s').
Proof.
  unfold bind. destruct (m s) as [[a|e] s1]; [|discriminate].
  intros H. now exists a, s1.
Qed.

Lemma bind_ret_eq {St A B} (m : M St A) (k : A -> M St B) (s s1 : St) (a : A) :
  m s = (Ret a, s1) -> bind m k s = k a s1.
Proof. intros H. unfold bind. now rewrite H. Qed.

Lemma bind_raise_eq {St A B} (m : M St A) (k : A -> M St B) (s s1 : St) (e : exn) :
  m s = (Raise e, s1) -> bind m k s = (Raise e, s1).
Proof. intros H. unfold bind. now rewrite H. Qed.

(* ===================================================================== *)
(** ** No record without a name *)
(* ===================================================================== *)

#[export] Instance names_kept_preorder {W} : PreOrder (@names_kept W).
Proof. split; [intros s H; exact H | intros a b c Hab Hbc H; auto]. Qed.

#[export] Instance names_kept_script_preorder {W} : PreOrder (@names_kept_script W).
Proof. split; [intros s H; exact H | intros a b c Hab Hbc H; auto]. Qed.

Lemma truthy_named (p : Place) : truthy (name p) = true -> named p.
Proof. unfold named. now destruct (name p). Qed.

Section Names.

Context {U : Unicode} {W : Type} {B : Browser W}.

Lemma main_outside_places {A} (m : M (Env W) A) (s : Main.Scraper W) :
  Main.places (snd (Main.outside m s)) = Main.places s /\
  Main.logs (snd (Main.outside m s)) = Main.logs s /\
  Main._driver (snd (Main.outside m s)) = Main._driver s /\
  Main.config (snd (Main.outside m s)) = Main.config s.
Proof. unfold Main.outside. now destruct (m (Main.env s)). Qed.

Lemma names_outside {A} (m : M (Env W) A) : keeps names_kept (Main.outside m).
Proof.
  intros s H. now rewrite (proj1 (main_outside_places m s)).
Qed.

Lemma names_places_append (p : Place) :
  named p -> keeps (@names_kept W) (Main.places_append p).
Proof.
  intros Hp s H. simpl. apply Forall_app. split; [exact H | now constructor].
Qed.

Ltac names_prim :=
  first
    [ apply names_outside
    | let s := fresh "s" in let H := fresh "H" in
      intros s H; exact H ].

Lemma names_append_cards (cards : list Card) :
  keeps (@names_kept W) (Main._append_cards cards).
Proof.
  unfold Main._append_cards.
  keeps_step keeps_bind; [names_prim|intros before].
  keeps_step keeps_bind.
  - keeps_step keeps_for_each. intros card.
    keeps_step keeps_bind; [keeps_step keeps_pure|intros place].
    destruct (truthy (name place)) eqn:E.
    + apply names_places_append. now apply truthy_named.
    + keeps_step keeps_ret.
  - intros _. keeps_structure names_prim.
Qed.

Lemma names_handle_protect_screen (page : Z) :
  keeps (@names_kept W) (Main._handle_protect_screen page).
Proof. unfold Main._handle_protect_screen. keeps_structure names_prim. Qed.

Lemma names_wait_cards_container (page : Z) :
  keeps (@names_kept W) (Main._wait_cards_container page).
Proof. unfold Main._wait_cards_container. keeps_structure names_prim. Qed.

Lemma names_save_partial (page : Z) :
  keeps (@names_kept W) (Main._save_partial page).
Proof. unfold Main._save_partial. keeps_structure names_prim. Qed.

Lemma names_process_page (page : Z) :
  keeps (@names_kept W) (Main._process_page page).
Proof.
  unfold Main._process_page.
  keeps_structure
    ltac:(first [ apply names_handle_protect_screen
                | apply names_wait_cards_container
                | apply names_append_cards
                | apply names_save_partial
                | names_prim ]).
Qed.

Lemma names_run_loop (pages : list Z) :
  keeps (@names_kept W) (Main.run_loop pages).
Proof.
  induction pages as [|page rest IH]; simpl.
  - keeps_step keeps_ret.
  - keeps_step keeps_bind; [apply names_process_page|].
    intros ok. destruct ok; simpl; [exact IH | keeps_step keeps_ret].
Qed.

Lemma names_close : keeps (@names_kept W) Main.close.
Proof. unfold Main.close. keeps_structure names_prim. Qed.

Lemma names_run : keeps (@names_kept W) Main.run.
Proof.
  unfold Main.run, Main._ensure_driver.
  keeps_structure
    ltac:(first [ apply names_run_loop | apply names_close | names_prim ]).
Qed.

End Names.

Section NamesScript.

Context {U : Unicode} {W : Type} {B : Browser W}.

Lemma script_outside_places {A} (m : M (Env W) A) (s : Script.Locals W) :
  Script.l_places (snd (Script.outside m s)) = Script.l_places s /\
  Script.l_logs (snd (Script.outside m s)) = Script.l_logs s.
Proof. unfold Script.outside. now destruct (m (Script.l_env s)). Qed.

Lemma names_script_outside {A} (m : M (Env W) A) :
  keeps names_kept_script (Script.outside m).
Proof. intros s H. now rewrite (proj1 (script_outside_places m s)). Qed.

Lemma names_script_append (p : Place) :
  named p -> keeps (@names_kept_script W) (Script.places_append p).
Proof.
  intros Hp s H. simpl. apply Forall_app. split; [exact H | now constructor].
Qed.

Lemma names_page_step (g : Script.Settings) (page : Z) :
  keeps (@names_kept_script W) (Script.page_step g page).
Proof.
  unfold Script.page_step.
  keeps_structure
    ltac:(first [ match goal with
                  | H : truthy (name ?p) = true |- keeps _ (Script.places_append ?p) =>
                      apply names_script_append, truthy_named, H
                  end
                | apply names_script_outside
                | let s := fresh "s" in let H := fresh "H" in
                  intros s H; exact H ]).
Qed.

Lemma names_pages_loop (g : Script.Settings) (pages : list Z) :
  keeps (@names_kept_script W) (Script.pages_loop g pages).
Proof.
  induction pages as [|page rest IH]; simpl.
  - keeps_step keeps_ret.
  - keeps_step keeps_bind; [apply names_page_step|].
    intros ok. destruct ok; simpl; [exact IH | keeps_step keeps_ret].
Qed.

End NamesScript.

(** What [run] returns is the accumulator and the log it ended with. *)
Lemma run_returns {U : Unicode} {W : Type} {B : Browser W}
    (s s' : Main.Scraper W) (ps : list Place) (ls : list pystr) :
  Main.run s = (Ret (ps, ls), s') ->
  ps = Main.places s' /\ ls = Main.logs s'.
Proof.
  unfold Main.run. intros H.
  apply bind_ret_inv in H as (? & s1 & _ & H).
  apply bind_ret_inv in H as (cfg & s2 & _ & H).
  apply bind_ret_inv in H as (? & s3 & _ & H).
  apply bind_ret_inv in H as (ps' & s4 & H4 & H).
  apply bind_ret_inv in H as (ls' & s5 & H5 & H).
  unfold Main.self_places in H4. unfold Main.self_logs in H5. unfold ret in H.
  injection H4 as <- <-. injection H5 as <- <-. injection H as <- <- <-.
  split; reflexivity.
Qed.

(** C3. Every record of the accumulator has a non-empty name: each page and
    the whole run of either script keep this invariant, whether they return
    or raise, so the records a run returns all have a name.  A card whose
    extracted name is empty adds no record and adds nothing to the total;
    a card with a name adds its record and one to the total. *)
Theorem accumulated_names_nonempty (U : Unicode) (W : Type) (B : Browser W) :
  (forall page (s : Main.Scraper W),
     Forall named (Main.places s) ->
     Forall named (Main.places (snd (Main._process_page page s)))) /\
  (forall cfg (e : Env W),
     Forall named (Main.places (snd (Main.run (Main.new cfg e)))) /\
     forall ps ls, fst (Main.run (Main.new cfg e)) = Ret (ps, ls) -> Forall named ps) /\
  (forall g page (s : Script.Locals W),
     Forall named (Script.l_places s) ->
     Forall named (Script.l_places (snd (Script.page_step g page s)))) /\
  (forall g (e : Env W) ps ls,
     fst (Script.scrape_all_pages g e) = Ret (ps, ls) -> Forall named ps) /\
  (forall card place (s : Main.Scraper W),
     _parse_card card = Ret place ->
     (name place = [] ->
        Main._append_cards [card] s = (Ret 0, s)) /\
     (name place <> [] ->
        fst (Main._append_cards [card] s) = Ret 1 /\
        Main.places (snd (Main._append_cards [card] s)) = Main.places s ++ [place])).
Proof.
  split; [|split; [|split; [|split]]].
  - intros page s. apply names_process_page.
  - intros cfg e.
    assert (H : Forall named (Main.places (snd (Main.run (Main.new cfg e))))).
    { apply names_run. simpl. constructor. }
    split; [exact H|].
    intros ps ls Hr.
    destruct (Main.run (Main.new cfg e)) as [r s'] eqn:E. simpl in *. subst r.
    apply run_returns in E as [-> _]. exact H.
  - intros g page s. apply names_page_step.
  - intros g e ps ls. unfold Script.scrape_all_pages.
    destruct (Script.build_driver g e) as [[[]|ex] e']; simpl; [|discriminate].
    set (s0 := {| Script.l_places := []; Script.l_logs := []; Script.l_env := e' |}).
    set (fin := try_except _ _ _).
    pose proof (keeps_try_finally names_kept_script
                  (Script.pages_loop g (py_range 1 (Script.TOTAL_PAGES g + 1))) fin
                  (names_pages_loop g _)) as Hk.
    assert (Hfin : keeps names_kept_script fin).
    { unfold fin. keeps_structure ltac:(first [apply names_script_outside
                                             | let s := fresh "s" in let H := fresh "H" in
                                               intros s H; exact H]). }
    specialize (Hk Hfin s0 (Forall_nil _)).
    destruct (try_finally _ fin s0) as [[[]|ex] s]; simpl in *; [|discriminate].
    intros [= <- <-]. exact Hk.
  - intros card place s Hp. split.
    + intros Hn. unfold Main._append_cards, bind, Main.self_places, pure_. simpl.
      rewrite Hp, Hn. simpl. rewrite Z.sub_diag. now destruct s.
    + intros Hn. unfold Main._append_cards, bind, Main.self_places, pure_. simpl.
      rewrite Hp. destruct (name place) eqn:En; [easy|]. simpl.
      split; [|reflexivity]. f_equal. rewrite length_app. simpl. lia.
Qed.

Lemma accumulated_names_nonempty_witness :
  Forall named (@Main.places Sim (Main.new (config_pages 3 false) (sim_env world_two_then_none))) /\
  Forall named
    (Main.places
       (snd (@Main._process_page SmallUnicode Sim SimBrowser 1
               (Main.new (config_pages 3 false) (sim_env world_two_then_none))))).
Proof.
  assert (H : Forall named
                (@Main.places Sim
                   (Main.new (config_pages 3 false) (sim_env world_two_then_none))))
    by exact (Forall_nil _).
  split; [exact H|].
  exact (proj1 (accumulated_names_nonempty SmallUnicode Sim SimBrowser) 1 _ H).
Defined.

Section Hoare.

Context {St : Type}.

Lemma hoare_ret {A} (P : St -> Prop) (a : A) (Q : A -> St -> Prop) :
  (forall s, P s -> Q a s) -> hoare P (ret a) Q.
Proof. intros H s Hs. simpl. now apply H. Qed.

Lemma hoare_bind {A B} (P : St -> Prop) (m : M St A) (Q : A -> St -> Prop)
    (k : A -> M St B) (R : B -> St -> Prop) :
  hoare P m Q -> (forall a, hoare (Q a) (k a) R) -> hoare P (bind m k) R.
Proof.
  intros Hm Hk s Hs. unfold bind. specialize (Hm s Hs).
  destruct (m s) as [[a|e] s']; [|exact I]. now apply Hk.
Qed.

Lemma hoare_true {A} (P : St -> Prop) (m : M St A) :
  hoare P m (fun _ _ => True).
Proof. intros s _. now destruct (m s) as [[a|e] s']. Qed.

Lemma hoare_weaken {A} (P P' : St -> Prop) (m : M St A) (Q Q' : A -> St -> Prop) :
  hoare P' m Q' -> (forall s, P s -> P' s) -> (forall a s, Q' a s -> Q a s) ->
  hoare P m Q.
Proof.
  intros H HP HQ s Hs. specialize (H s (HP s Hs)).
  destruct (m s) as [[a|e] s']; [now apply HQ | exact I].
Qed.

(** A relation kept by [m] carries a property of the initial state over. *)
Lemma hoare_keeps {A} (R : St -> St -> Prop) (m : M St A) (s0 : St) :
  keeps R m -> hoare (fun s => s = s0) m (fun _ s' => R s0 s').
Proof.
  intros H s ->. specialize (H s0). now destruct (m s0) as [[a|e] s'].
Qed.

End Hoare.

(** Skip a step whose effect does not matter to the postcondition. *)
Tactic Notation "hoare_skip" "as" simple_intropattern(x) :=
  eapply hoare_bind; [apply hoare_true | intros x; cbv beta].

(* ===================================================================== *)
(** ** Files *)
(* ===================================================================== *)

Lemma read_write_same (fs : filesystem) (path : pystr) (d : FileData) :
  read_file (write_file fs path d) path = Some d.
Proof. unfold write_file. simpl. now rewrite pystr_eqb_refl. Qed.

Lemma read_write_other (fs : filesystem) (path other : pystr) (d : FileData) :
  other <> path ->
  read_file (write_file fs path d) other = read_file fs other.
Proof.
  intros Hne. unfold write_file. simpl.
  assert (E : pystr_eqb path other = false) by (apply pystr_eqb_neq; congruence).
  rewrite E. induction fs as [|[p d'] fs IH]; simpl; [reflexivity|].
  destruct (pystr_eqb p path) eqn:Ep; simpl.
  - apply pystr_eqb_eq in Ep. subst p. now rewrite E.
  - now rewrite IH.
Qed.

Lemma partial_names_differ (page : Z) :
  Main.partial_csv_name page <> Main.partial_log_name page.
Proof.
  unfold Main.partial_csv_name, Main.partial_log_name. simpl. discriminate.
Qed.

Lemma df_from_places_data (ps : list Place) :
  data (df_from_places ps) = map place_cells ps.
Proof.
  unfold df_from_places, DataFrame_of. simpl. rewrite map_map.
  apply map_ext. intros p. unfold place_row, place_cells. simpl.
  now destruct (categories p).
Qed.

Lemma df_from_places_columns (ps : list Place) :
  ps <> [] ->
  columns (df_from_places ps) = [u "Название"; u "Рейтинг"; u "Направления"].
Proof. destruct ps; [easy | reflexivity]. Qed.

Section Saving.

Context {U : Unicode} {W : Type} {B : Browser W}.

Lemma outside_call_frame {A} (c : call) (f : W -> outcome A * W) (s : Main.Scraper W) :
  let s' := snd (Main.outside (do_call c f) s) in
  Main.places s' = Main.places s /\ Main.logs s' = Main.logs s /\
  Main.config s' = Main.config s /\ Main._driver s' = Main._driver s /\
  files (Main.env s') = files (Main.env s) /\
  calls (Main.env s') = calls (Main.env s) ++ [c].
Proof.
  unfold Main.outside, do_call. simpl.
  destruct (f (world (Main.env s))) as [r w']. simpl. repeat split.
Qed.

Lemma save_partial_spec (page : Z) (s : Main.Scraper W) :
  exists s',
    Main._save_partial page s = (Ret tt, s') /\
    Main.places s' = Main.places s /\ Main.logs s' = Main.logs s /\
    Main.config s' = Main.config s /\ Main._driver s' = Main._driver s /\
    calls (Main.env s') = calls (Main.env s) /\
    world (Main.env s') = world (Main.env s) /\
    files (Main.env s') =
      write_file
        (write_file (files (Main.env s)) (Main.partial_csv_name page)
           (CsvFile (df_from_places (Main.places s))))
        (Main.partial_log_name page) (TextFile (join NEWLINE (Main.logs s))).
Proof.
  eexists. split; [reflexivity|]. simpl. repeat split.
Qed.

(** After a page that was processed, its partial CSV holds the table of the
    whole accumulator. *)
Lemma process_page_saves (page : Z) :
  hoare (fun _ => True) (Main._process_page page)
    (fun ok s' =>
       ok = true ->
       read_file (files (Main.env s')) (Main.partial_csv_name page)
       = Some (CsvFile (df_from_places (Main.places s')))).
Proof.
  unfold Main._process_page.
  hoare_skip as cfg. hoare_skip as ?. hoare_skip as ?. hoare_skip as ?.
  hoare_skip as ok.
  destruct ok; simpl; [|apply hoare_ret; discriminate].
  hoare_skip as found.
  destruct found; simpl; [|apply hoare_ret; discriminate].
  hoare_skip as ?. hoare_skip as cards.
  destruct cards as [|card cards].
  { hoare_skip as ?. apply hoare_ret. discriminate. }
  hoare_skip as added. hoare_skip as ps. hoare_skip as ?.
  eapply hoare_bind with
    (Q := fun _ s' =>
            read_file (files (Main.env s')) (Main.partial_csv_name page)
            = Some (CsvFile (df_from_places (Main.places s')))).
  - intros s _. destruct (save_partial_spec page s)
      as (s' & -> & Hp & _ & _ & _ & _ & _ & Hf).
    rewrite Hf, Hp, read_write_other by apply partial_names_differ.
    apply read_write_same.
  - intros _. eapply hoare_bind with
      (Q := fun _ s' =>
              read_file (files (Main.env s')) (Main.partial_csv_name page)
              = Some (CsvFile (df_from_places (Main.places s')))).
    + intros s Hs. unfold Main.humanized_sleep.
      pose proof (outside_call_frame
                    (CSleep (fst (Main.page_sleep cfg)) (snd (Main.page_sleep cfg)))
                    (sleep (fst (Main.page_sleep cfg)) (snd (Main.page_sleep cfg))) s)
        as (Hp & _ & _ & _ & Hf & _).
      destruct (Main.outside _ s) as [[[]|e] s']; [|exact I].
      simpl in *. now rewrite Hf, Hp.
    + intros _. apply hoare_ret. auto.
Qed.

End Saving.

#[export] Instance grows_preorder {W} : PreOrder (@grows W).
Proof.
  split.
  - intros s. repeat split; try (exists []; now rewrite app_nil_r).
  - intros a b c (Hp & Hl & Hc) (Hp' & Hl' & Hc'). repeat split.
    + destruct Hp as [x Hx], Hp' as [y Hy]. exists (x ++ y).
      now rewrite Hy, Hx, app_assoc.
    + destruct Hl as [x Hx], Hl' as [y Hy]. exists (x ++ y).
      now rewrite Hy, Hx, app_assoc.
    + congruence.
Qed.

Section Growth.

Context {U : Unicode} {W : Type} {B : Browser W}.

Lemma grows_outside {A} (m : M (Env W) A) : keeps grows (Main.outside m).
Proof.
  intros s. destruct (main_outside_places m s) as (Hp & Hl & _ & Hc).
  repeat split; try (exists []; rewrite app_nil_r); assumption.
Qed.

Lemma grows_logs_append (line : pystr) : keeps (@grows W) (Main.logs_append line).
Proof.
  intros s. simpl. repeat split; [exists []; now rewrite app_nil_r | now exists [line]].
Qed.

Lemma grows_places_append (p : Place) : keeps (@grows W) (Main.places_append p).
Proof.
  intros s. simpl. repeat split; [now exists [p] | exists []; now rewrite app_nil_r].
Qed.

Ltac grows_prim :=
  first
    [ apply grows_outside
    | apply grows_logs_append
    | apply grows_places_append
    | let s := fresh "s" in intros s; simpl; reflexivity ].

Lemma grows_process_page (page : Z) : keeps (@grows W) (Main._process_page page).
Proof.
  unfold Main._process_page, Main._handle_protect_screen, Main._wait_cards_container,
    Main._append_cards, Main._save_partial.
  keeps_structure grows_prim.
Qed.

Lemma grows_run_loop (pages : list Z) : keeps (@grows W) (Main.run_loop pages).
Proof.
  induction pages as [|page rest IH]; simpl.
  - keeps_step keeps_ret.
  - keeps_step keeps_bind; [apply grows_process_page|].
    intros ok. destruct ok; simpl; [exact IH | keeps_step keeps_ret].
Qed.

End Growth.

(** C7, as it holds.  After a page that [_process_page] reports as
    processed, the file named by the page number padded to two digits holds
    the table of the whole accumulator, as written by that page: one row per
    accumulated record in accumulation order (the records present before the
    page, then the ones it added), each row made of the name, of the rating
    (the empty string when absent, the number otherwise) and of the
    categories joined with " | " (the empty string when there is none).  The
    three column labels are there, in this order, as soon as one record is
    accumulated; while the accumulator is empty the table has no column and
    no row. *)
Theorem partial_csv_rewritten (U : Unicode) (W : Type) (B : Browser W)
    (page : Z) (s s' : Main.Scraper W) :
  Main._process_page page s = (Ret true, s') ->
  read_file (files (Main.env s')) (Main.partial_csv_name page)
    = Some (CsvFile (df_from_places (Main.places s'))) /\
  data (df_from_places (Main.places s')) = map place_cells (Main.places s') /\
  (exists added, Main.places s' = Main.places s ++ added) /\
  (Main.places s' <> [] ->
     columns (df_from_places (Main.places s'))
     = [u "Название"; u "Рейтинг"; u "Направления"]) /\
  (Main.places s' = [] ->
     df_from_places (Main.places s') = {| columns := []; data := [] |}) /\
  Main.partial_csv_name page
    = u "zoon_tomsk_restaurants_page_" ++ format_02d page ++ u ".csv" /\
  (0 <= page < 10 -> format_02d page = u "0" ++ str_of_int page) /\
  (10 <= page -> format_02d page = str_of_int page).
Proof.
  intros Hrun. repeat split.
  - pose proof (process_page_saves page s I) as H. rewrite Hrun in H. now apply H.
  - apply df_from_places_data.
  - pose proof (grows_process_page page s) as (H & _). now rewrite Hrun in H.
  - apply df_from_places_columns.
  - intros ->. reflexivity.
  - intros [H1 H2]. unfold format_02d.
    destruct (Z.leb_spec 0 page); [|lia]. destruct (Z.ltb_spec page 10); [|lia].
    reflexivity.
  - intros H. unfold format_02d.
    destruct (Z.ltb_spec page 10); [lia|]. now rewrite andb_false_r.
Qed.

Lemma partial_csv_rewritten_witness :
  exists s',
    @Main._process_page SmallUnicode Sim SimBrowser 1
      (Main.new (config_pages 3 false) (sim_env world_two_then_none)) = (Ret true, s') /\
    read_file (files (Main.env s')) (u "zoon_tomsk_restaurants_page_01.csv")
      = Some (CsvFile (df_from_places (Main.places s'))) /\
    List.length (data (df_from_places (Main.places s'))) = 2%nat.
Proof.
  eexists. split; [vm_compute; reflexivity|].
  split.
  - apply (partial_csv_rewritten SmallUnicode Sim SimBrowser 1
             (Main.new (config_pages 3 false) (sim_env world_two_then_none))).
    vm_compute. reflexivity.
  - vm_compute. reflexivity.
Defined.

(** C7 does not hold of a page whose cards all lack a name: the page is
    processed, the accumulator stays empty, and the partial CSV is written
    from a table without the three columns. *)
Lemma partial_csv_without_columns_counterexample :
  exists s',
    @Main._process_page SmallUnicode Sim SimBrowser 1
      (Main.new (config_pages 1 true) (sim_env world_nameless)) = (Ret true, s') /\
    Main.places s' = [] /\
    read_file (files (Main.env s')) (u "zoon_tomsk_restaurants_page_01.csv")
      = Some (CsvFile {| columns := []; data := [] |}) /\
    columns (df_from_places (Main.places s'))
      <> [u "Название"; u "Рейтинг"; u "Направления"].
Proof.
  eexists. split; [vm_compute; reflexivity|].
  split; [reflexivity|]. split; [reflexivity|]. discriminate.
Qed.

(* ===================================================================== *)
(** ** The trace of calls and the log *)
(* ===================================================================== *)

#[export] Instance emits_preorder {W} (P : call -> Prop) : PreOrder (@emits W P).
Proof.
  split.
  - intros e. exists []. now rewrite app_nil_r.
  - intros a b c (x & Hx & Px) (y & Hy & Py). exists (x ++ y). split.
    + now rewrite Hy, Hx, app_assoc.
    + apply Forall_app. now split.
Qed.

#[export] Instance inside_page_preorder {W} : PreOrder (@inside_page W).
Proof.
  split.
  - intros s. repeat split; try reflexivity.
    exists []. now rewrite app_nil_r.
  - intros a b c (He & (x & Hx & Nx) & Hc & Hd) (He' & (y & Hy & Ny) & Hc' & Hd').
    repeat split; try congruence.
    + etransitivity; eassumption.
    + exists (x ++ y). split; [now rewrite Hy, Hx, app_assoc|].
      rewrite forallb_app. now rewrite Nx, Ny.
Qed.

#[export] Instance inside_step_preorder {W} : PreOrder (@inside_step W).
Proof.
  split.
  - intros s. split; [reflexivity|]. exists []. now rewrite app_nil_r.
  - intros a b c (He & (x & Hx & Nx)) (He' & (y & Hy & Ny)). split.
    + etransitivity; eassumption.
    + exists (x ++ y). split; [now rewrite Hy, Hx, app_assoc|].
      rewrite forallb_app. now rewrite Nx, Ny.
Qed.

Lemma gets_app (a b : list call) : gets (a ++ b) = gets a ++ gets b.
Proof. unfold gets. apply flat_map_app. Qed.

Lemma quits_app (a b : list call) : quits (a ++ b) = (quits a + quits b)%nat.
Proof. unfold quits. now rewrite filter_app, length_app. Qed.

Lemma page_calls_quiet (cs : list call) :
  Forall page_call cs -> gets cs = [] /\ quits cs = 0%nat.
Proof.
  induction 1 as [|c cs Hc _ [IHg IHq]]; [now split|].
  destruct c; try contradiction; simpl; split; try exact IHg; exact IHq.
Qed.

Lemma notes_not_opened (notes : list pystr) :
  forallb is_note notes = true -> filter is_opened notes = [].
Proof.
  induction notes as [|l notes IH]; simpl; [reflexivity|].
  intros H. apply andb_true_iff in H as [Hl Hn]. rewrite (IH Hn).
  destruct l as [|c l]; [discriminate|].
  unfold is_note in Hl. cbn [starts_with] in Hl.
  apply andb_true_iff in Hl as [Hc _].
  apply N.eqb_eq in Hc. subst c. reflexivity.
Qed.

Section EnvSteps.

Context {U : Unicode} {W : Type} {B : Browser W}.

Lemma emits_call {A} (P : call -> Prop) (c : call) (f : W -> outcome A * W) :
  P c -> keeps (emits P) (do_call c f).
Proof.
  intros Hc e. unfold do_call. destruct (f (world e)) as [r w']. simpl.
  exists [c]. split; [reflexivity | now constructor].
Qed.

Lemma emits_write (P : call -> Prop) (path : pystr) (d : FileData) :
  keeps (@emits W P) (write path d).
Proof. intros e. simpl. exists []. now rewrite app_nil_r. Qed.

Ltac page_prim :=
  first
    [ apply emits_write
    | apply emits_call; exact I ].

Lemma page_is_protect_screen : keeps (emits page_call) Main._is_protect_screen.
Proof. unfold Main._is_protect_screen. keeps_structure page_prim. Qed.

Lemma page_humanized_sleep (b : Q * Q) :
  keeps (emits page_call) (Main.humanized_sleep b).
Proof. unfold Main.humanized_sleep. keeps_structure page_prim. Qed.

Lemma page_wait_candidates (t : Z) (sels : list pystr) :
  keeps (emits page_call) (Main.wait_candidates t sels).
Proof.
  induction sels as [|sel rest IH]; simpl.
  - keeps_step keeps_ret.
  - keeps_step keeps_try_except; [|exact IH]. keeps_structure page_prim.
Qed.

Lemma page_gentle_scroll (cfg : Main.ParserConfig) :
  keeps (emits page_call) (Main._gentle_scroll cfg).
Proof.
  unfold Main._gentle_scroll.
  keeps_structure ltac:(first [apply page_humanized_sleep | page_prim]).
Qed.

Lemma page_collect_from (sels : list pystr) :
  keeps (emits page_call) (Main.collect_from sels).
Proof.
  induction sels as [|sel rest IH]; simpl.
  - keeps_step keeps_ret.
  - keeps_step keeps_bind; [page_prim|]. intros items.
    destruct items; [exact IH | keeps_step keeps_ret].
Qed.

Lemma page_poll_redirect (cfg : Main.ParserConfig) (n : nat) :
  keeps (emits page_call) (Main.poll_redirect cfg n).
Proof.
  induction n as [|n IH]; simpl.
  - keeps_step keeps_ret.
  - keeps_step keeps_bind; [apply page_humanized_sleep|]. intros _.
    keeps_step keeps_bind; [apply page_is_protect_screen|]. intros p.
    destruct p; simpl; [exact IH | keeps_step keeps_ret].
Qed.

Lemma page_poll_manual (cfg : Main.ParserConfig) (n : nat) :
  keeps (emits page_call) (Main.poll_manual cfg n).
Proof.
  induction n as [|n IH]; simpl.
  - keeps_step keeps_ret.
  - keeps_step keeps_bind; [apply page_humanized_sleep|]. intros _.
    keeps_step keeps_bind; [apply page_is_protect_screen|]. intros p.
    destruct p; simpl; [|keeps_step keeps_ret].
    keeps_step keeps_bind; [page_prim | intros _; exact IH].
Qed.

(** Lifting to the methods. *)
Lemma inside_outside {A} (m : M (Env W) A) :
  keeps (emits page_call) m -> keeps inside_page (Main.outside m).
Proof.
  intros H s. specialize (H (Main.env s)). unfold Main.outside.
  destruct (m (Main.env s)) as [r e']. simpl in *.
  repeat split; try assumption. exists []. now rewrite app_nil_r.
Qed.

Lemma inside_note (line : pystr) :
  is_note line = true -> keeps (@inside_page W) (Main.logs_append line).
Proof.
  intros H s. simpl. repeat split; [reflexivity|].
  exists [line]. split; [reflexivity|]. simpl. now rewrite H.
Qed.

Lemma inside_same (s s' : Main.Scraper W) :
  Main.env s' = Main.env s -> Main.logs s' = Main.logs s ->
  Main.config s' = Main.config s -> Main._driver s' = Main._driver s ->
  inside_page s s'.
Proof.
  intros He Hl Hc Hd. repeat split; try assumption.
  - rewrite He. reflexivity.
  - exists []. now rewrite app_nil_r.
Qed.

Lemma inside_places_append (p : Place) :
  keeps (@inside_page W) (Main.places_append p).
Proof. intros s. now apply inside_same. Qed.

Ltac inside_prim :=
  first
    [ apply inside_outside;
      first [ apply page_is_protect_screen | apply page_humanized_sleep
            | apply page_wait_candidates | apply page_gentle_scroll
            | apply page_collect_from | apply page_poll_redirect
            | apply page_poll_manual | page_prim ]
    | apply inside_note; reflexivity
    | apply inside_places_append
    | let s := fresh "s" in intros s; apply inside_same; reflexivity ].

Lemma inside_handle_protect_screen (page : Z) :
  keeps (@inside_page W) (Main._handle_protect_screen page).
Proof. unfold Main._handle_protect_screen. keeps_structure inside_prim. Qed.

Lemma inside_wait_cards_container (page : Z) :
  keeps (@inside_page W) (Main._wait_cards_container page).
Proof. unfold Main._wait_cards_container. keeps_structure inside_prim. Qed.

Lemma inside_append_cards (cards : list Card) :
  keeps (@inside_page W) (Main._append_cards cards).
Proof. unfold Main._append_cards. keeps_structure inside_prim. Qed.

Lemma inside_save_partial (page : Z) :
  keeps (@inside_page W) (Main._save_partial page).
Proof. unfold Main._save_partial. keeps_structure inside_prim. Qed.

End EnvSteps.

Section Pages.

Context {U : Unicode} {W : Type} {B : Browser W}.

Ltac inside_all :=
  keeps_structure
    ltac:(first
            [ apply inside_handle_protect_screen
            | apply inside_wait_cards_container
            | apply inside_append_cards
            | apply inside_save_partial
            | apply inside_outside;
              first [ apply page_is_protect_screen | apply page_humanized_sleep
                    | apply page_wait_candidates | apply page_gentle_scroll
                    | apply page_collect_from | apply page_poll_redirect
                    | apply page_poll_manual
                    | apply emits_write | apply emits_call; exact I ]
            | apply inside_note; reflexivity
            | apply inside_places_append
            | let s := fresh "s" in intros s; apply inside_same; reflexivity ]).

(** The line of the opened page is written and its URL is asked for before
    anything else happens; what follows stays inside the page. *)
Lemma process_page_turn (page : Z) (s : Main.Scraper W) :
  page_turn page s (snd (Main._process_page page s)).
Proof.
  unfold Main._process_page.
  rewrite (bind_ret_eq _ _ s s (Main.config s)) by reflexivity.
  set (url := Main.page_url (Main.config s) page).
  erewrite (bind_ret_eq (Main.logs_append _)) by reflexivity.
  match goal with
  | |- context [bind (Main.outside ?m) ?k ?s1] =>
      pose proof (outside_call_frame (CGet url) (get url) s1) as Hframe;
      destruct (Main.outside m s1) as [[[]|ex] s2] eqn:Eget
  end.
  - erewrite bind_ret_eq by exact Eget.
    cbn [snd] in Hframe. destruct Hframe as (_ & Hl & Hc & Hd & _ & Hcalls).
    match goal with
    | |- context [bind ?m ?k s2] =>
        assert (K : keeps inside_page (bind m k)) by inside_all;
        specialize (K s2); destruct (bind m k s2) as [r s']
    end.
    cbn [snd] in *. destruct K as ((cs & Hcs & Pcs) & (notes & Hn & Nn) & Hc' & Hd').
    repeat split.
    + exists notes. split; [|exact Nn].
      rewrite Hn, Hl. cbn [Main.logs]. now rewrite <- app_assoc.
    + exists cs. split; [|exact Pcs].
      rewrite Hcs, Hcalls. cbn [Main.env]. now rewrite <- app_assoc.
    + now rewrite Hc', Hc.
    + now rewrite Hd', Hd.
  - erewrite bind_raise_eq by exact Eget.
    cbn [snd] in *. destruct Hframe as (_ & Hl & Hc & Hd & _ & Hcalls).
    repeat split.
    + exists []. split; [|reflexivity]. now rewrite Hl.
    + exists []. split; [|constructor]. now rewrite Hcalls.
    + now rewrite Hc.
    + now rewrite Hd.
Qed.

Lemma pages_turned_nil (s : Main.Scraper W) : pages_turned [] s s.
Proof.
  repeat split; try (exists []; rewrite app_nil_r; repeat split; constructor).
Qed.

Lemma pages_turned_cons (page : Z) (visited : list Z) (s s1 s2 : Main.Scraper W) :
  page_turn page s s1 -> pages_turned visited s1 s2 ->
  pages_turned (page :: visited) s s2.
Proof.
  intros ((notes & Hn & Nn) & (cs & Hcs & Pcs) & Hc & Hd)
         ((lines & Hl & Fl) & (cs' & Hcs' & Gcs' & Qcs' & Ccs') & Hc' & Hd').
  destruct (page_calls_quiet cs Pcs) as [Gcs Qcs].
  repeat split; try congruence.
  - exists (Main.opened_line page (Main.page_url (Main.config s) page) :: notes ++ lines).
    split.
    + rewrite Hl, Hn, <- app_assoc. reflexivity.
    + cbn [filter map].
      replace (is_opened (Main.opened_line page (Main.page_url (Main.config s) page)))
        with true by reflexivity.
      rewrite filter_app, (notes_not_opened notes Nn), Fl, Hc. reflexivity.
  - exists (CGet (Main.page_url (Main.config s) page) :: cs ++ cs'). repeat split.
    + rewrite Hcs', Hcs, <- app_assoc. reflexivity.
    + cbn [gets flat_map]. fold (gets (cs ++ cs')).
      rewrite gets_app, Gcs, Gcs', Hc. reflexivity.
    + change (quits (CGet (Main.page_url (Main.config s) page) :: cs ++ cs'))
        with (quits (cs ++ cs')).
      now rewrite quits_app, Qcs, Qcs'.
    + constructor; [exact I|]. apply Forall_app. split; [|exact Ccs'].
      eapply Forall_impl; [|exact Pcs]. intros c. now destruct c.
Qed.

(** The loop stops at the first page that does not report success and
    visits the pages before it in order. *)
Lemma run_loop_turns (pages : list Z) (s : Main.Scraper W) :
  exists visited rest,
    pages = visited ++ rest /\
    pages_turned visited s (snd (Main.run_loop pages s)).
Proof.
  revert s. induction pages as [|page pages IH]; intros s.
  - exists [], []. split; [reflexivity | apply pages_turned_nil].
  - cbn [Main.run_loop]. pose proof (process_page_turn page s) as Hp.
    unfold bind. destruct (Main._process_page page s) as [[ok|ex] s1]; cbn [snd] in *.
    + destruct ok; cbn [negb].
      * destruct (IH s1) as (visited & rest & -> & Hv).
        exists (page :: visited), rest. split; [reflexivity|].
        eapply pages_turned_cons; eassumption.
      * exists [page], pages. split; [reflexivity|].
        eapply pages_turned_cons; [eassumption | apply pages_turned_nil].
    + exists [page], pages. split; [reflexivity|].
      eapply pages_turned_cons; [eassumption | apply pages_turned_nil].
Qed.

End Pages.

(* ===================================================================== *)
(** ** The release of the browser *)
(* ===================================================================== *)

Section Release.

Context {U : Unicode} {W : Type} {B : Browser W}.

Lemma close_without_driver (s : Main.Scraper W) :
  Main._driver s = None -> Main.close s = (Ret tt, s).
Proof.
  intros H. unfold Main.close, bind, Main.self_driver. now rewrite H.
Qed.

(** With a driver, [close] asks for one [quit], forgets the driver, and
    raises only what is not an [Exception]. *)
Lemma close_with_driver (s : Main.Scraper W) (d : unit) :
  Main._driver s = Some d ->
  let s' := snd (Main.close s) in
  Main._driver s' = None /\
  calls (Main.env s') = calls (Main.env s) ++ [CQuit] /\
  files (Main.env s') = files (Main.env s) /\
  Main.places s' = Main.places s /\ Main.logs s' = Main.logs s /\
  Main.config s' = Main.config s /\
  match fst (quit (world (Main.env s))) with
  | Ret _ => fst (Main.close s) = Ret tt
  | Raise ex =>
      fst (Main.close s) = if is_Exception ex then Ret tt else Raise ex
  end.
Proof.
  intros H. unfold Main.close, bind, Main.self_driver. rewrite H.
  unfold try_finally, try_except, Main.outside, do_call, Main.set_driver, ret.
  destruct (quit (world (Main.env s))) as [[[]|ex] w']; cbn.
  - repeat split.
  - destruct (is_Exception ex); cbn; repeat split.
Qed.

Lemma ensure_driver_fresh (cfg : Main.ParserConfig) (e : Env W) :
  let s0 := Main.new cfg e in
  let s1 := snd (Main._ensure_driver s0) in
  calls (Main.env s1) = calls e ++ [CChrome (Main.headless cfg)] /\
  files (Main.env s1) = files e /\
  Main.places s1 = [] /\ Main.logs s1 = [] /\ Main.config s1 = cfg /\
  match fst (chrome (Main.headless cfg) (world e)) with
  | Ret _ => fst (Main._ensure_driver s0) = Ret tt /\ Main._driver s1 = Some tt
  | Raise ex => fst (Main._ensure_driver s0) = Raise ex /\ Main._driver s1 = None
  end.
Proof.
  unfold Main._ensure_driver, bind, Main.self_driver, Main.self_config,
    Main.outside, Main._build_driver, do_call, Main.set_driver. cbn.
  destruct (chrome (Main.headless cfg) (world e)) as [[[]|ex] w']; cbn; repeat split.
Qed.

(** [run], step by step: the driver, the loop, the release, the result. *)
Lemma run_unfold (s0 s1 : Main.Scraper W) :
  Main._ensure_driver s0 = (Ret tt, s1) ->
  Main.run s0 =
  let '(r, s2) := Main.run_loop (py_range 1 (Main.total_pages (Main.config s1) + 1)) s1 in
  let '(rc, s3) := Main.close s2 in
  (match rc with
   | Raise ex => Raise ex
   | Ret _ =>
       match r with
       | Ret _ => Ret (Main.places s3, Main.logs s3)
       | Raise ex => Raise ex
       end
   end, s3).
Proof.
  intros H. unfold Main.run. rewrite (bind_ret_eq _ _ _ _ _ H).
  rewrite (bind_ret_eq _ _ s1 s1 (Main.config s1)) by reflexivity.
  unfold bind at 1. unfold try_finally.
  destruct (Main.run_loop _ s1) as [r s2].
  destruct (Main.close s2) as [[[]|ex] s3]; [|reflexivity].
  destruct r as [[]|ex]; reflexivity.
Qed.

End Release.

Section ScriptTrace.

Context {U : Unicode} {W : Type} {B : Browser W}.

Ltac page_prim := first [ apply emits_write | apply emits_call; exact I ].

Lemma script_is_protect_screen : keeps (emits page_call) Script.is_protect_screen.
Proof. unfold Script.is_protect_screen. keeps_structure page_prim. Qed.

Lemma script_wait_candidates (t : Z) (sels : list pystr) :
  keeps (emits page_call) (Script.wait_candidates t sels).
Proof.
  induction sels as [|sel rest IH]; simpl.
  - keeps_step keeps_raise.
  - keeps_step keeps_try_except; [page_prim | exact IH].
Qed.

Lemma script_gentle_scroll : keeps (emits page_call) Script.gentle_scroll.
Proof.
  unfold Script.gentle_scroll, Script.human_sleep. keeps_structure page_prim.
Qed.

Lemma script_collect_from (sels : list pystr) :
  keeps (emits page_call) (Script.collect_from sels).
Proof.
  induction sels as [|sel rest IH]; simpl.
  - keeps_step keeps_ret.
  - keeps_step keeps_bind; [page_prim|]. intros items.
    destruct items; [exact IH | keeps_step keeps_ret].
Qed.

Lemma script_poll_redirect (n : nat) :
  keeps (emits page_call) (Script.poll_redirect n).
Proof.
  induction n as [|n IH]; simpl.
  - keeps_step keeps_ret.
  - keeps_step keeps_bind; [unfold Script.fixed_sleep; page_prim|]. intros _.
    keeps_step keeps_bind; [apply script_is_protect_screen|]. intros p.
    destruct p; simpl; [exact IH | keeps_step keeps_ret].
Qed.

Lemma script_save_partial (ps : list Place) (ls : list pystr) (suffix : pystr) :
  keeps (@emits W page_call) (Script.save_partial ps ls suffix).
Proof. unfold Script.save_partial. keeps_structure page_prim. Qed.

Lemma step_outside {A} (m : M (Env W) A) :
  keeps (emits page_call) m -> keeps inside_step (Script.outside m).
Proof.
  intros H s. specialize (H (Script.l_env s)). unfold Script.outside.
  destruct (m (Script.l_env s)) as [r e']. simpl in *.
  split; [assumption|]. exists []. now rewrite app_nil_r.
Qed.

Lemma step_same (s s' : Script.Locals W) :
  Script.l_env s' = Script.l_env s -> Script.l_logs s' = Script.l_logs s ->
  inside_step s s'.
Proof.
  intros He Hl. split.
  - rewrite He. reflexivity.
  - exists []. now rewrite app_nil_r.
Qed.

Lemma step_note (line : pystr) :
  is_note line = true -> keeps (@inside_step W) (Script.logs_append line).
Proof.
  intros H s. simpl. split; [reflexivity|].
  exists [line]. split; [reflexivity|]. simpl. now rewrite H.
Qed.

Ltac step_all :=
  keeps_structure
    ltac:(first
            [ apply step_outside;
              first [ apply script_is_protect_screen | apply script_wait_candidates
                    | apply script_gentle_scroll | apply script_collect_from
                    | apply script_poll_redirect | apply script_save_partial
                    | unfold Script.human_sleep, Script.fixed_sleep; page_prim ]
            | apply step_note; reflexivity
            | let s := fresh "s" in intros s; apply step_same; reflexivity ]).

Lemma script_outside_call_frame {A} (c : call) (f : W -> outcome A * W)
    (s : Script.Locals W) :
  let s' := snd (Script.outside (do_call c f) s) in
  Script.l_places s' = Script.l_places s /\ Script.l_logs s' = Script.l_logs s /\
  files (Script.l_env s') = files (Script.l_env s) /\
  calls (Script.l_env s') = calls (Script.l_env s) ++ [c].
Proof.
  unfold Script.outside, do_call. simpl.
  destruct (f (world (Script.l_env s))) as [r w']. simpl. repeat split.
Qed.

Lemma page_step_turn (g : Script.Settings) (page : Z) (s : Script.Locals W) :
  step_turn g page s (snd (Script.page_step g page s)).
Proof.
  unfold Script.page_step.
  erewrite (bind_ret_eq (Script.logs_append _)) by reflexivity.
  match goal with
  | |- context [bind (Script.outside ?m) ?k ?s1] =>
      pose proof (script_outside_call_frame
                    (CGet (Script.page_url g page)) (get (Script.page_url g page)) s1)
        as Hframe;
      destruct (Script.outside m s1) as [[[]|ex] s2] eqn:Eget
  end.
  - erewrite bind_ret_eq by exact Eget.
    cbn [snd] in Hframe. destruct Hframe as (_ & Hl & _ & Hcalls).
    match goal with
    | |- context [bind ?m ?k s2] =>
        assert (K : keeps inside_step (bind m k)) by step_all;
        specialize (K s2); destruct (bind m k s2) as [r s']
    end.
    cbn [snd] in *. destruct K as ((cs & Hcs & Pcs) & (notes & Hn & Nn)).
    split.
    + exists notes. split; [|exact Nn].
      rewrite Hn, Hl. cbn [Script.l_logs]. now rewrite <- app_assoc.
    + exists cs. split; [|exact Pcs].
      rewrite Hcs, Hcalls. cbn [Script.l_env]. now rewrite <- app_assoc.
  - erewrite bind_raise_eq by exact Eget.
    cbn [snd] in *. destruct Hframe as (_ & Hl & _ & Hcalls).
    split.
    + exists []. split; [|reflexivity]. now rewrite Hl.
    + exists []. split; [|constructor]. now rewrite Hcalls.
Qed.

Lemma steps_turned_nil (g : Script.Settings) (s : Script.Locals W) :
  steps_turned g [] s s.
Proof. split; exists []; rewrite app_nil_r; repeat split. Qed.

Lemma steps_turned_cons (g : Script.Settings) (page : Z) (visited : list Z)
    (s s1 s2 : Script.Locals W) :
  step_turn g page s s1 -> steps_turned g visited s1 s2 ->
  steps_turned g (page :: visited) s s2.
Proof.
  intros ((notes & Hn & Nn) & (cs & Hcs & Pcs))
         ((lines & Hl & Fl) & (cs' & Hcs' & Gcs' & Qcs')).
  destruct (page_calls_quiet cs Pcs) as [Gcs Qcs].
  split.
  - exists (script_opened_line g page :: notes ++ lines). split.
    + rewrite Hl, Hn, <- app_assoc. reflexivity.
    + cbn [filter map].
      replace (is_opened (script_opened_line g page)) with true by reflexivity.
      rewrite filter_app, (notes_not_opened notes Nn), Fl. reflexivity.
  - exists (CGet (Script.page_url g page) :: cs ++ cs'). repeat split.
    + rewrite Hcs', Hcs, <- app_assoc. reflexivity.
    + cbn [gets flat_map]. fold (gets (cs ++ cs')).
      rewrite gets_app, Gcs, Gcs'. reflexivity.
    + change (quits (CGet (Script.page_url g page) :: cs ++ cs'))
        with (quits (cs ++ cs')).
      now rewrite quits_app, Qcs, Qcs'.
Qed.

Lemma pages_loop_turns (g : Script.Settings) (pages : list Z) (s : Script.Locals W) :
  exists visited rest,
    pages = visited ++ rest /\
    steps_turned g visited s (snd (Script.pages_loop g pages s)).
Proof.
  revert s. induction pages as [|page pages IH]; intros s.
  - exists [], []. split; [reflexivity | apply steps_turned_nil].
  - cbn [Script.pages_loop]. pose proof (page_step_turn g page s) as Hp.
    unfold bind. destruct (Script.page_step g page s) as [[ok|ex] s1]; cbn [snd] in *.
    + destruct ok; cbn [negb].
      * destruct (IH s1) as (visited & rest & -> & Hv).
        exists (page :: visited), rest. split; [reflexivity|].
        eapply steps_turned_cons; eassumption.
      * exists [page], pages. split; [reflexivity|].
        eapply steps_turned_cons; [eassumption | apply steps_turned_nil].
    + exists [page], pages. split; [reflexivity|].
      eapply steps_turned_cons; [eassumption | apply steps_turned_nil].
Qed.

End ScriptTrace.

Section ReleaseRun.

Context {U : Unicode} {W : Type} {B : Browser W}.

Lemma script_release_spec (s : Script.Locals W) :
  let s' := snd (script_release s) in
  calls (Script.l_env s') = calls (Script.l_env s) ++ [CQuit] /\
  Script.l_places s' = Script.l_places s /\ Script.l_logs s' = Script.l_logs s /\
  match fst (quit (world (Script.l_env s))) with
  | Ret _ => fst (script_release s) = Ret tt
  | Raise ex => fst (script_release s) = if is_Exception ex then Ret tt else Raise ex
  end.
Proof.
  unfold script_release, try_except, Script.outside, do_call, ret.
  destruct (quit (world (Script.l_env s))) as [[[]|ex] w']; cbn.
  - repeat split.
  - destruct (is_Exception ex); cbn; repeat split.
Qed.

Lemma run_released (cfg : Main.ParserConfig) (e : Env W) (x : unit) :
  fst (chrome (Main.headless cfg) (world e)) = Ret x ->
  let s1 := snd (Main._ensure_driver (Main.new cfg e)) in
  let loop := Main.run_loop (py_range 1 (Main.total_pages cfg + 1)) s1 in
  let final := snd (Main.run (Main.new cfg e)) in
  Main._driver final = None /\
  calls (Main.env final) = calls (Main.env (snd loop)) ++ [CQuit] /\
  quits (calls (Main.env (snd loop))) = quits (calls e) /\
  quits (calls (Main.env final)) = (quits (calls e) + 1)%nat /\
  Main.places final = Main.places (snd loop) /\
  Main.logs final = Main.logs (snd loop) /\
  ((forall ex, fst (quit (world (Main.env (snd loop)))) = Raise ex ->
               is_Exception ex = true) ->
   fst (Main.run (Main.new cfg e)) =
   match fst loop with
   | Ret _ => Ret (Main.places (snd loop), Main.logs (snd loop))
   | Raise ex => Raise ex
   end).
Proof.
  intros Hc. cbv zeta.
  pose proof (ensure_driver_fresh cfg e) as (Hcalls & _ & _ & _ & Hcfg & Hd).
  cbv zeta in *. rewrite Hc in Hd. destruct Hd as [Hr Hd].
  destruct (Main._ensure_driver (Main.new cfg e)) as [r1 s1] eqn:E1.
  cbn [fst snd] in *. subst r1.
  rewrite (run_unfold _ _ E1), Hcfg.
  destruct (run_loop_turns (py_range 1 (Main.total_pages cfg + 1)) s1)
    as (visited & rest & _ & _ & (cs & Hcs & _ & Qcs & _) & _ & Hd2).
  destruct (Main.run_loop _ s1) as [r s2]. cbn [fst snd] in *.
  rewrite Hd in Hd2.
  pose proof (close_with_driver s2 tt Hd2) as (Hn & Hq & _ & Hp & Hl & _ & Hres).
  cbv zeta in *.
  destruct (Main.close s2) as [rc s3]. cbn [fst snd] in *.
  assert (Hloopq : quits (calls (Main.env s2)) = quits (calls e)).
  { rewrite Hcs, Hcalls, !quits_app, Qcs. cbn. lia. }
  repeat split; try assumption.
  - rewrite Hq, quits_app, Hloopq. reflexivity.
  - intros Hex. destruct (fst (quit (world (Main.env s2)))) as [[]|ex] eqn:Eq.
    + subst rc. destruct r as [[]|?]; cbn; now rewrite ?Hp, ?Hl.
    + rewrite (Hex ex eq_refl) in Hres. subst rc.
      destruct r as [[]|?]; cbn; now rewrite ?Hp, ?Hl.
Qed.

Lemma run_without_session (cfg : Main.ParserConfig) (e : Env W) (ex : exn) :
  fst (chrome (Main.headless cfg) (world e)) = Raise ex ->
  fst (Main.run (Main.new cfg e)) = Raise ex /\
  quits (calls (Main.env (snd (Main.run (Main.new cfg e))))) = quits (calls e).
Proof.
  intros Hc.
  pose proof (ensure_driver_fresh cfg e) as (Hcalls & _ & _ & _ & _ & Hd).
  cbv zeta in *. rewrite Hc in Hd. destruct Hd as [Hr _].
  destruct (Main._ensure_driver (Main.new cfg e)) as [r1 s1] eqn:E1.
  cbn [fst snd] in *. subst r1.
  unfold Main.run. rewrite (bind_raise_eq _ _ _ _ _ E1). cbn [fst snd].
  split; [reflexivity|]. rewrite Hcalls, quits_app. cbn. lia.
Qed.

Lemma scrape_released (g : Script.Settings) (e : Env W) (x : unit) :
  fst (chrome (Script.HEADLESS g) (world e)) = Ret x ->
  let s0 := {| Script.l_places := []; Script.l_logs := [];
               Script.l_env := snd (Script.build_driver g e) |} in
  let loop := Script.pages_loop g (py_range 1 (Script.TOTAL_PAGES g + 1)) s0 in
  let final := snd (Script.scrape_all_pages g e) in
  calls final = calls (Script.l_env (snd loop)) ++ [CQuit] /\
  quits (calls (Script.l_env (snd loop))) = quits (calls e) /\
  quits (calls final) = (quits (calls e) + 1)%nat /\
  ((forall ex, fst (quit (world (Script.l_env (snd loop)))) = Raise ex ->
               is_Exception ex = true) ->
   fst (Script.scrape_all_pages g e) =
   match fst loop with
   | Ret _ => Ret (Script.l_places (snd loop), Script.l_logs (snd loop))
   | Raise ex => Raise ex
   end).
Proof.
  intros Hc. cbv zeta. unfold Script.scrape_all_pages.
  assert (Hb : calls (snd (Script.build_driver g e))
               = calls e ++ [CChrome (Script.HEADLESS g)] /\
               fst (Script.build_driver g e) = Ret x).
  { unfold Script.build_driver, do_call.
    destruct (chrome (Script.HEADLESS g) (world e)) as [r w']. cbn in *. now subst r. }
  destruct Hb as [Hcalls Hr].
  destruct (Script.build_driver g e) as [r0 e0]. cbn [fst snd] in *. subst r0.
  set (s0 := {| Script.l_places := []; Script.l_logs := []; Script.l_env := e0 |}).
  fold script_release. unfold try_finally.
  destruct (pages_loop_turns g (py_range 1 (Script.TOTAL_PAGES g + 1)) s0)
    as (visited & rest & _ & _ & (cs & Hcs & _ & Qcs)).
  destruct (Script.pages_loop g _ s0) as [r s2]. cbn [fst snd] in *.
  pose proof (script_release_spec s2) as (Hq & Hp & Hl & Hres). cbv zeta in *.
  destruct (script_release s2) as [rc s3]. cbn [fst snd] in *.
  assert (Hloopq : quits (calls (Script.l_env s2)) = quits (calls e)).
  { rewrite Hcs. subst s0. cbn [Script.l_env]. rewrite Hcalls, !quits_app, Qcs.
    cbn. lia. }
  assert (Hfinal : calls
            (snd (match rc with
                  | Ret _ =>
                      match r with
                      | Ret _ => (Ret (Script.l_places s3, Script.l_logs s3), Script.l_env s3)
                      | Raise ex => (@Raise (list Place * list pystr) ex, Script.l_env s3)
                      end
                  | Raise ex => (Raise ex, Script.l_env s3)
                  end)) = calls (Script.l_env s3)).
  { destruct rc as [[]|?]; [destruct r as [[]|?]|]; reflexivity. }
  assert (Hshape :
            (match (match rc with Ret _ => (r, s3) | Raise ex => (Raise ex, s3) end) with
             | (Ret _, s) => (Ret (Script.l_places s, Script.l_logs s), Script.l_env s)
             | (Raise ex, s) => (Raise ex, Script.l_env s)
             end)
            = (match rc with
               | Ret _ =>
                   match r with
                   | Ret _ => (Ret (Script.l_places s3, Script.l_logs s3), Script.l_env s3)
                   | Raise ex => (@Raise (list Place * list pystr) ex, Script.l_env s3)
                   end
               | Raise ex => (Raise ex, Script.l_env s3)
               end)).
  { destruct rc as [[]|?]; [destruct r as [[]|?]|]; reflexivity. }
  rewrite Hshape, Hfinal.
  repeat split; try assumption.
  - rewrite Hq, quits_app, Hloopq. reflexivity.
  - intros Hex. destruct (fst (quit (world (Script.l_env s2)))) as [[]|ex] eqn:Eq.
    + subst rc. destruct r as [[]|?]; cbn; now rewrite ?Hp, ?Hl.
    + rewrite (Hex ex eq_refl) in Hres. subst rc.
      destruct r as [[]|?]; cbn; now rewrite ?Hp, ?Hl.
Qed.

End ReleaseRun.

(** C8. The browser is released whatever the loop does.  Once the session
    exists, [run] and [scrape_all_pages] end with exactly one release request,
    made after the loop whether it returned, stopped early or raised; when the
    release raises an [Exception] the result of the run is the one of the loop
    (its records and log, or its fault).  Without a session (the browser could
    not be started) nothing is released.  A scraper that was released holds no
    driver, and asking again does nothing. *)
Theorem session_released (U : Unicode) (W : Type) (B : Browser W) :
  (forall s : Main.Scraper W,
     Main._driver s = None -> Main.close s = (Ret tt, s)) /\
  (forall (s : Main.Scraper W) d,
     Main._driver s = Some d ->
     let s' := snd (Main.close s) in
     Main._driver s' = None /\
     calls (Main.env s') = calls (Main.env s) ++ [CQuit] /\
     Main.close s' = (Ret tt, s') /\
     (forall ex, fst (quit (world (Main.env s))) = Raise ex ->
                 is_Exception ex = true -> fst (Main.close s) = Ret tt)) /\
  (forall cfg (e : Env W) ex,
     fst (chrome (Main.headless cfg) (world e)) = Raise ex ->
     fst (Main.run (Main.new cfg e)) = Raise ex /\
     quits (calls (Main.env (snd (Main.run (Main.new cfg e))))) = quits (calls e)) /\
  (forall cfg (e : Env W) x,
     fst (chrome (Main.headless cfg) (world e)) = Ret x ->
     let s1 := snd (Main._ensure_driver (Main.new cfg e)) in
     let loop := Main.run_loop (py_range 1 (Main.total_pages cfg + 1)) s1 in
     let final := snd (Main.run (Main.new cfg e)) in
     Main._driver final = None /\
     calls (Main.env final) = calls (Main.env (snd loop)) ++ [CQuit] /\
     quits (calls (Main.env (snd loop))) = quits (calls e) /\
     quits (calls (Main.env final)) = (quits (calls e) + 1)%nat /\
     ((forall ex, fst (quit (world (Main.env (snd loop)))) = Raise ex ->
                  is_Exception ex = true) ->
      fst (Main.run (Main.new cfg e)) =
      match fst loop with
      | Ret _ => Ret (Main.places (snd loop), Main.logs (snd loop))
      | Raise ex => Raise ex
      end)) /\
  (forall g (e : Env W) x,
     fst (chrome (Script.HEADLESS g) (world e)) = Ret x ->
     let s0 := {| Script.l_places := []; Script.l_logs := [];
                  Script.l_env := snd (Script.build_driver g e) |} in
     let loop := Script.pages_loop g (py_range 1 (Script.TOTAL_PAGES g + 1)) s0 in
     let final := snd (Script.scrape_all_pages g e) in
     calls final = calls (Script.l_env (snd loop)) ++ [CQuit] /\
     quits (calls (Script.l_env (snd loop))) = quits (calls e) /\
     quits (calls final) = (quits (calls e) + 1)%nat /\
     ((forall ex, fst (quit (world (Script.l_env (snd loop)))) = Raise ex ->
                  is_Exception ex = true) ->
      fst (Script.scrape_all_pages g e) =
      match fst loop with
      | Ret _ => Ret (Script.l_places (snd loop), Script.l_logs (snd loop))
      | Raise ex => Raise ex
      end)).
Proof.
  split; [exact close_without_driver|].
  split.
  { intros s d Hd.
    pose proof (close_with_driver s d Hd) as (Hn & Hq & _ & _ & _ & _ & Hres).
    cbv zeta in *. repeat split; try assumption.
    - now apply close_without_driver.
    - intros ex Hex Hcls. rewrite Hex in Hres. now rewrite Hcls in Hres. }
  split; [exact run_without_session|].
  split.
  { intros cfg e x Hc.
    pose proof (run_released cfg e x Hc) as (H1 & H2 & H3 & H4 & _ & _ & H5).
    cbv zeta in *. repeat split; assumption. }
  intros g e x Hc. exact (scrape_released g e x Hc).
Qed.

Lemma session_released_witness :
  let cfg := config_pages 3 false in
  let e := sim_env world_faulty in
  let s1 := snd (@Main._ensure_driver Sim SimBrowser (Main.new cfg e)) in
  let loop := @Main.run_loop SmallUnicode Sim SimBrowser
                (py_range 1 (Main.total_pages cfg + 1)) s1 in
  fst (chrome (Main.headless cfg) (world e)) = Ret tt /\
  fst (quit (world (Main.env (snd loop)))) = Raise OSError /\
  fst loop = Raise WebDriverException /\
  fst (@Main.run SmallUnicode Sim SimBrowser (Main.new cfg e)) = Raise WebDriverException /\
  quits (calls (Main.env (snd (@Main.run SmallUnicode Sim SimBrowser (Main.new cfg e)))))
  = 1%nat.
Proof.
  intros cfg e s1 loop.
  assert (Hc : fst (chrome (Main.headless cfg) (world e)) = Ret tt) by reflexivity.
  assert (Hq : fst (quit (world (Main.env (snd loop)))) = Raise OSError)
    by (vm_compute; reflexivity).
  assert (Hl : fst loop = Raise WebDriverException) by (vm_compute; reflexivity).
  destruct (session_released SmallUnicode Sim SimBrowser) as (_ & _ & _ & Hrun & _).
  destruct (Hrun cfg e tt Hc) as (_ & _ & _ & Hone & Hres).
  fold s1 in Hres. fold loop in Hres.
  split; [exact Hc|]. split; [exact Hq|]. split; [exact Hl|]. split.
  - rewrite Hres.
    + now rewrite Hl.
    + intros ex Hex. rewrite Hq in Hex. now injection Hex as <-.
  - exact Hone.
Defined.

(* ===================================================================== *)
(** ** One line per opened page *)
(* ===================================================================== *)

Section Opened.

Context {U : Unicode} {W : Type} {B : Browser W}.


Lemma main_with_persists (cfg : Main.ParserConfig) (e : Env W) :
  fst (Main.main_with cfg e) = Ret tt ->
  read_file (files (snd (Main.main_with cfg e))) (Main.log_filename cfg)
  = Some (TextFile (join NEWLINE (Main.logs (snd (Main.run (Main.new cfg e)))))).
Proof.
  unfold Main.main_with.
  destruct (Main.run (Main.new cfg e)) as [[[ps history]|ex] s] eqn:E; [|discriminate].
  intros _. apply run_returns in E as [_ ->].
  unfold bind, write. cbn [fst snd files]. apply read_write_same.
Qed.


End Opened.



(* ===================================================================== *)
(** ** Runs on the browser in memory *)
(* ===================================================================== *)

Section SimSteps.

Context {U : Unicode}.

Lemma yields_ret {A} (w : Sim) (v : A) : yields w (ret v) v.
Proof. intros e He. now exists e. Qed.

Lemma yields_bind {A C} (w : Sim) (m : M (Env Sim) A) (k : A -> M (Env Sim) C)
    (v : A) (v' : C) :
  yields w m v -> yields w (k v) v' -> yields w (bind m k) v'.
Proof.
  intros Hm Hk e He. destruct (Hm e He) as (e1 & E1 & W1 & F1).
  destruct (Hk e1 W1) as (e2 & E2 & W2 & F2).
  exists e2. rewrite (bind_ret_eq _ _ _ _ _ E1). repeat split; congruence.
Qed.

Lemma yields_call {A} (w : Sim) (c : call) (f : Sim -> outcome A * Sim) (v : A) :
  f w = (Ret v, w) -> yields w (do_call c f) v.
Proof.
  intros Hf e He. unfold do_call. rewrite He, Hf. eexists. repeat split.
Qed.

Lemma fails_call {A} (w : Sim) (c : call) (f : Sim -> outcome A * Sim) (ex : exn) :
  f w = (Raise ex, w) -> fails w (do_call c f) ex.
Proof.
  intros Hf e He. unfold do_call. rewrite He, Hf. eexists. repeat split.
Qed.

Lemma fails_bind {A C} (w : Sim) (m : M (Env Sim) A) (k : A -> M (Env Sim) C)
    (ex : exn) :
  fails w m ex -> fails w (bind m k) ex.
Proof.
  intros Hm e He. destruct (Hm e He) as (e1 & E1 & W1 & F1).
  exists e1. now rewrite (bind_raise_eq _ _ _ _ _ E1).
Qed.

Lemma yields_try {A} (w : Sim) (m h : M (Env Sim) A) (caught : exn -> bool) (v : A) :
  yields w m v -> yields w (try_except m caught h) v.
Proof.
  intros Hm e He. destruct (Hm e He) as (e1 & E1 & W1 & F1).
  exists e1. unfold try_except. now rewrite E1.
Qed.

Lemma yields_except {A} (w : Sim) (m h : M (Env Sim) A) (caught : exn -> bool)
    (ex : exn) (v : A) :
  fails w m ex -> caught ex = true -> yields w h v ->
  yields w (try_except m caught h) v.
Proof.
  intros Hm Hc Hh e He. destruct (Hm e He) as (e1 & E1 & W1 & F1).
  destruct (Hh e1 W1) as (e2 & E2 & W2 & F2).
  exists e2. unfold try_except. rewrite E1, Hc. repeat split; congruence.
Qed.

Lemma yields_for_each {A} (w : Sim) (xs : list A) (body : A -> M (Env Sim) unit) :
  (forall x, yields w (body x) tt) -> yields w (for_each xs body) tt.
Proof.
  intros Hb. induction xs as [|x xs IH]; simpl.
  - apply yields_ret.
  - eapply yields_bind; [apply Hb | exact IH].
Qed.

Lemma yields_for_each_in {A} (w : Sim) (xs : list A) (body : A -> M (Env Sim) unit) :
  (forall x, In x xs -> yields w (body x) tt) -> yields w (for_each xs body) tt.
Proof.
  induction xs as [|x xs IH]; intros Hb; simpl.
  - apply yields_ret.
  - eapply yields_bind; [apply Hb; now left|].
    apply IH. intros y Hy. apply Hb. now right.
Qed.

Lemma yields_pure {A} (w : Sim) (o : outcome A) (v : A) :
  o = Ret v -> yields w (pure_ o) v.
Proof. intros -> e He. now exists e. Qed.

Lemma sim_humanized_sleep (w : Sim) (b : Q * Q) : yields w (Main.humanized_sleep b) tt.
Proof. apply yields_call. reflexivity. Qed.

Lemma sim_is_protect_screen (w : Sim) :
  yields w Main._is_protect_screen (challenged (sp_source (here w))).
Proof.
  unfold Main._is_protect_screen.
  eapply yields_bind; [apply yields_call; reflexivity | apply yields_ret].
Qed.

Lemma sim_wait_candidates (w : Sim) (t : Z) (sels : list pystr) :
  yields w (Main.wait_candidates t sels) (existsb (sp_present (here w)) sels).
Proof.
  induction sels as [|sel rest IH]; simpl.
  - apply yields_ret.
  - destruct (sp_present (here w) sel) eqn:E; simpl.
    + apply yields_try. eapply yields_bind; [|apply yields_ret].
      apply yields_call. unfold wait_presence, SimBrowser, sim_wait.
      fold (here w). now rewrite E.
    + eapply yields_except; [| |exact IH].
      * apply fails_bind, fails_call.
        unfold wait_presence, SimBrowser, sim_wait. fold (here w). now rewrite E.
      * reflexivity.
Qed.

Lemma sim_gentle_scroll (w : Sim) (cfg : Main.ParserConfig) :
  yields w (Main._gentle_scroll cfg) tt.
Proof.
  unfold Main._gentle_scroll.
  eapply yields_bind; [apply yields_call; reflexivity|].
  eapply yields_bind; [apply yields_call; reflexivity|].
  eapply yields_bind.
  - apply yields_for_each_in. intros idx Hin. apply in_py_range in Hin.
    match goal with
    | |- context [scroll_offset ?h idx ?n] =>
        destruct (scroll_offset_returns h idx n) as [y Hy];
          [lia | vm_compute; reflexivity |]
    end.
    eapply yields_bind; [apply yields_pure; exact Hy|].
    eapply yields_bind; [apply yields_call; reflexivity | apply sim_humanized_sleep].
  - eapply yields_bind; [apply yields_call; reflexivity | apply sim_humanized_sleep].
Qed.

Lemma sim_collect_from (w : Sim) (sels : list pystr) :
  yields w (Main.collect_from sels) (sim_collect (here w) sels).
Proof.
  induction sels as [|sel rest IH]; simpl.
  - apply yields_ret.
  - eapply yields_bind; [apply yields_call; reflexivity|].
    fold (here w). destruct (sp_cards (here w) sel); [exact IH | apply yields_ret].
Qed.

(** Lifting to the methods of the scraper. *)
Lemma outside_yields {A} (m : M (Env Sim) A) (v : A) (s : Main.Scraper Sim) :
  yields (world (Main.env s)) m v ->
  exists s', Main.outside m s = (Ret v, s') /\ same_inside s s'.
Proof.
  intros H. destruct (H (Main.env s) eq_refl) as (e' & E & Hw & Hf).
  unfold Main.outside. rewrite E. eexists. split; [reflexivity|].
  repeat split; assumption.
Qed.

Lemma same_inside_refl (s : Main.Scraper Sim) : same_inside s s.
Proof. repeat split. Qed.

Lemma same_inside_trans (a b c : Main.Scraper Sim) :
  same_inside a b -> same_inside b c -> same_inside a c.
Proof.
  intros (A1 & A2 & A3 & A4 & A5 & A6) (B1 & B2 & B3 & B4 & B5 & B6).
  repeat split; congruence.
Qed.

(** A page that shows no challenge passes the handler at once. *)
Lemma sim_handle_clear (page : Z) (s : Main.Scraper Sim) :
  challenged (sp_source (here (world (Main.env s)))) = false ->
  exists s', Main._handle_protect_screen page s = (Ret true, s') /\ same_inside s s'.
Proof.
  intros Hc. unfold Main._handle_protect_screen.
  rewrite (bind_ret_eq _ _ s s (Main.config s)) by reflexivity.
  destruct (outside_yields _ _ s (sim_is_protect_screen (world (Main.env s))))
    as (s1 & E1 & H1).
  rewrite (bind_ret_eq _ _ _ _ _ E1), Hc. now exists s1.
Qed.

Lemma sim_container_found (page : Z) (s : Main.Scraper Sim) :
  existsb (sp_present (here (world (Main.env s)))) Main.CONTAINER_SELECTORS = true ->
  exists s', Main._wait_cards_container page s = (Ret true, s') /\ same_inside s s'.
Proof.
  intros Hc. unfold Main._wait_cards_container.
  rewrite (bind_ret_eq _ _ s s (Main.config s)) by reflexivity.
  destruct (outside_yields _ _ s
              (sim_wait_candidates (world (Main.env s))
                 (Main.wait_timeout (Main.config s)) Main.CONTAINER_SELECTORS))
    as (s1 & E1 & H1).
  rewrite (bind_ret_eq _ _ _ _ _ E1), Hc. now exists s1.
Qed.

End SimSteps.

Section AppendCards.

Context {U : Unicode} {W : Type} {B : Browser W}.

Lemma append_loop_spec (cards : list Card) (parsed : list Place) (s : Main.Scraper W) :
  Forall2 (fun c p => _parse_card c = Ret p) cards parsed ->
  for_each cards
    (fun card =>
       bind (pure_ (_parse_card card))
         (fun place =>
            if truthy (name place) then Main.places_append place else ret tt)) s
  = (Ret tt,
     {| Main.config := Main.config s; Main.places := Main.places s ++ kept parsed;
        Main.logs := Main.logs s; Main._driver := Main._driver s;
        Main.env := Main.env s |}).
Proof.
  intros H. revert s. induction H as [|c p cards parsed Hc _ IH]; intros s.
  - simpl. unfold kept. simpl. rewrite app_nil_r. now destruct s.
  - cbn [for_each]. unfold bind at 1. unfold bind at 1. unfold pure_ at 1.
    rewrite Hc. unfold kept. cbn [filter].
    destruct (truthy (name p)).
    + cbn. rewrite IH. cbn. now rewrite <- app_assoc.
    + cbn. rewrite IH. destruct s; reflexivity.
Qed.

(** The cards of a page, once parsed: the records with a name are appended
    in order and counted. *)
Lemma append_cards_spec (cards : list Card) (parsed : list Place) (s : Main.Scraper W) :
  Forall2 (fun c p => _parse_card c = Ret p) cards parsed ->
  Main._append_cards cards s
  = (Ret (Z.of_nat (List.length (kept parsed))),
     {| Main.config := Main.config s; Main.places := Main.places s ++ kept parsed;
        Main.logs := Main.logs s; Main._driver := Main._driver s;
        Main.env := Main.env s |}).
Proof.
  intros H. unfold Main._append_cards.
  rewrite (bind_ret_eq _ _ s s (Main.places s)) by reflexivity.
  rewrite (bind_ret_eq _ _ _ _ _ (append_loop_spec cards parsed s H)).
  unfold bind, Main.self_places, ret. cbn. do 2 f_equal.
  rewrite length_app. lia.
Qed.

End AppendCards.

Section SimPages.

Context {U : Unicode}.

Lemma sim_get_ok (url : pystr) (s : Main.Scraper Sim) :
  get_fault (world (Main.env s)) url = None ->
  exists s',
    Main.outside (do_call (CGet url) (get url)) s = (Ret tt, s') /\
    Main.config s' = Main.config s /\ Main.places s' = Main.places s /\
    Main.logs s' = Main.logs s /\ Main._driver s' = Main._driver s /\
    world (Main.env s') = sim_goto (world (Main.env s)) url /\
    files (Main.env s') = files (Main.env s).
Proof.
  intros H. unfold Main.outside, do_call, get, SimBrowser, sim_get. rewrite H.
  eexists. split; [reflexivity|]. repeat split.
Qed.

(** The common start of a page that loads, shows no challenge and has its
    container: the state in which the cards are collected. *)
Lemma sim_page_reaches_cards (page : Z) (s : Main.Scraper Sim)
    (k : list Card -> M (Main.Scraper Sim) bool) :
  let w := world (Main.env s) in
  let url := Main.page_url (Main.config s) page in
  get_fault w url = None ->
  challenged (sp_source (site w url)) = false ->
  existsb (sp_present (site w url)) Main.CONTAINER_SELECTORS = true ->
  exists s1,
    Main.config s1 = Main.config s /\ Main.places s1 = Main.places s /\
    Main.logs s1 = Main.logs s ++ [Main.opened_line page url] /\
    Main._driver s1 = Main._driver s /\
    world (Main.env s1) = sim_goto w url /\ files (Main.env s1) = files (Main.env s) /\
    Main._process_page page s
    = match sim_collect (site w url) Main.CARD_SELECTORS with
      | [] => bind (Main.logs_append (Main.no_cards_line page)) (fun _ => ret false) s1
      | cards =>
          bind (Main._append_cards cards)
            (fun added =>
               bind Main.self_places
                 (fun ps =>
                    bind (Main.logs_append
                            (Main.page_line page (Z.of_nat (List.length cards)) added
                               (Z.of_nat (List.length ps))))
                      (fun _ =>
                         bind (Main._save_partial page)
                           (fun _ =>
                              bind (Main.outside
                                      (Main.humanized_sleep
                                         (Main.page_sleep (Main.config s))))
                                (fun _ => ret true))))) s1
      end.
Proof.
  intros w url Hget Hclear Hcont. unfold Main._process_page.
  rewrite (bind_ret_eq _ _ s s (Main.config s)) by reflexivity. fold url.
  erewrite (bind_ret_eq (Main.logs_append _)) by reflexivity.
  match goal with
  | |- context [bind (Main.outside (do_call (CGet url) (get url))) _ ?s0] =>
      destruct (sim_get_ok url s0 Hget) as (s1 & E1 & C1 & P1 & L1 & D1 & W1 & F1)
  end.
  rewrite (bind_ret_eq _ _ _ _ _ E1). cbn [Main.config Main.places Main.logs Main._driver Main.env] in C1, P1, L1, D1, W1, F1.
  fold w in W1.
  assert (Hhere : forall s', world (Main.env s') = sim_goto w url ->
                              here (world (Main.env s')) = site w url).
  { intros s' ->. reflexivity. }
  destruct (outside_yields _ _ s1
              (sim_humanized_sleep (world (Main.env s1))
                 (Main.initial_sleep (Main.config s))))
    as (s2 & E2 & H2).
  rewrite (bind_ret_eq _ _ _ _ _ E2).
  destruct H2 as (C2 & P2 & L2 & D2 & W2 & F2).
  destruct (sim_handle_clear page s2) as (s3 & E3 & H3).
  { rewrite Hhere by congruence. exact Hclear. }
  rewrite (bind_ret_eq _ _ _ _ _ E3). cbn [negb].
  destruct H3 as (C3 & P3 & L3 & D3 & W3 & F3).
  destruct (sim_container_found page s3) as (s4 & E4 & H4).
  { rewrite Hhere by congruence. exact Hcont. }
  rewrite (bind_ret_eq _ _ _ _ _ E4). cbn [negb].
  destruct H4 as (C4 & P4 & L4 & D4 & W4 & F4).
  destruct (outside_yields _ _ s4
              (sim_gentle_scroll (world (Main.env s4)) (Main.config s)))
    as (s5 & E5 & H5).
  rewrite (bind_ret_eq _ _ _ _ _ E5).
  destruct H5 as (C5 & P5 & L5 & D5 & W5 & F5).
  destruct (outside_yields _ _ s5
              (sim_collect_from (world (Main.env s5)) Main.CARD_SELECTORS))
    as (s6 & E6 & H6).
  unfold Main._collect_cards. rewrite (bind_ret_eq _ _ _ _ _ E6).
  destruct H6 as (C6 & P6 & L6 & D6 & W6 & F6).
  rewrite Hhere by congruence.
  exists s6.
  split; [congruence|]. split; [congruence|]. split; [congruence|].
  split; [congruence|]. split; [congruence|]. split; [congruence|].
  destruct (sim_collect (site w url) Main.CARD_SELECTORS); reflexivity.
Qed.

(** A page with cards: processed, its records kept, two lines logged. *)
Lemma sim_page_processed (page : Z) (s : Main.Scraper Sim)
    (cards : list Card) (parsed : list Place) :
  let w := world (Main.env s) in
  let url := Main.page_url (Main.config s) page in
  get_fault w url = None ->
  challenged (sp_source (site w url)) = false ->
  existsb (sp_present (site w url)) Main.CONTAINER_SELECTORS = true ->
  sim_collect (site w url) Main.CARD_SELECTORS = cards -> cards <> [] ->
  Forall2 (fun c p => _parse_card c = Ret p) cards parsed ->
  exists s',
    Main._process_page page s = (Ret true, s') /\
    Main.config s' = Main.config s /\ Main._driver s' = Main._driver s /\
    Main.places s' = Main.places s ++ kept parsed /\
    Main.logs s' =
      Main.logs s ++
      [ Main.opened_line page url;
        Main.page_line page (Z.of_nat (List.length cards))
          (Z.of_nat (List.length (kept parsed)))
          (Z.of_nat (List.length (Main.places s ++ kept parsed))) ] /\
    world (Main.env s') = sim_goto w url.
Proof.
  intros w url Hget Hclear Hcont Hcards Hne Hparsed.
  destruct (sim_page_reaches_cards page s (fun _ => ret true) Hget Hclear Hcont)
    as (s1 & C1 & P1 & L1 & D1 & W1 & F1 & E).
  fold w url in E. rewrite Hcards in E.
  destruct cards as [|c cards]; [contradiction|].
  rewrite (bind_ret_eq _ _ _ _ _ (append_cards_spec _ _ s1 Hparsed)) in E.
  erewrite (bind_ret_eq Main.self_places) in E by reflexivity.
  erewrite (bind_ret_eq (Main.logs_append _)) in E by reflexivity.
  match type of E with
  | context [bind (Main._save_partial page) _ ?s2] =>
      destruct (save_partial_spec page s2)
        as (s3 & E3 & P3 & L3 & C3 & D3 & _ & W3 & _)
  end.
  rewrite (bind_ret_eq _ _ _ _ _ E3) in E.
  cbn [Main.config Main.places Main.logs Main._driver Main.env] in P3, L3, C3, D3, W3.
  destruct (outside_yields _ _ s3
              (sim_humanized_sleep (world (Main.env s3))
                 (Main.page_sleep (Main.config s))))
    as (s4 & E4 & C4 & P4 & L4 & D4 & W4 & F4).
  rewrite (bind_ret_eq _ _ _ _ _ E4) in E.
  exists s4. split; [exact E|].
  split; [congruence|]. split; [congruence|]. split; [|split].
  - rewrite P4, P3, P1. reflexivity.
  - rewrite L4, L3, L1, P1, <- app_assoc. reflexivity.
  - rewrite W4, W3. exact W1.
Qed.

(** A page without card: the loop is told to stop, one more line. *)
Lemma sim_page_without_cards (page : Z) (s : Main.Scraper Sim) :
  let w := world (Main.env s) in
  let url := Main.page_url (Main.config s) page in
  get_fault w url = None ->
  challenged (sp_source (site w url)) = false ->
  existsb (sp_present (site w url)) Main.CONTAINER_SELECTORS = true ->
  sim_collect (site w url) Main.CARD_SELECTORS = [] ->
  exists s',
    Main._process_page page s = (Ret false, s') /\
    Main.config s' = Main.config s /\ Main._driver s' = Main._driver s /\
    Main.places s' = Main.places s /\
    Main.logs s' = Main.logs s ++ [Main.opened_line page url; Main.no_cards_line page] /\
    world (Main.env s') = sim_goto w url.
Proof.
  intros w url Hget Hclear Hcont Hcards.
  destruct (sim_page_reaches_cards page s (fun _ => ret true) Hget Hclear Hcont)
    as (s1 & C1 & P1 & L1 & D1 & W1 & F1 & E).
  fold w url in E. rewrite Hcards in E.
  eexists. split; [exact E|]. cbn.
  repeat split; try assumption.
  rewrite L1, <- app_assoc. reflexivity.
Qed.

End SimPages.

(* ===================================================================== *)
(** ** The scenario: two cards, then none *)
(* ===================================================================== *)

Section Scenario.

Context {U : Unicode}.

Lemma process_page_gets {W} {B : Browser W} (page : Z) (s s' : Main.Scraper W)
    (r : outcome bool) :
  Main._process_page page s = (r, s') ->
  gets (calls (Main.env s')) = gets (calls (Main.env s)) ++ [Main.page_url (Main.config s) page].
Proof.
  intros E. pose proof (process_page_turn page s) as (_ & (cs & Hcs & Pcs) & _).
  rewrite E in Hcs. cbn [snd] in Hcs.
  rewrite Hcs, gets_app. cbn [gets flat_map]. fold (gets cs).
  now rewrite (proj1 (page_calls_quiet cs Pcs)).
Qed.

Lemma scenario_run (w : Sim) (cfg : Main.ParserConfig) (c1 c2 : Card) (p1 p2 : Place) :
  let url1 := Main.page_url cfg 1 in
  let url2 := Main.page_url cfg 2 in
  let lines := [ Main.opened_line 1 url1; Main.page_line 1 2 2 2;
                 Main.opened_line 2 url2; Main.no_cards_line 2 ] in
  Main.total_pages cfg = 3 ->
  get_fault w url1 = None -> get_fault w url2 = None ->
  challenged (sp_source (site w url1)) = false ->
  challenged (sp_source (site w url2)) = false ->
  existsb (sp_present (site w url1)) Main.CONTAINER_SELECTORS = true ->
  existsb (sp_present (site w url2)) Main.CONTAINER_SELECTORS = true ->
  sim_collect (site w url1) Main.CARD_SELECTORS = [c1; c2] ->
  sim_collect (site w url2) Main.CARD_SELECTORS = [] ->
  _parse_card c1 = Ret p1 -> _parse_card c2 = Ret p2 ->
  name p1 <> [] -> name p2 <> [] ->
  match quit_fault w with Some ex => is_Exception ex = true | None => True end ->
  exists final,
    Main.run (Main.new cfg (sim_env w)) = (Ret ([p1; p2], lines), final) /\
    Main.places final = [p1; p2] /\ Main.logs final = lines /\
    gets (calls (Main.env final)) = [url1; url2] /\
    quits (calls (Main.env final)) = 1%nat.
Proof.
  intros url1 url2 lines Htotal G1 G2 C1 C2 K1 K2 S1 S2 P1 P2 N1 N2 HQ.
  set (s1 := {| Main.config := cfg; Main.places := []; Main.logs := [];
                Main._driver := Some tt;
                Main.env := {| world := w; calls := [CChrome (Main.headless cfg)];
                               files := [] |} |}).
  assert (E1 : Main._ensure_driver (Main.new cfg (sim_env w)) = (Ret tt, s1))
    by reflexivity.
  rewrite (run_unfold _ _ E1). cbn [Main.config s1]. rewrite Htotal.
  change (py_range 1 (3 + 1)) with [1; 2; 3].
  (* page 1 *)
  assert (Hkept : kept [p1; p2] = [p1; p2]).
  { unfold kept. cbn [filter]. destruct (name p1); [easy|]. destruct (name p2); easy. }
  destruct (sim_page_processed 1 s1 [c1; c2] [p1; p2])
    as (s2 & E2 & Cf2 & D2 & Pl2 & L2 & W2); try assumption; try discriminate.
  { repeat constructor; assumption. }
  rewrite Hkept in Pl2, L2. cbn [s1 Main.places Main.logs Main.config app] in Pl2, L2, Cf2.
  change (Z.of_nat (List.length [c1; c2])) with 2 in L2.
  change (Z.of_nat (List.length [p1; p2])) with 2 in L2.
  cbn [s1 Main.env world Main._driver Main.config] in W2, D2.
  pose proof (process_page_gets 1 s1 s2 _ E2) as Gt2.
  cbn [s1 Main.env calls Main.config gets flat_map app] in Gt2.
  (* page 2 *)
  destruct (sim_page_without_cards 2 s2)
    as (s3 & E3 & Cf3 & D3 & Pl3 & L3 & W3);
    try (rewrite ?W2, ?Cf2; cbn [sim_goto site get_fault]; assumption).
  pose proof (process_page_gets 2 s2 s3 _ E3) as Gt3.
  rewrite Cf2 in Gt3, L3. rewrite Gt2 in Gt3. cbn [app] in Gt3.
  (* the loop *)
  assert (Eloop : Main.run_loop [1; 2; 3] s1 = (Ret tt, s3)).
  { cbn [Main.run_loop]. rewrite (bind_ret_eq _ _ _ _ _ E2). cbn [negb].
    rewrite (bind_ret_eq _ _ _ _ _ E3). reflexivity. }
  rewrite Eloop.
  (* the release *)
  assert (Hd3 : Main._driver s3 = Some tt) by congruence.
  pose proof (close_with_driver s3 tt Hd3) as (Dn & Hq & _ & Hp & Hl & _ & Hres).
  cbv zeta in *.
  assert (Hquit : fst (Main.close s3) = Ret tt).
  { rewrite W3, W2 in Hres. unfold quit, SimBrowser, sim_quit in Hres.
    cbn [sim_goto quit_fault] in Hres.
    destruct (quit_fault w) as [ex|]; cbn [fst] in Hres; [|exact Hres].
    now rewrite HQ in Hres. }
  destruct (Main.close s3) as [rc s4]. cbn [fst snd] in *. subst rc.
  exists s4.
  assert (Hplaces : Main.places s4 = [p1; p2]) by congruence.
  assert (Hlogs : Main.logs s4 = lines).
  { rewrite Hl, L3, L2. reflexivity. }
  rewrite Hplaces, Hlogs. repeat split.
  - rewrite Hq, gets_app, Gt3. reflexivity.
  - rewrite Hq, quits_app.
    pose proof (run_loop_turns [1; 2; 3] s1)
      as (visited & rest & _ & _ & (cs & Hcs & _ & Qcs & _) & _).
    rewrite Eloop in Hcs. cbn [snd] in Hcs. rewrite Hcs, quits_app, Qcs. reflexivity.
Qed.

End Scenario.

(** C1 as the code runs it.  With three pages configured, a first page that
    yields two cards with a name and a second page that yields none, the run
    stops after the second page without asking for the third; it returns the
    two records, and its log, which [main] then persists, has exactly four
    lines: page 1 opened, page 1 processed (2 cards, 2 added, 2 in all),
    page 2 opened, page 2 without cards. *)
Theorem scenario_two_cards_then_none (U : Unicode) (w : Sim) (cfg : Main.ParserConfig)
    (c1 c2 : Card) (p1 p2 : Place) :
  let url1 := Main.page_url cfg 1 in
  let url2 := Main.page_url cfg 2 in
  let lines := [ Main.opened_line 1 url1; Main.page_line 1 2 2 2;
                 Main.opened_line 2 url2; Main.no_cards_line 2 ] in
  Main.total_pages cfg = 3 ->
  get_fault w url1 = None -> get_fault w url2 = None ->
  challenged (sp_source (site w url1)) = false ->
  challenged (sp_source (site w url2)) = false ->
  existsb (sp_present (site w url1)) Main.CONTAINER_SELECTORS = true ->
  existsb (sp_present (site w url2)) Main.CONTAINER_SELECTORS = true ->
  sim_collect (site w url1) Main.CARD_SELECTORS = [c1; c2] ->
  sim_collect (site w url2) Main.CARD_SELECTORS = [] ->
  _parse_card c1 = Ret p1 -> _parse_card c2 = Ret p2 ->
  name p1 <> [] -> name p2 <> [] ->
  match quit_fault w with Some ex => is_Exception ex = true | None => True end ->
  fst (Main.run (Main.new cfg (sim_env w))) = Ret ([p1; p2], lines) /\
  gets (calls (Main.env (snd (Main.run (Main.new cfg (sim_env w)))))) = [url1; url2] /\
  fst (Main.main_with cfg (sim_env w)) = Ret tt /\
  read_file (files (snd (Main.main_with cfg (sim_env w)))) (Main.log_filename cfg)
    = Some (TextFile (join NEWLINE lines)) /\
  List.length lines = 4%nat.
Proof.
  intros url1 url2 lines H1 H2 H3 H4 H5 H6 H7 H8 H9 H10 H11 H12 H13 H14.
  destruct (scenario_run w cfg c1 c2 p1 p2 H1 H2 H3 H4 H5 H6 H7 H8 H9 H10 H11 H12 H13 H14)
    as (final & Erun & Hp & Hl & Hg & _).
  fold url1 url2 lines in Erun, Hl, Hg.
  assert (Hmain : fst (Main.main_with cfg (sim_env w)) = Ret tt).
  { unfold Main.main_with. rewrite Erun. reflexivity. }
  split; [now rewrite Erun|]. split; [now rewrite Erun|].
  split; [exact Hmain|]. split; [|reflexivity].
  rewrite (main_with_persists cfg (sim_env w) Hmain), Erun. cbn [snd].
  now rewrite Hl.
Qed.

Lemma scenario_two_cards_then_none_witness :
  fst (@Main.run SmallUnicode Sim SimBrowser
         (Main.new (config_pages 3 false) (sim_env world_two_then_none)))
  = Ret ([place_a; place_b],
         [ Main.opened_line 1 base_url; Main.page_line 1 2 2 2;
           Main.opened_line 2 url_2; Main.no_cards_line 2 ]) /\
  gets (calls (Main.env (snd (@Main.run SmallUnicode Sim SimBrowser
         (Main.new (config_pages 3 false) (sim_env world_two_then_none))))))
  = [base_url; url_2].
Proof.
  assert (H1 : Main.total_pages (config_pages 3 false) = 3) by reflexivity.
  assert (H2 : get_fault world_two_then_none (Main.page_url (config_pages 3 false) 1) = None)
    by reflexivity.
  assert (H3 : get_fault world_two_then_none (Main.page_url (config_pages 3 false) 2) = None)
    by reflexivity.
  assert (H4 : @challenged SmallUnicode
                 (sp_source (site world_two_then_none
                               (Main.page_url (config_pages 3 false) 1))) = false)
    by (vm_compute; reflexivity).
  assert (H5 : @challenged SmallUnicode
                 (sp_source (site world_two_then_none
                               (Main.page_url (config_pages 3 false) 2))) = false)
    by (vm_compute; reflexivity).
  assert (H6 : existsb (sp_present (site world_two_then_none
                                      (Main.page_url (config_pages 3 false) 1)))
                 Main.CONTAINER_SELECTORS = true) by (vm_compute; reflexivity).
  assert (H7 : existsb (sp_present (site world_two_then_none
                                      (Main.page_url (config_pages 3 false) 2)))
                 Main.CONTAINER_SELECTORS = true) by (vm_compute; reflexivity).
  assert (H8 : sim_collect (site world_two_then_none
                              (Main.page_url (config_pages 3 false) 1))
                 Main.CARD_SELECTORS = [card_a; card_b]) by (vm_compute; reflexivity).
  assert (H9 : sim_collect (site world_two_then_none
                              (Main.page_url (config_pages 3 false) 2))
                 Main.CARD_SELECTORS = []) by (vm_compute; reflexivity).
  assert (H10 : @_parse_card SmallUnicode card_a = Ret place_a)
    by (vm_compute; reflexivity).
  assert (H11 : @_parse_card SmallUnicode card_b = Ret place_b)
    by (vm_compute; reflexivity).
  assert (H12 : name place_a <> []) by discriminate.
  assert (H13 : name place_b <> []) by discriminate.
  destruct (scenario_two_cards_then_none SmallUnicode world_two_then_none
              (config_pages 3 false) card_a card_b place_a place_b
              H1 H2 H3 H4 H5 H6 H7 H8 H9 H10 H11 H12 H13 I) as (R1 & R2 & _).
  split; [exact R1 | exact R2].
Defined.

(** C1 as stated fails: in the scenario (three pages configured, two named
    cards on page 1, none on page 2) the run stops after page 2 with two
    records, but the persisted log has four entries, not two. *)
Lemma scenario_log_entries_counterexample :
  let cfg := config_pages 3 false in
  let e := sim_env world_two_then_none in
  let final := snd (@Main.run SmallUnicode Sim SimBrowser (Main.new cfg e)) in
  Main.total_pages cfg = 3 /\
  sim_collect (site world_two_then_none base_url) Main.CARD_SELECTORS = [card_a; card_b] /\
  sim_collect (site world_two_then_none url_2) Main.CARD_SELECTORS = [] /\
  List.length (Main.places final) = 2%nat /\
  gets (calls (Main.env final)) = [base_url; url_2] /\
  List.length (Main.logs final) = 4%nat /\
  List.length (Main.logs final) <> 2%nat /\
  (exists content,
     read_file (files (snd (@Main.main_with SmallUnicode Sim SimBrowser cfg e)))
       (Main.log_filename cfg) = Some (TextFile content) /\
     entries_of content = 4%nat).
Proof.
  cbv zeta. repeat split; try (vm_compute; reflexivity).
  - vm_compute. discriminate.
  - eexists. split; vm_compute; reflexivity.
Qed.

(* ===================================================================== *)
(** ** A challenge that does not clear *)
(* ===================================================================== *)

Section Challenge.

Context {U : Unicode} {W : Type} {B : Browser W}.




End Challenge.




(* ===================================================================== *)
(** ** The two scripts side by side *)
(* ===================================================================== *)

Section Variants.

Context {U : Unicode}.



Context {W : Type} {B : Browser W}.


Lemma collect_from_same (sels : list pystr) (e : Env W) :
  Script.collect_from sels e = Main.collect_from sels e.
Proof.
  revert e. induction sels as [|sel rest IH]; intros e; [reflexivity|].
  cbn [Script.collect_from Main.collect_from]. unfold bind.
  destruct (do_call (CFindElements sel) (driver_find_elements sel) e) as [[items|ex] e1];
    [|reflexivity].
  destruct items; [apply IH | reflexivity].
Qed.

End Variants.




(* ===================================================================== *)
(** ** Further properties: the detector *)
(* ===================================================================== *)

Lemma starts_with_spec (needle hay : pystr) :
  starts_with needle hay = true <-> exists post, hay = needle ++ post.
Proof.
  revert hay. induction needle as [|a n IH]; intros hay; simpl.
  - split; [now exists hay | reflexivity].
  - destruct hay as [|b h].
    + split; [discriminate | now intros [post H]].
    + rewrite andb_true_iff, N.eqb_eq, IH. split.
      * intros [-> [post ->]]. now exists post.
      * intros [post [= -> ->]]. split; [reflexivity | now exists post].
Qed.

(** [needle in hay]: [needle] occurs somewhere in [hay]. *)
Lemma contains_spec (needle hay : pystr) :
  contains needle hay = true <-> exists pre post, hay = pre ++ needle ++ post.
Proof.
  induction hay as [|b h IH]; simpl.
  - rewrite orb_false_r, starts_with_spec. split.
    + intros [post H]. now exists [], post.
    + intros (pre & post & H). destruct pre; [now exists post|discriminate].
  - rewrite orb_true_iff, starts_with_spec, IH. split.
    + intros [[post H] | (pre & post & H)].
      * now exists [], post.
      * exists (b :: pre), post. simpl. now rewrite H.
    + intros (pre & post & H). destruct pre as [|c pre].
      * left. now exists post.
      * right. injection H as -> ->. now exists pre, post.
Qed.

(** X1. The detector reads the page source once and nothing else; it answers
    [True] exactly when the lower-cased source has one of the five markers as
    a substring, and a fault of the read is passed on.  Both scripts share
    it. *)
Theorem detector_spec (U : Unicode) (W : Type) (B : Browser W) (e : Env W) :
  let e' := snd (Main._is_protect_screen e) in
  calls e' = calls e ++ [CPageSource] /\
  files e' = files e /\
  world e' = snd (page_source (world e)) /\
  Script.is_protect_screen e = Main._is_protect_screen e /\
  match fst (page_source (world e)) with
  | Ret html =>
      exists b,
        fst (Main._is_protect_screen e) = Ret b /\
        (b = true <->
         exists marker pre post,
           In marker Main.PROTECT_TOKENS /\ lower html = pre ++ marker ++ post)
  | Raise ex => fst (Main._is_protect_screen e) = Raise ex
  end.
Proof.
  assert (Heq : Script.is_protect_screen e = Main._is_protect_screen e) by reflexivity.
  cbv zeta. split; [|split; [|split; [|split; [exact Heq|]]]]; clear Heq;
    unfold Main._is_protect_screen, bind, do_call, ret;
    destruct (page_source (world e)) as [[html|ex] w']; try reflexivity.
  - cbn [fst snd]. eexists. split; [reflexivity|].
    rewrite existsb_exists. split.
    + intros (marker & Hin & Hc). apply contains_spec in Hc as (pre & post & H).
      now exists marker, pre, post.
    + intros (marker & pre & post & Hin & H). exists marker. split; [exact Hin|].
      apply contains_spec. now exists pre, post.
Qed.

(* ===================================================================== *)
(** ** Further properties: the container and the cards *)
(* ===================================================================== *)

Section Container.

Context {U : Unicode} {W : Type} {B : Browser W}.

Lemma do_call_eq {A} (c : call) (f : W -> outcome A * W) (e : Env W) :
  do_call c f e
  = (fst (f (world e)),
     {| world := snd (f (world e)); calls := calls e ++ [c]; files := files e |}).
Proof. unfold do_call. now destruct (f (world e)). Qed.

(** The candidates are waited for in order, each with the same time-out,
    up to the first that is there; only [TimeoutException] moves on to the
    next one. *)
Lemma wait_candidates_calls (t : Z) (sels : list pystr) (e : Env W) :
  let r := fst (Main.wait_candidates t sels e) in
  let e' := snd (Main.wait_candidates t sels e) in
  files e' = files e /\
  exists k,
    (k <= List.length sels)%nat /\
    calls e' = calls e ++ map (CWait t) (firstn k sels) /\
    match r with
    | Ret true => (1 <= k)%nat
    | Ret false => k = List.length sels
    | Raise ex => is_Timeout ex = false /\ (1 <= k)%nat
    end.
Proof.
  cbv zeta. revert e. induction sels as [|sel rest IH]; intros e.
  - simpl. split; [reflexivity|]. exists 0%nat. simpl. now rewrite app_nil_r.
  - cbn [Main.wait_candidates]. unfold try_except, bind. rewrite do_call_eq.
    destruct (wait_presence t sel (world e)) as [[[]|ex] w1]; cbn [fst snd ret].
    + split; [reflexivity|]. exists 1%nat. cbn. repeat split; lia.
    + destruct (is_Timeout ex) eqn:Et.
      * match goal with
        | |- context [Main.wait_candidates t rest ?e1] =>
            destruct (IH e1) as (Hf & k & Hk & Hc & Hr)
        end.
        cbn [files calls] in Hf, Hc. split; [exact Hf|].
        exists (S k). split; [cbn; lia|]. split.
        { rewrite Hc, <- app_assoc. reflexivity. }
        destruct (fst (Main.wait_candidates t rest _)) as [[|]|ex'].
        -- lia.
        -- cbn. lia.
        -- split; [apply Hr | lia].
      * cbn [fst snd files calls]. split; [reflexivity|]. exists 1%nat.
        cbn. repeat split; try lia. exact Et.
Qed.

(** The selectors are asked in order up to the first that finds cards. *)
Lemma collect_from_calls (sels : list pystr) (e : Env W) :
  let r := fst (Main.collect_from sels e) in
  let e' := snd (Main.collect_from sels e) in
  files e' = files e /\
  exists k,
    (k <= List.length sels)%nat /\
    calls e' = calls e ++ map CFindElements (firstn k sels) /\
    match r with
    | Ret [] => k = List.length sels
    | Ret (_ :: _) => (1 <= k)%nat
    | Raise _ => (1 <= k)%nat
    end.
Proof.
  cbv zeta. revert e. induction sels as [|sel rest IH]; intros e.
  - simpl. split; [reflexivity|]. exists 0%nat. simpl. now rewrite app_nil_r.
  - cbn [Main.collect_from]. unfold bind. rewrite do_call_eq.
    destruct (driver_find_elements sel (world e)) as [[items|ex] w1]; cbn [fst snd ret].
    + destruct items as [|c items].
      * match goal with
        | |- context [Main.collect_from rest ?e1] =>
            destruct (IH e1) as (Hf & k & Hk & Hc & Hr)
        end.
        cbn [files calls] in Hf, Hc. split; [exact Hf|].
        exists (S k). split; [cbn; lia|]. split.
        { rewrite Hc, <- app_assoc. reflexivity. }
        destruct (fst (Main.collect_from rest _)) as [[|? ?]|ex']; cbn; lia.
      * cbn [fst snd files calls ret]. split; [reflexivity|]. exists 1%nat.
        cbn. repeat split; lia.
    + cbn [fst snd files calls]. split; [reflexivity|]. exists 1%nat.
      cbn. repeat split; lia.
Qed.

End Container.

(** X2. [_wait_cards_container] waits for the three container selectors in
    order, each with the configured time-out, and its answer is fixed by how
    these waits end.  The first wait that finds its element ends it: it
    returns [True] and logs nothing, and the later selectors are not waited
    for.  A wait that times out moves on to the next selector.  When all
    three time out it logs the missing container once and returns [False].
    Any other fault of a wait is raised at once, without a line.  It touches
    neither the records nor the files. *)
Theorem wait_cards_container_spec (U : Unicode) (W : Type) (B : Browser W)
    (page : Z) (s : Main.Scraper W) :
  let r := fst (Main._wait_cards_container page s) in
  let s' := snd (Main._wait_cards_container page s) in
  let t := Main.wait_timeout (Main.config s) in
  let missing := u "Стр. " ++ str_of_int page ++ u ": контейнер не найден — стоп" in
  Main.places s' = Main.places s /\ Main.config s' = Main.config s /\
  files (Main.env s') = files (Main.env s) /\
  exists k,
    (k <= 3)%nat /\
    calls (Main.env s') =
      calls (Main.env s) ++ map (CWait t) (firstn k Main.CONTAINER_SELECTORS) /\
    match r with
    | Ret true => (1 <= k)%nat /\ Main.logs s' = Main.logs s
    | Ret false => k = 3%nat /\ Main.logs s' = Main.logs s ++ [missing]
    | Raise ex => is_Timeout ex = false /\ Main.logs s' = Main.logs s
    end /\
    match wait_presence t (u "ul.js-results-group") (world (Main.env s)) with
    | (Ret _, w1) => r = Ret true /\ k = 1%nat /\ world (Main.env s') = w1
    | (Raise ex1, w1) =>
        if is_Timeout ex1 then
          match wait_presence t (u "div.catalog-list") w1 with
          | (Ret _, w2) => r = Ret true /\ k = 2%nat /\ world (Main.env s') = w2
          | (Raise ex2, w2) =>
              if is_Timeout ex2 then
                match wait_presence t (u "div.results-container") w2 with
                | (Ret _, w3) =>
                    r = Ret true /\ k = 3%nat /\ world (Main.env s') = w3
                | (Raise ex3, w3) =>
                    r = (if is_Timeout ex3 then Ret false else Raise ex3) /\
                    k = 3%nat /\ world (Main.env s') = w3
                end
              else r = Raise ex2 /\ k = 2%nat /\ world (Main.env s') = w2
          end
        else r = Raise ex1 /\ k = 1%nat /\ world (Main.env s') = w1
    end.
Proof.
  cbv zeta. unfold Main._wait_cards_container, Main.CONTAINER_SELECTORS.
  rewrite (bind_ret_eq _ _ s s (Main.config s)) by reflexivity.
  cbn [Main.wait_candidates].
  unfold bind, Main.outside, try_except. rewrite !do_call_eq. cbn [world calls files fst snd].
  destruct (wait_presence _ _ (world (Main.env s))) as [[[]|ex1] w1]; cbn [fst snd].
  { cbn. repeat split. exists 1%nat. cbn. repeat split; lia. }
  destruct (is_Timeout ex1) eqn:E1.
  2:{ cbn. repeat split. exists 1%nat. cbn. repeat split; try lia. exact E1. }
  rewrite !do_call_eq. cbn [world calls files fst snd].
  destruct (wait_presence _ _ w1) as [[[]|ex2] w2]; cbn [fst snd].
  { cbn. repeat split. exists 2%nat. cbn. rewrite <- app_assoc. repeat split; lia. }
  destruct (is_Timeout ex2) eqn:E2.
  2:{ cbn. repeat split. exists 2%nat. cbn. rewrite <- app_assoc.
      repeat split; try lia. exact E2. }
  rewrite !do_call_eq. cbn [world calls files fst snd].
  destruct (wait_presence _ _ w2) as [[[]|ex3] w3]; cbn [fst snd].
  { cbn. repeat split. exists 3%nat. cbn. rewrite <- !app_assoc. repeat split; lia. }
  destruct (is_Timeout ex3) eqn:E3.
  - cbn. repeat split. exists 3%nat. cbn. rewrite <- !app_assoc. repeat split; lia.
  - cbn. repeat split. exists 3%nat. cbn. rewrite <- !app_assoc.
    repeat split; try lia. exact E3.
Qed.

(** X3. [_collect_cards] asks for the two card selectors in order and
    returns what the first successful one found: one call when the first
    selector finds cards or fails, two when it finds none; an empty result
    means both were asked.  The script's [collect_cards] is the same
    function. *)
Theorem collect_cards_spec (U : Unicode) (W : Type) (B : Browser W) (e : Env W) :
  let r := fst (Main._collect_cards e) in
  let e' := snd (Main._collect_cards e) in
  Script.collect_cards e = Main._collect_cards e /\
  files e' = files e /\
  (exists k,
     (k <= 2)%nat /\
     calls e' = calls e ++ map CFindElements (firstn k Main.CARD_SELECTORS) /\
     match r with
     | Ret [] => k = 2%nat
     | Ret (_ :: _) => (1 <= k)%nat
     | Raise _ => (1 <= k)%nat
     end) /\
  match driver_find_elements (u "li.minicard-item.js-results-item") (world e) with
  | (Ret (c :: items), w1) => r = Ret (c :: items) /\ world e' = w1
  | (Ret [], w1) =>
      r = fst (driver_find_elements (u "div.minicard-item") w1) /\
      world e' = snd (driver_find_elements (u "div.minicard-item") w1)
  | (Raise ex, w1) => r = Raise ex /\ world e' = w1
  end.
Proof.
  cbv zeta. split; [apply collect_from_same|].
  pose proof (collect_from_calls Main.CARD_SELECTORS e) as (Hf & Hk).
  split; [exact Hf|]. split; [exact Hk|].
  unfold Main._collect_cards, Main.CARD_SELECTORS. cbn [Main.collect_from].
  unfold bind. rewrite do_call_eq.
  destruct (driver_find_elements _ (world e)) as [[[|c items]|ex] w1];
    cbn [fst snd world]; try (split; reflexivity).
  rewrite do_call_eq. cbn [world].
  destruct (driver_find_elements _ w1) as [[[|c items]|ex] w2]; split; reflexivity.
Qed.

(* ===================================================================== *)
(** ** Further properties: the name *)
(* ===================================================================== *)

Lemma extract_name_from_spec (card : Card) (sels : list pystr) :
  match extract_name_from card sels with
  | Ret [] => Forall (skipped card) sels
  | Ret (c :: n) =>
      exists before selector after e,
        sels = before ++ selector :: after /\
        Forall (skipped card) before /\
        find_element card selector = Ret e /\
        strip (text e) = c :: n
  | Raise ex =>
      is_NoSuchElement ex = false /\
      exists before selector after,
        sels = before ++ selector :: after /\
        Forall (skipped card) before /\
        find_element card selector = Raise ex
  end.
Proof.
  induction sels as [|sel rest IH]; cbn [extract_name_from]; [constructor|].
  destruct (find_element card sel) as [e|ex] eqn:E.
  - destruct (strip (text e)) as [|c n] eqn:Es; cbn [truthy].
    + assert (Hskip : skipped card sel) by (right; now exists e).
      destruct (extract_name_from card rest) as [[|c n]|ex].
      * now constructor.
      * destruct IH as (before & selector & after & e' & -> & Hb & He & Ht).
        exists (sel :: before), selector, after, e'. repeat split; try assumption.
        now constructor.
      * destruct IH as (Hn & before & selector & after & -> & Hb & He).
        split; [exact Hn|]. exists (sel :: before), selector, after.
        repeat split; try assumption. now constructor.
    + exists [], sel, rest, e. repeat split; try assumption. constructor.
  - destruct (is_NoSuchElement ex) eqn:En.
    + assert (Hskip : skipped card sel) by (left; now destruct ex).
      destruct (extract_name_from card rest) as [[|c n]|ex'].
      * now constructor.
      * destruct IH as (before & selector & after & e' & -> & Hb & He & Ht).
        exists (sel :: before), selector, after, e'. repeat split; try assumption.
        now constructor.
      * destruct IH as (Hn & before & selector & after & -> & Hb & He).
        split; [exact Hn|]. exists (sel :: before), selector, after.
        repeat split; try assumption. now constructor.
    + split; [exact En|]. exists [], sel, rest.
      repeat split; try assumption. constructor.
Qed.

(** X4. [_extract_name] gives the stripped text of the first title selector
    (in the order link, block title, h2) whose element has a text that is not
    blank: every selector before it found nothing or a blank text.  The name is
    empty exactly when all three are so.  The name never starts or ends with
    white space.  A missing element is never an error; any other fault of a
    lookup is raised as it is. *)
Theorem extract_name_spec (card : Card) :
  match _extract_name card with
  | Ret name =>
      trimmed is_space name /\
      (name = [] <-> Forall (skipped card) TITLE_SELECTORS) /\
      (name <> [] ->
       exists before selector after e,
         TITLE_SELECTORS = before ++ selector :: after /\
         Forall (skipped card) before /\
         find_element card selector = Ret e /\
         name = strip (text e))
  | Raise ex =>
      ex <> NoSuchElementException /\
      exists before selector after,
        TITLE_SELECTORS = before ++ selector :: after /\
        Forall (skipped card) before /\
        find_element card selector = Raise ex
  end.
Proof.
  unfold _extract_name.
  pose proof (extract_name_from_spec card TITLE_SELECTORS) as H.
  destruct (extract_name_from card TITLE_SELECTORS) as [[|c n]|ex].
  - split; [exact I|]. split; [tauto | intros Hne; contradiction].
  - destruct H as (before & selector & after & e & Hs & Hb & He & Ht).
    split; [|split].
    + rewrite <- Ht. unfold strip.
      destruct (strip_by_spec is_space (text e)) as (_ & _ & _ & _ & _ & Htr).
      exact Htr.
    + split; [discriminate|]. intros Hall. exfalso.
      rewrite Hs in Hall. apply Forall_app in Hall as [_ Hall].
      apply Forall_inv in Hall. destruct Hall as [Hn | (e' & He' & Ht')].
      * rewrite He in Hn. discriminate.
      * rewrite He in He'. injection He' as <-. rewrite Ht in Ht'. discriminate.
    + intros _. exists before, selector, after, e. now rewrite Ht.
  - destruct H as (Hn & before & selector & after & Hs & Hb & He).
    split; [now destruct ex|]. now exists before, selector, after.
Qed.

Lemma extract_name_spec_witness :
  _extract_name card_a = Ret (u "Кафе Сибирь") /\
  exists before selector after e,
    TITLE_SELECTORS = before ++ selector :: after /\
    Forall (skipped card_a) before /\
    find_element card_a selector = Ret e /\
    u "Кафе Сибирь" = strip (text e).
Proof.
  assert (E : _extract_name card_a = Ret (u "Кафе Сибирь")) by (vm_compute; reflexivity).
  pose proof (extract_name_spec card_a) as H. rewrite E in H.
  destruct H as (_ & _ & H). split; [exact E|]. apply H. discriminate.
Defined.

(* ===================================================================== *)
(** ** Further properties: what a page adds *)
(* ===================================================================== *)

Section RunGrowth.

Context {U : Unicode} {W : Type} {B : Browser W}.

Lemma grows_run : keeps (@grows W) Main.run.
Proof.
  unfold Main.run, Main._ensure_driver, Main.close.
  keeps_structure
    ltac:(first
            [ apply grows_run_loop
            | apply grows_outside
            | apply grows_logs_append
            | apply grows_places_append
            | let s := fresh "s" in
              intros s; repeat split; try (exists []; now rewrite app_nil_r) ]).
Qed.

Lemma grows_rows (s s' : Main.Scraper W) :
  grows s s' ->
  exists added lines,
    Main.places s' = Main.places s ++ added /\
    Main.logs s' = Main.logs s ++ lines /\
    data (df_from_places (Main.places s'))
    = data (df_from_places (Main.places s)) ++ map place_cells added.
Proof.
  intros ((added & Ha) & (lines & Hl) & _). exists added, lines.
  split; [exact Ha|]. split; [exact Hl|].
  now rewrite !df_from_places_data, Ha, map_app.
Qed.

End RunGrowth.

(** X5. The accumulator, the log and the saved table only grow: across a
    page, the loop or a whole run, and whether these return or raise, the
    records and the lines that were there stay in place and new ones come
    after them, so that the table of the records afterwards is the table
    before followed by the rows of the added records. *)
Theorem accumulator_append_only (U : Unicode) (W : Type) (B : Browser W)
    (s : Main.Scraper W) :
  (forall page,
     exists added lines,
       Main.places (snd (Main._process_page page s)) = Main.places s ++ added /\
       Main.logs (snd (Main._process_page page s)) = Main.logs s ++ lines /\
       data (df_from_places (Main.places (snd (Main._process_page page s))))
       = data (df_from_places (Main.places s)) ++ map place_cells added) /\
  (forall pages,
     exists added lines,
       Main.places (snd (Main.run_loop pages s)) = Main.places s ++ added /\
       Main.logs (snd (Main.run_loop pages s)) = Main.logs s ++ lines /\
       data (df_from_places (Main.places (snd (Main.run_loop pages s))))
       = data (df_from_places (Main.places s)) ++ map place_cells added) /\
  (exists added lines,
     Main.places (snd (Main.run s)) = Main.places s ++ added /\
     Main.logs (snd (Main.run s)) = Main.logs s ++ lines /\
     data (df_from_places (Main.places (snd (Main.run s))))
     = data (df_from_places (Main.places s)) ++ map place_cells added).
Proof.
  split; [|split].
  - intros page. apply grows_rows, grows_process_page.
  - intros pages. apply grows_rows, grows_run_loop.
  - apply grows_rows, grows_run.
Qed.

(* ===================================================================== *)
(** ** Further properties: a page that stops the run *)
(* ===================================================================== *)

#[export] Instance same_files_preorder {W} : PreOrder (@same_files W).
Proof. split; [intros e; reflexivity | intros a b c H1 H2; unfold same_files in *; congruence]. Qed.

#[export] Instance nothing_saved_preorder {W} : PreOrder (@nothing_saved W).
Proof.
  split; [intros s; split; reflexivity|].
  intros a b c [H1 H2] [H3 H4]. split; congruence.
Qed.

Section Hoare2.

Context {St : Type}.

Lemma hoare_conj {A} (P : St -> Prop) (m : M St A) (Q1 Q2 : A -> St -> Prop) :
  hoare P m Q1 -> hoare P m Q2 -> hoare P m (fun a s => Q1 a s /\ Q2 a s).
Proof.
  intros H1 H2 s Hs. specialize (H1 s Hs). specialize (H2 s Hs).
  destruct (m s) as [[a|e] s']; [now split | exact I].
Qed.

(** A kept preorder carries a relation to a fixed state forward. *)
Lemma hoare_kept {A} (R : St -> St -> Prop) `{!PreOrder R} (m : M St A) (s0 : St) :
  keeps R m -> hoare (R s0) m (fun _ => R s0).
Proof.
  intros H s Hs. specialize (H s).
  destruct (m s) as [[a|e] s']; [|exact I]. simpl in H. etransitivity; eassumption.
Qed.

End Hoare2.

(** A step that keeps a preorder, in a chain of steps. *)
Tactic Notation "hoare_keep" tactic3(tac) "as" simple_intropattern(x) :=
  eapply hoare_bind; [apply hoare_kept; [exact _ | tac] | intros x; cbv beta].

Section Abort.

Context {U : Unicode} {W : Type} {B : Browser W}.

Lemma quiet_call {A} (c : call) (f : W -> outcome A * W) :
  keeps same_files (do_call c f).
Proof. intros e. unfold do_call. now destruct (f (world e)). Qed.

Ltac quiet_prim := apply quiet_call.

Lemma quiet_is_protect_screen : keeps same_files Main._is_protect_screen.
Proof. unfold Main._is_protect_screen. keeps_structure quiet_prim. Qed.

Lemma quiet_wait_candidates (t : Z) (sels : list pystr) :
  keeps same_files (Main.wait_candidates t sels).
Proof. intros e. apply wait_candidates_calls. Qed.

Lemma quiet_collect_from (sels : list pystr) :
  keeps same_files (Main.collect_from sels).
Proof. intros e. apply collect_from_calls. Qed.

Lemma quiet_gentle_scroll (cfg : Main.ParserConfig) :
  keeps same_files (Main._gentle_scroll cfg).
Proof. unfold Main._gentle_scroll, Main.humanized_sleep. keeps_structure quiet_prim. Qed.

Lemma quiet_poll_redirect (cfg : Main.ParserConfig) (n : nat) :
  keeps same_files (Main.poll_redirect cfg n).
Proof.
  induction n as [|n IH]; simpl.
  - keeps_step keeps_ret.
  - unfold Main.humanized_sleep.
    keeps_structure ltac:(first [exact IH | apply quiet_is_protect_screen | quiet_prim]).
Qed.

Lemma quiet_poll_manual (cfg : Main.ParserConfig) (n : nat) :
  keeps same_files (Main.poll_manual cfg n).
Proof.
  induction n as [|n IH]; simpl.
  - keeps_step keeps_ret.
  - unfold Main.humanized_sleep.
    keeps_structure ltac:(first [exact IH | apply quiet_is_protect_screen | quiet_prim]).
Qed.

Lemma unsaved_outside {A} (m : M (Env W) A) :
  keeps same_files m -> keeps nothing_saved (Main.outside m).
Proof.
  intros H s. specialize (H (Main.env s)). unfold Main.outside.
  destruct (m (Main.env s)) as [r e']. now split.
Qed.

Ltac unsaved_prim :=
  first
    [ apply unsaved_outside;
      first [ apply quiet_is_protect_screen | apply quiet_wait_candidates
            | apply quiet_collect_from | apply quiet_gentle_scroll
            | apply quiet_poll_redirect | apply quiet_poll_manual
            | unfold Main.humanized_sleep; apply quiet_call
            | apply quiet_call ]
    | let s := fresh "s" in intros s; split; reflexivity ].

Lemma unsaved_handle (page : Z) :
  keeps (@nothing_saved W) (Main._handle_protect_screen page).
Proof. unfold Main._handle_protect_screen. keeps_structure unsaved_prim. Qed.

Lemma unsaved_wait (page : Z) :
  keeps (@nothing_saved W) (Main._wait_cards_container page).
Proof. unfold Main._wait_cards_container. keeps_structure unsaved_prim. Qed.

(** A page that tells the loop to stop has saved nothing. *)
Lemma abort_saves_nothing (page : Z) (s0 : Main.Scraper W) :
  hoare (nothing_saved s0) (Main._process_page page)
    (fun ok s' => ok = false -> nothing_saved s0 s').
Proof.
  unfold Main._process_page.
  hoare_keep unsaved_prim as cfg.
  hoare_keep unsaved_prim as ?.
  hoare_keep unsaved_prim as ?.
  hoare_keep unsaved_prim as ?.
  hoare_keep (apply unsaved_handle) as ok.
  destruct ok; cbn [negb]; [|apply hoare_ret; auto].
  hoare_keep (apply unsaved_wait) as found.
  destruct found; cbn [negb]; [|apply hoare_ret; auto].
  hoare_keep unsaved_prim as ?.
  hoare_keep unsaved_prim as cards.
  destruct cards as [|c cards].
  - hoare_keep unsaved_prim as ?. apply hoare_ret. auto.
  - hoare_skip as added. hoare_skip as ps. hoare_skip as ?. hoare_skip as ?.
    hoare_skip as ?. apply hoare_ret. discriminate.
Qed.

Lemma log_then_stop (P : Main.Scraper W -> Prop) (line : pystr) (reasons : list pystr) :
  In line reasons ->
  hoare P (bind (Main.logs_append line) (fun _ => ret false))
    (fun ok s' => ok = false -> ends_with_reason reasons s').
Proof. intros Hin s _. simpl. intros _. now exists (Main.logs s), line. Qed.

Lemma handle_reason (P : Main.Scraper W -> Prop) (page : Z) :
  hoare P (Main._handle_protect_screen page)
    (fun ok s' =>
       ok = false ->
       ends_with_reason [blocked_line page; blocked_manual_line page] s').
Proof.
  unfold Main._handle_protect_screen.
  hoare_skip as cfg. hoare_skip as p.
  destruct p; cbn [negb]; [|apply hoare_ret; discriminate].
  hoare_skip as ?. hoare_skip as cleared.
  destruct cleared; [apply hoare_ret; discriminate|].
  destruct (Main.headless cfg).
  - apply log_then_stop. left. reflexivity.
  - hoare_skip as ?. hoare_skip as ?. hoare_skip as cleared.
    destruct cleared; [apply hoare_ret; discriminate|].
    apply log_then_stop. right. left. reflexivity.
Qed.

Lemma wait_reason (P : Main.Scraper W -> Prop) (page : Z) :
  hoare P (Main._wait_cards_container page)
    (fun found s' => found = false -> ends_with_reason [no_container_line page] s').
Proof.
  unfold Main._wait_cards_container.
  hoare_skip as cfg. hoare_skip as found.
  destruct found; [apply hoare_ret; discriminate|].
  apply log_then_stop. left. reflexivity.
Qed.

Lemma abort_reason (page : Z) :
  hoare (fun _ : Main.Scraper W => True) (Main._process_page page)
    (fun ok s' =>
       ok = false ->
       ends_with_reason
         [ blocked_line page; blocked_manual_line page;
           no_container_line page; Main.no_cards_line page ] s').
Proof.
  unfold Main._process_page.
  hoare_skip as cfg. hoare_skip as ?. hoare_skip as ?. hoare_skip as ?.
  eapply hoare_bind; [apply handle_reason|]. intros ok.
  destruct ok; cbn [negb].
  2:{ apply hoare_ret. intros s H _. destruct (H eq_refl) as (b & r & Hl & Hin).
      exists b, r. split; [exact Hl|]. destruct Hin as [<-|[<-|[]]]; simpl; auto. }
  eapply hoare_bind; [apply wait_reason|].
  intros found. destruct found; cbn [negb].
  2:{ apply hoare_ret. intros s H _. destruct (H eq_refl) as (b & r & Hl & Hin).
      exists b, r. split; [exact Hl|]. destruct Hin as [<-|[]]; simpl; auto. }
  hoare_skip as ?. hoare_skip as cards.
  destruct cards as [|c cards].
  - apply log_then_stop. right. right. right. left. reflexivity.
  - hoare_skip as added. hoare_skip as ps. hoare_skip as ?. hoare_skip as ?.
    hoare_skip as ?. apply hoare_ret. discriminate.
Qed.

End Abort.

(** X6. A page that tells the loop to stop is a page that added nothing: the
    records and every file are as before it, so what was saved for the page
    before stays the latest partial output; and the last line of the log
    gives the reason, one of: challenge not passed (headless), challenge not
    passed after the manual confirmation, container not found, no cards. *)
Theorem aborted_page_adds_nothing (U : Unicode) (W : Type) (B : Browser W)
    (page : Z) (s s' : Main.Scraper W) :
  Main._process_page page s = (Ret false, s') ->
  Main.places s' = Main.places s /\
  files (Main.env s') = files (Main.env s) /\
  exists before reason,
    Main.logs s' = before ++ [reason] /\
    In reason [ blocked_line page; blocked_manual_line page;
                no_container_line page; Main.no_cards_line page ].
Proof.
  intros Hrun.
  pose proof (abort_saves_nothing page s s (reflexivity s)) as H1.
  pose proof (abort_reason page s I) as H2.
  rewrite Hrun in H1, H2. destruct (H1 eq_refl) as [Hp Hf].
  split; [exact Hp|]. split; [exact Hf|]. exact (H2 eq_refl).
Qed.

Lemma aborted_page_adds_nothing_witness :
  exists s s',
    @Main._process_page SmallUnicode Sim SimBrowser 2 s = (Ret false, s') /\
    Main.places s' = Main.places s /\
    List.length (Main.places s) = 2%nat /\
    exists before,
      Main.logs s' = before ++ [Main.no_cards_line 2].
Proof.
  set (s := snd (@Main._process_page SmallUnicode Sim SimBrowser 1
                   (Main.new (config_pages 3 false) (sim_env world_two_then_none)))).
  set (s' := snd (@Main._process_page SmallUnicode Sim SimBrowser 2 s)).
  assert (E : @Main._process_page SmallUnicode Sim SimBrowser 2 s = (Ret false, s'))
    by (vm_compute; reflexivity).
  exists s, s'. split; [exact E|].
  destruct (aborted_page_adds_nothing SmallUnicode Sim SimBrowser 2 s s' E) as (Hp & _ & _).
  split; [exact Hp|]. split; [vm_compute; reflexivity|].
  exists (removelast (Main.logs s')). vm_compute. reflexivity.
Defined.
(* ===================================================================== *)
(** ** Further properties: the names of the partial files *)
(* ===================================================================== *)

Lemma to_int_digits (n : Z) :
  Z.to_int n <> Decimal.Pos Decimal.Nil /\ Z.to_int n <> Decimal.Neg Decimal.Nil.
Proof.
  destruct n as [|p|p]; simpl; split; try discriminate;
    intros E; injection E as E; now apply (DecimalPos.Unsigned.to_uint_nonnil p).
Qed.

Lemma ascii_codes (l : list ascii) : map ascii_of_N (map N_of_ascii l) = l.
Proof.
  induction l as [|a l IH]; simpl; [reflexivity|].
  now rewrite ascii_N_embedding, IH.
Qed.

Lemma read_str_of_int (n : Z) : read_int (str_of_int n) = Some n.
Proof.
  unfold read_int, str_of_int.
  rewrite ascii_codes, string_of_list_ascii_of_string.
  destruct (to_int_digits n) as [H1 H2].
  rewrite NilZero.isi by assumption.
  simpl. now rewrite DecimalZ.of_to.
Qed.

Lemma py_range_has (a b x : Z) : a <= x < b -> In x (py_range a b).
Proof.
  intros H. unfold py_range. apply in_map_iff.
  exists (Z.to_nat (x - a)). split; [lia | apply in_seq; lia].
Qed.

(** The padded numerals, checked one by one. *)
Lemma read_padded :
  forallb (fun k => match read_int (format_02d k) with
                    | Some m => m =? k
                    | None => false
                    end) (py_range 0 10) = true.
Proof. vm_compute. reflexivity. Qed.

Lemma read_format_02d (n : Z) : read_int (format_02d n) = Some n.
Proof.
  destruct ((0 <=? n) && (n <? 10)) eqn:E.
  - apply andb_prop in E as [E1 E2].
    apply Z.leb_le in E1. apply Z.ltb_lt in E2.
    pose proof (proj1 (forallb_forall _ _) read_padded n
                  (py_range_has 0 10 n (conj E1 E2))) as H.
    cbv beta in H. destruct (read_int (format_02d n)) as [m|]; [|discriminate].
    apply Z.eqb_eq in H. now subst m.
  - unfold format_02d. rewrite E. apply read_str_of_int.
Qed.

Lemma format_02d_inj (p q : Z) : format_02d p = format_02d q -> p = q.
Proof.
  intros E. pose proof (read_format_02d p) as Hp.
  rewrite E, read_format_02d in Hp. congruence.
Qed.

Lemma partial_csv_name_inj (p q : Z) :
  Main.partial_csv_name p = Main.partial_csv_name q -> p = q.
Proof.
  unfold Main.partial_csv_name. intros E.
  apply app_inv_head in E. apply app_inv_tail in E. now apply format_02d_inj.
Qed.

Lemma partial_log_name_inj (p q : Z) :
  Main.partial_log_name p = Main.partial_log_name q -> p = q.
Proof.
  unfold Main.partial_log_name. intros E.
  apply app_inv_head in E. apply app_inv_tail in E. now apply format_02d_inj.
Qed.

Lemma partial_csv_not_log (p q : Z) :
  Main.partial_csv_name p <> Main.partial_log_name q.
Proof. unfold Main.partial_csv_name, Main.partial_log_name. simpl. discriminate. Qed.

(** X7. The suffix [f"{page:02d}"] of the partial files reads back to the
    page number, whatever the page (one digit padded with a zero, more
    digits or a sign left alone); so two different pages never share a
    partial CSV or a partial log, and no partial CSV is the partial log of
    any page.  The script builds its names in the same way. *)
Theorem partial_names_tell_pages (p q : Z) :
  p <> q ->
  read_int (format_02d p) = Some p /\
  Main.partial_csv_name p <> Main.partial_csv_name q /\
  Main.partial_log_name p <> Main.partial_log_name q /\
  Main.partial_csv_name p <> Main.partial_log_name q /\
  Main.partial_csv_name q <> Main.partial_log_name p /\
  u "zoon_tomsk_restaurants_page_" ++ format_02d p ++ u ".csv"
    <> u "zoon_tomsk_restaurants_page_" ++ format_02d q ++ u ".csv".
Proof.
  intros Hne. split; [apply read_format_02d|].
  split; [intros E; apply Hne; now apply partial_csv_name_inj|].
  split; [intros E; apply Hne; now apply partial_log_name_inj|].
  split; [apply partial_csv_not_log|].
  split; [apply partial_csv_not_log|].
  intros E; apply Hne; now apply partial_csv_name_inj.
Qed.

Lemma partial_names_tell_pages_witness :
  read_int (u "07") = Some 7 /\
  read_int (u "123") = Some 123 /\
  u "zoon_tomsk_restaurants_page_07.csv" <> u "zoon_tomsk_restaurants_page_123.csv".
Proof.
  assert (Hne : 7 <> 123) by lia.
  pose proof (partial_names_tell_pages 7 123 Hne) as (H1 & H2 & _).
  assert (Hne' : 123 <> 7) by lia.
  pose proof (partial_names_tell_pages 123 7 Hne') as (H3 & _).
  split; [exact H1|]. split; [exact H3|]. exact H2.
Defined.
(* ===================================================================== *)
(** ** Further properties: the partial files of a page outlive the run *)
(* ===================================================================== *)

#[export] Instance file_kept_preorder {W} (path : pystr) : PreOrder (@file_kept W path).
Proof.
  split; [intros s; reflexivity|].
  intros a b c H1 H2. unfold file_kept in *. congruence.
Qed.

Section Snapshots.

Context {U : Unicode} {W : Type} {B : Browser W}.

Variable path : pystr.

Lemma kept_outside {A} (m : M (Env W) A) :
  keeps same_files m -> keeps (file_kept path) (Main.outside m).
Proof.
  intros H s. specialize (H (Main.env s)). unfold Main.outside, file_kept.
  destruct (m (Main.env s)) as [r e']. simpl in *. now rewrite H.
Qed.

Lemma kept_write (name : pystr) (d : FileData) :
  name <> path -> keeps (@file_kept W path) (Main.outside (write name d)).
Proof.
  intros Hne s. unfold Main.outside, write, file_kept. simpl.
  apply read_write_other. congruence.
Qed.

Ltac kept_prim :=
  first
    [ apply kept_outside;
      first [ apply quiet_is_protect_screen | apply quiet_wait_candidates
            | apply quiet_collect_from | apply quiet_gentle_scroll
            | apply quiet_poll_redirect | apply quiet_poll_manual
            | unfold Main.humanized_sleep; apply quiet_call
            | apply quiet_call ]
    | let s := fresh "s" in intros s; reflexivity ].

(** A page writes its own two files and no other. *)
Lemma kept_process_page (page : Z) :
  Main.partial_csv_name page <> path ->
  Main.partial_log_name page <> path ->
  keeps (@file_kept W path) (Main._process_page page).
Proof.
  intros H1 H2.
  unfold Main._process_page, Main._handle_protect_screen,
    Main._wait_cards_container, Main._append_cards, Main._save_partial.
  keeps_structure ltac:(first [ apply kept_write; assumption | kept_prim ]).
Qed.

Lemma kept_run_loop (pages : list Z) :
  (forall page, In page pages ->
     Main.partial_csv_name page <> path /\ Main.partial_log_name page <> path) ->
  keeps (@file_kept W path) (Main.run_loop pages).
Proof.
  induction pages as [|page rest IH]; intros H; simpl.
  - keeps_step keeps_ret.
  - keeps_step keeps_bind.
    + apply kept_process_page; apply H; now left.
    + intros ok. destruct ok; simpl; [|keeps_step keeps_ret].
      apply IH. intros p Hp. apply H. now right.
Qed.

End Snapshots.

Section Survival.

Context {U : Unicode} {W : Type} {B : Browser W}.

(** After a page that was processed, its partial log holds the whole log. *)
Lemma process_page_saves_log (page : Z) :
  hoare (fun _ => True) (Main._process_page page)
    (fun ok s' =>
       ok = true ->
       read_file (files (Main.env s')) (Main.partial_log_name page)
       = Some (TextFile (join NEWLINE (Main.logs s')))).
Proof.
  unfold Main._process_page.
  hoare_skip as cfg. hoare_skip as ?. hoare_skip as ?. hoare_skip as ?.
  hoare_skip as ok.
  destruct ok; simpl; [|apply hoare_ret; discriminate].
  hoare_skip as found.
  destruct found; simpl; [|apply hoare_ret; discriminate].
  hoare_skip as ?. hoare_skip as cards.
  destruct cards as [|card cards].
  { hoare_skip as ?. apply hoare_ret. discriminate. }
  hoare_skip as added. hoare_skip as ps. hoare_skip as ?.
  eapply hoare_bind with
    (Q := fun _ s' =>
            read_file (files (Main.env s')) (Main.partial_log_name page)
            = Some (TextFile (join NEWLINE (Main.logs s')))).
  - intros s _. destruct (save_partial_spec page s)
      as (s' & -> & _ & Hl & _ & _ & _ & _ & Hf).
    rewrite Hf, Hl. apply read_write_same.
  - intros _. eapply hoare_bind with
      (Q := fun _ s' =>
              read_file (files (Main.env s')) (Main.partial_log_name page)
              = Some (TextFile (join NEWLINE (Main.logs s')))).
    + intros s Hs. unfold Main.humanized_sleep.
      pose proof (outside_call_frame
                    (CSleep (fst (Main.page_sleep cfg)) (snd (Main.page_sleep cfg)))
                    (sleep (fst (Main.page_sleep cfg)) (snd (Main.page_sleep cfg))) s)
        as (_ & Hl & _ & _ & Hf & _).
      destruct (Main.outside _ s) as [[[]|e] s']; [|exact I].
      simpl in *. now rewrite Hf, Hl.
    + intros _. apply hoare_ret. auto.
Qed.

Lemma later_pages_keep (page last : Z) (name : pystr) :
  name = Main.partial_csv_name page \/ name = Main.partial_log_name page ->
  keeps (@file_kept W name) (Main.run_loop (py_range (page + 1) (last + 1))).
Proof.
  intros Hname. apply kept_run_loop. intros p Hp.
  apply in_py_range in Hp.
  destruct Hname as [-> | ->]; split; intros E.
  - apply partial_csv_name_inj in E. lia.
  - symmetry in E. now apply partial_csv_not_log in E.
  - now apply partial_csv_not_log in E.
  - apply partial_log_name_inj in E. lia.
Qed.

End Survival.

(** X8. The partial files of a page outlive the rest of the run.  Once
    [_process_page] has processed a page, the loop over the pages that
    follow it, however it ends (all pages done, a page that stops the run, an
    exception), leaves the partial CSV and the partial log of that page as the
    page wrote them: the table of the accumulator and the log as they were
    after that page.  The accumulator and the log the loop ends with extend
    them, so the rows of that CSV are the first rows of the final table. *)
Theorem page_snapshot_survives (U : Unicode) (W : Type) (B : Browser W)
    (page last : Z) (s s1 : Main.Scraper W) :
  Main._process_page page s = (Ret true, s1) ->
  let s' := snd (Main.run_loop (py_range (page + 1) (last + 1)) s1) in
  read_file (files (Main.env s')) (Main.partial_csv_name page)
    = Some (CsvFile (df_from_places (Main.places s1))) /\
  read_file (files (Main.env s')) (Main.partial_log_name page)
    = Some (TextFile (join NEWLINE (Main.logs s1))) /\
  exists added lines,
    Main.places s' = Main.places s1 ++ added /\
    Main.logs s' = Main.logs s1 ++ lines /\
    data (df_from_places (Main.places s'))
    = data (df_from_places (Main.places s1)) ++ map place_cells added.
Proof.
  intros Hrun s'.
  pose proof (process_page_saves page s I) as Hc. rewrite Hrun in Hc.
  pose proof (process_page_saves_log page s I) as Hl. rewrite Hrun in Hl.
  pose proof (later_pages_keep page last _ (or_introl eq_refl) s1) as Kc.
  pose proof (later_pages_keep page last _ (or_intror eq_refl) s1) as Kl.
  unfold file_kept in Kc, Kl. fold s' in Kc, Kl.
  split; [rewrite Kc; now apply Hc|].
  split; [rewrite Kl; now apply Hl|].
  apply grows_rows. apply grows_run_loop.
Qed.

Lemma page_snapshot_survives_witness :
  exists s1 s',
    @Main._process_page SmallUnicode Sim SimBrowser 1
      (Main.new (config_pages 3 false) (sim_env world_two_then_none)) = (Ret true, s1) /\
    s' = snd (@Main.run_loop SmallUnicode Sim SimBrowser (py_range 2 4) s1) /\
    read_file (files (Main.env s')) (u "zoon_tomsk_restaurants_page_01.csv")
      = Some (CsvFile (df_from_places (Main.places s1))) /\
    List.length (Main.places s1) = 2%nat.
Proof.
  set (s := Main.new (config_pages 3 false) (sim_env world_two_then_none)).
  set (s1 := snd (@Main._process_page SmallUnicode Sim SimBrowser 1 s)).
  assert (E : @Main._process_page SmallUnicode Sim SimBrowser 1 s = (Ret true, s1))
    by (vm_compute; reflexivity).
  exists s1, (snd (@Main.run_loop SmallUnicode Sim SimBrowser (py_range 2 4) s1)).
  split; [exact E|]. split; [reflexivity|].
  split; [exact (proj1 (page_snapshot_survives SmallUnicode Sim SimBrowser 1 3 s s1 E))|].
  vm_compute. reflexivity.
Defined.
(* ===================================================================== *)
(** ** Further properties: the budget of the challenge handler *)
(* ===================================================================== *)

Lemma tally_app (f : call -> bool) (a b : list call) :
  tally f (a ++ b) = (tally f a + tally f b)%nat.
Proof. unfold tally. now rewrite filter_app, length_app. Qed.

Section Budget.

Context {U : Unicode} {W : Type} {B : Browser W}.

Lemma detector_calls (e : Env W) :
  calls (snd (Main._is_protect_screen e)) = calls e ++ [CPageSource].
Proof.
  unfold Main._is_protect_screen, bind. rewrite do_call_eq.
  now destruct (fst (page_source (world e))).
Qed.

Lemma sleep_calls (bounds : Q * Q) (e : Env W) :
  calls (snd (Main.humanized_sleep bounds e))
  = calls e ++ [CSleep (fst bounds) (snd bounds)].
Proof. unfold Main.humanized_sleep. now rewrite do_call_eq. Qed.

Lemma poll_redirect_budget (cfg : Main.ParserConfig) (n : nat) (e e' : Env W)
    (r : outcome bool) :
  Main.poll_redirect cfg n e = (r, e') ->
  exists cs,
    calls e' = calls e ++ cs /\
    forallb protect_call cs = true /\
    (tally is_check cs <= n)%nat /\
    tally is_refresh cs = 0%nat /\ tally is_prompt cs = 0%nat /\
    (r = Ret false -> tally is_check cs = n).
Proof.
  revert e. induction n as [|n IH]; intros e H.
  - injection H as <- <-. exists []. rewrite app_nil_r. repeat split; auto.
  - cbn [Main.poll_redirect] in H. unfold bind at 1 in H.
    pose proof (sleep_calls (Main.protect_poll_delay cfg) e) as Hs.
    destruct (Main.humanized_sleep _ e) as [[[]|ex] e1]; cbn [snd] in Hs.
    2:{ injection H as <- <-. eexists. split; [exact Hs|].
        repeat split; cbn; try lia. discriminate. }
    unfold bind at 1 in H. pose proof (detector_calls e1) as Hd.
    destruct (Main._is_protect_screen e1) as [[p|ex] e2]; cbn [snd] in Hd.
    2:{ injection H as <- <-. eexists. rewrite Hd, Hs, <- app_assoc.
        split; [reflexivity|]. repeat split; cbn; try lia. discriminate. }
    destruct p; cbn [negb] in H.
    + destruct (IH e2 H) as (cs & Hc & Hall & Hk & Hr & Hp & Hx).
      eexists. rewrite Hc, Hd, Hs, <- !app_assoc.
      split; [reflexivity|].
      rewrite !tally_app, !forallb_app, Hall, Hr, Hp.
      repeat split; cbn; try lia. intros E. specialize (Hx E). cbn. lia.
    + injection H as <- <-. eexists. rewrite Hd, Hs, <- app_assoc.
      split; [reflexivity|]. repeat split; cbn; try lia. discriminate.
Qed.

Lemma refresh_calls (e : Env W) :
  calls (snd (do_call CRefresh refresh e)) = calls e ++ [CRefresh].
Proof. now rewrite do_call_eq. Qed.

Lemma poll_manual_budget (cfg : Main.ParserConfig) (n : nat) (e e' : Env W)
    (r : outcome bool) :
  Main.poll_manual cfg n e = (r, e') ->
  exists cs,
    calls e' = calls e ++ cs /\
    forallb protect_call cs = true /\
    (tally is_check cs <= n)%nat /\
    (tally is_refresh cs <= n)%nat /\ tally is_prompt cs = 0%nat /\
    (r = Ret false -> tally is_check cs = n /\ tally is_refresh cs = n).
Proof.
  revert e. induction n as [|n IH]; intros e H.
  - injection H as <- <-. exists []. rewrite app_nil_r. repeat split; auto.
  - cbn [Main.poll_manual] in H. unfold bind at 1 in H.
    pose proof (sleep_calls (Main.protect_manual_retry_delay cfg) e) as Hs.
    destruct (Main.humanized_sleep _ e) as [[[]|ex] e1]; cbn [snd] in Hs.
    2:{ injection H as <- <-. eexists. split; [exact Hs|].
        repeat split; cbn; try lia; discriminate. }
    unfold bind at 1 in H. pose proof (detector_calls e1) as Hd.
    destruct (Main._is_protect_screen e1) as [[p|ex] e2]; cbn [snd] in Hd.
    2:{ injection H as <- <-. eexists. rewrite Hd, Hs, <- app_assoc.
        split; [reflexivity|]. repeat split; cbn; try lia; discriminate. }
    destruct p; cbn [negb] in H.
    + unfold bind at 1 in H. pose proof (refresh_calls e2) as Hr.
      destruct (do_call CRefresh refresh e2) as [[[]|ex] e3]; cbn [snd] in Hr.
      2:{ injection H as <- <-. eexists. rewrite Hr, Hd, Hs, <- !app_assoc.
          split; [reflexivity|]. repeat split; cbn; try lia; discriminate. }
      destruct (IH e3 H) as (cs & Hc & Hall & Hk & Hk' & Hp & Hx).
      eexists. rewrite Hc, Hr, Hd, Hs, <- !app_assoc.
      split; [reflexivity|].
      rewrite !tally_app, !forallb_app, Hall, Hp.
      repeat split; cbn; try lia;
        match goal with E : r = Ret false |- _ => destruct (Hx E); lia end.
    + injection H as <- <-. eexists. rewrite Hd, Hs, <- app_assoc.
      split; [reflexivity|]. repeat split; cbn; try lia; discriminate.
Qed.


Lemma prompt_calls (s s' : Main.Scraper W) (r : outcome unit) :
  try_except (Main.outside (do_call CInput input)) is_Exception (ret tt) s = (r, s') ->
  calls (Main.env s') = calls (Main.env s) ++ [CInput].
Proof.
  unfold try_except, Main.outside. rewrite do_call_eq.
  destruct (fst (input (world (Main.env s)))) as [[]|ex].
  - now intros [= <- <-].
  - destruct (is_Exception ex); now intros [= <- <-].
Qed.

Lemma handle_budget (page : Z) (s s' : Main.Scraper W) (r : outcome bool) :
  Main._handle_protect_screen page s = (r, s') ->
  let cfg := Main.config s in
  let polls := Z.to_nat (Main.protect_poll_attempts cfg) in
  let retries := Z.to_nat (Main.protect_manual_retry_attempts cfg) in
  exists cs,
    calls (Main.env s') = calls (Main.env s) ++ cs /\
    forallb protect_call cs = true /\
    (1 <= tally is_check cs <= 1 + polls + retries)%nat /\
    (tally is_refresh cs <= retries)%nat /\
    (tally is_prompt cs <= 1)%nat /\
    (Main.headless cfg = true ->
       (tally is_check cs <= 1 + polls)%nat /\
       tally is_refresh cs = 0%nat /\ tally is_prompt cs = 0%nat) /\
    (r = Ret false ->
       if Main.headless cfg then tally is_check cs = (1 + polls)%nat
       else tally is_check cs = (1 + polls + retries)%nat /\
            tally is_refresh cs = retries /\ tally is_prompt cs = 1%nat).
Proof.
  intros H cfg polls retries. unfold Main._handle_protect_screen in H.
  rewrite (bind_ret_eq _ _ s s cfg) in H by reflexivity.
  unfold bind at 1 in H. unfold Main.outside at 1 in H.
  pose proof (detector_calls (Main.env s)) as Hd.
  destruct (Main._is_protect_screen (Main.env s)) as [[p|ex] e1]; cbn [snd] in Hd.
  2:{ injection H as <- <-. exists [CPageSource]. cbn [Main.env].
      split; [exact Hd|]. repeat split; cbn; try lia; try discriminate. }
  destruct p; cbn [negb] in H.
  2:{ injection H as <- <-. exists [CPageSource]. cbn [Main.env].
      split; [exact Hd|]. repeat split; cbn; try lia; try discriminate. }
  unfold bind at 1 in H. cbn [Main.logs_append] in H.
  unfold bind at 1 in H. unfold Main.outside at 1 in H. cbn [Main.env] in H.
  destruct (Main.poll_redirect cfg polls e1) as [r1 e2] eqn:E1.
  fold polls in H. rewrite E1 in H.
  destruct (poll_redirect_budget _ _ _ _ _ E1) as (cs1 & Hc1 & Ha1 & Hk1 & Hr1 & Hp1 & Hx1).
  destruct r1 as [cleared|ex].
  2:{ injection H as <- <-. exists ([CPageSource] ++ cs1). cbn [Main.env].
      rewrite Hc1, Hd, <- app_assoc. split; [reflexivity|].
      rewrite !tally_app, forallb_app, Ha1, Hr1, Hp1.
      repeat split; cbn; try lia; try discriminate. }
  destruct cleared.
  { injection H as <- <-. exists ([CPageSource] ++ cs1). cbn [Main.env].
    rewrite Hc1, Hd, <- app_assoc. split; [reflexivity|].
    rewrite !tally_app, forallb_app, Ha1, Hr1, Hp1.
    repeat split; cbn; try lia; try discriminate. }
  specialize (Hx1 eq_refl).
  destruct (Main.headless cfg) eqn:Hh.
  { injection H as <- <-. exists ([CPageSource] ++ cs1). cbn [Main.env].
    rewrite Hc1, Hd, <- app_assoc. split; [reflexivity|].
    rewrite !tally_app, forallb_app, Ha1, Hr1, Hp1.
    repeat split; cbn; try lia; try discriminate. }
  unfold bind at 1 in H. cbn [Main.logs_append] in H.
  unfold bind at 1 in H.
  match type of H with
  | context [try_except ?m ?c ?h ?st] =>
      destruct (try_except m c h st) as [r2 s2] eqn:E2
  end.
  pose proof (prompt_calls _ _ _ E2) as Hc2. cbn [Main.env] in Hc2.
  destruct r2 as [[]|ex].
  2:{ injection H as <- <-. exists ([CPageSource] ++ cs1 ++ [CInput]).
      rewrite Hc2, Hc1, Hd, <- !app_assoc. split; [reflexivity|].
      rewrite !tally_app, !forallb_app, Ha1, Hr1, Hp1.
      repeat split; cbn; try lia; try discriminate. }
  unfold bind at 1 in H. unfold Main.outside at 1 in H.
  assert (Hcfg : Main.config s2 = cfg).
  { revert E2. unfold try_except, Main.outside. cbn [Main.env].
    destruct (do_call CInput input e2) as [[[]|ex] e3].
    - now intros [= <-].
    - destruct (is_Exception ex); now intros [= <-]. }
  destruct (Main.poll_manual cfg retries (Main.env s2)) as [r3 e4] eqn:E3.
  fold retries in H. rewrite E3 in H.
  destruct (poll_manual_budget _ _ _ _ _ E3) as (cs3 & Hc3 & Ha3 & Hk3 & Hr3 & Hp3 & Hx3).
  assert (Hcalls : calls e4 = calls (Main.env s) ++ [CPageSource] ++ cs1 ++ [CInput] ++ cs3).
  { rewrite Hc3, Hc2, Hc1, Hd, <- !app_assoc. reflexivity. }
  destruct r3 as [cleared|ex].
  2:{ injection H as <- <-. eexists. split; [exact Hcalls|].
      rewrite !tally_app, !forallb_app, Ha1, Ha3, Hr1, Hp1, Hp3.
      repeat split; cbn; try lia; try discriminate. }
  destruct cleared.
  { injection H as <- <-. eexists. split; [exact Hcalls|].
    rewrite !tally_app, !forallb_app, Ha1, Ha3, Hr1, Hp1, Hp3.
    repeat split; cbn; try lia; try discriminate. }
  destruct (Hx3 eq_refl) as [Hx3a Hx3b].
  injection H as <- <-. eexists. cbn [Main.env Main.logs_append snd].
  split; [exact Hcalls|].
  rewrite !tally_app, !forallb_app, Ha1, Ha3, Hr1, Hp1, Hp3.
  repeat split; cbn; try lia; try discriminate.
Qed.

End Budget.

(** X9. [_handle_protect_screen] works within a fixed budget, however it
    ends.  It only reads the page source, pauses, reloads and prompts; it
    reads the source at least once and at most once plus the automatic
    attempts plus the retries after the prompt; it reloads at most once per
    retry and prompts at most once; headless, it never prompts nor reloads
    and stays within one read plus the automatic attempts.  When it gives the
    page up the budget is spent in full: headless, one read plus one per
    automatic attempt; with a window, also one read and one reload per retry,
    after exactly one prompt.  A count of attempts below zero is no attempt. *)
Theorem protect_screen_budget (U : Unicode) (W : Type) (B : Browser W)
    (page : Z) (s : Main.Scraper W) :
  let r := fst (Main._handle_protect_screen page s) in
  let s' := snd (Main._handle_protect_screen page s) in
  let cfg := Main.config s in
  let polls := Z.to_nat (Main.protect_poll_attempts cfg) in
  let retries := Z.to_nat (Main.protect_manual_retry_attempts cfg) in
  exists cs,
    calls (Main.env s') = calls (Main.env s) ++ cs /\
    forallb protect_call cs = true /\
    (1 <= tally is_check cs <= 1 + polls + retries)%nat /\
    (tally is_refresh cs <= retries)%nat /\
    (tally is_prompt cs <= 1)%nat /\
    (Main.headless cfg = true ->
       (tally is_check cs <= 1 + polls)%nat /\
       tally is_refresh cs = 0%nat /\ tally is_prompt cs = 0%nat) /\
    (r = Ret false ->
       if Main.headless cfg then tally is_check cs = (1 + polls)%nat
       else tally is_check cs = (1 + polls + retries)%nat /\
            tally is_refresh cs = retries /\ tally is_prompt cs = 1%nat).
Proof.
  intros r s'. apply (handle_budget page s s' r).
  subst r s'. now destruct (Main._handle_protect_screen page s).
Qed.
(* ===================================================================== *)
(** ** Further properties: the count line of a processed page *)
(* ===================================================================== *)

#[export] Instance same_places_preorder {W} : PreOrder (@same_places W).
Proof.
  split; [intros s; reflexivity|].
  intros a b c H1 H2. unfold same_places in *. congruence.
Qed.

Section Counting.

Context {U : Unicode} {W : Type} {B : Browser W}.










End Counting.


(* ===================================================================== *)
(** ** Further properties: a run without pages *)
(* ===================================================================== *)

Section EmptyRun.

Context {U : Unicode} {W : Type} {B : Browser W}.

Lemma py_range_empty (a b : Z) : b <= a -> py_range a b = [].
Proof. intros H. unfold py_range. now replace (Z.to_nat (b - a)) with 0%nat by lia. Qed.

Lemma run_empty (cfg : Main.ParserConfig) (e : Env W) :
  Main.total_pages cfg <= 0 ->
  let final := snd (Main.run (Main.new cfg e)) in
  Main.places final = [] /\ Main.logs final = [] /\
  files (Main.env final) = files e /\
  calls (Main.env final)
  = calls e ++ CChrome (Main.headless cfg)
      :: match fst (chrome (Main.headless cfg) (world e)) with
         | Ret _ => [CQuit]
         | Raise _ => []
         end /\
  forall res, fst (Main.run (Main.new cfg e)) = Ret res -> res = ([], []).
Proof.
  intros Hn. cbv zeta.
  pose proof (ensure_driver_fresh cfg e) as (Hcalls & Hfiles & Hp & Hl & Hcfg & Hd).
  cbv zeta in *.
  destruct (Main._ensure_driver (Main.new cfg e)) as [r1 s1] eqn:E1.
  cbn [fst snd] in *.
  destruct (fst (chrome (Main.headless cfg) (world e))) as [[]|ex].
  - destruct Hd as [-> Hdrv].
    rewrite (run_unfold _ _ E1), Hcfg, py_range_empty by lia.
    cbn [Main.run_loop ret].
    pose proof (close_with_driver s1 tt Hdrv) as (_ & Qc & Qf & Qp & Ql & _ & _).
    cbv zeta in *.
    destruct (Main.close s1) as [[[]|ex] s3]; cbn [fst snd] in *;
      rewrite Qp, Ql, Qf, Qc, Hp, Hl, Hfiles, Hcalls, <- app_assoc;
      repeat split; try discriminate.
    intros res H. cbn in H. injection H as <-. reflexivity.
  - destruct Hd as [-> _]. unfold Main.run.
    rewrite (bind_raise_eq _ _ _ _ _ E1). cbn [fst snd].
    rewrite Hp, Hl, Hfiles, Hcalls. repeat split. discriminate.
Qed.

End EmptyRun.

(** X11. With a page count of zero or less, [range(1, total_pages + 1)] is
    empty: [run] starts the browser, asks for no page, releases the browser
    (when it started) and touches no file; the records and the log stay
    empty, and that is what a run that returns gives back. *)
Theorem run_without_pages (U : Unicode) (W : Type) (B : Browser W)
    (cfg : Main.ParserConfig) (e : Env W) :
  Main.total_pages cfg <= 0 ->
  let final := snd (Main.run (Main.new cfg e)) in
  Main.places final = [] /\ Main.logs final = [] /\
  files (Main.env final) = files e /\
  calls (Main.env final)
  = calls e ++ CChrome (Main.headless cfg)
      :: match fst (chrome (Main.headless cfg) (world e)) with
         | Ret _ => [CQuit]
         | Raise _ => []
         end /\
  forall res, fst (Main.run (Main.new cfg e)) = Ret res -> res = ([], []).
Proof. apply run_empty. Qed.

Lemma run_without_pages_witness :
  let final :=
    snd (@Main.run SmallUnicode Sim SimBrowser
           (Main.new (config_pages 0 true) (sim_env world_two_then_none))) in
  Main.total_pages (config_pages 0 true) <= 0 /\
  Main.places final = [] /\
  calls (Main.env final) = [CChrome true; CQuit].
Proof.
  assert (H : Main.total_pages (config_pages 0 true) <= 0) by (vm_compute; discriminate).
  pose proof (run_without_pages SmallUnicode Sim SimBrowser (config_pages 0 true)
                (sim_env world_two_then_none) H) as (Hp & _ & _ & Hc & _).
  cbv zeta. split; [exact H|]. split; [exact Hp|].
  rewrite Hc. vm_compute. reflexivity.
Defined.
